(** * Canvas Course Rewriter: a shallow embedding of [app.py]

    The development follows the source file top to bottom: Python strings,
    the configuration lookups, the Canvas helpers (paginated harvest and the
    three update calls), the prompt compiler and [rewrite_item], and the
    Streamlit handlers that drive them (fetch, rewrite-all, approvals,
    write-back).  Remote services are an explicit, stateful oracle; every
    request is recorded in a trace so that statements about what was (not)
    sent are statements about values. *)

From Stdlib Require Import String Ascii.
From Stdlib Require Import List ZArith NArith Bool Lia.
From Stdlib Require DecimalString.
Import ListNotations.

Set Implicit Arguments.

(* ------------------------------------------------------------------ *)
(** ** Python strings *)

(** A Python [str] is a sequence of Unicode code points; [len] counts code
    points, so the model is [list N] and not a byte string. *)
Module PyStr.

Definition pystr : Type := list N.

Definition py (s : string) : pystr := map N_of_ascii (list_ascii_of_string s).
Arguments py s%_string.

Definition nl : pystr := [10%N].
Definition dquote : pystr := [34%N].

(** Truthiness of a string: [bool(s)] is [len(s) > 0]. *)
Definition truthy (s : pystr) : bool :=
  match s with [] => false | _ :: _ => true end.

(** Truthiness of an optional string ([None] and [""] are both falsy). *)
Definition truthy_opt (o : option pystr) : bool :=
  match o with Some s => truthy s | None => false end.

(** [a or b] on optional strings. *)
Definition py_or (a b : option pystr) : option pystr :=
  if truthy_opt a then a else b.

(** [(s or "")]. *)
Definition or_empty (o : option pystr) : pystr :=
  match o with Some s => s | None => [] end.

Definition py_len (s : pystr) : Z := Z.of_nat (List.length s).

(** [str.isspace] on one code point (CPython's whitespace table). *)
Definition isspace (c : N) : bool :=
  ((9 <=? c) && (c <=? 13) || (28 <=? c) && (c <=? 32)
   || (c =? 133) || (c =? 160) || (c =? 5760)
   || (8192 <=? c) && (c <=? 8202)
   || (c =? 8232) || (c =? 8233) || (c =? 8239) || (c =? 8287)
   || (c =? 12288))%N.

Fixpoint drop_while (p : N -> bool) (s : pystr) : pystr :=
  match s with
  | [] => []
  | c :: r => if p c then drop_while p r else s
  end.

Fixpoint take_while (p : N -> bool) (s : pystr) : pystr :=
  match s with
  | [] => []
  | c :: r => if p c then c :: take_while p r else []
  end.

Definition lstrip (s : pystr) : pystr := drop_while isspace s.
Definition rstrip (s : pystr) : pystr := rev (drop_while isspace (rev s)).
Definition strip (s : pystr) : pystr := rstrip (lstrip s).

(** [s.rstrip(chars)]. *)
Definition rstrip_chars (chars : pystr) (s : pystr) : pystr :=
  rev (drop_while (fun c => existsb (N.eqb c) chars) (rev s)).

Fixpoint starts_with (p s : pystr) : bool :=
  match p, s with
  | [], _ => true
  | a :: p', b :: s' => (a =? b)%N && starts_with p' s'
  | _ :: _, [] => false
  end.

(** [sub in s]. *)
Fixpoint contains (sub s : pystr) : bool :=
  starts_with sub s ||
  match s with
  | [] => false
  | _ :: r => contains sub r
  end.

(** [s.find(c)] for a one-character needle: first index, or [-1]. *)
Fixpoint find_char (c : N) (s : pystr) : Z :=
  match s with
  | [] => (-1)%Z
  | d :: r => if (d =? c)%N then 0%Z
              else let i := find_char c r in
                   if (i <? 0)%Z then (-1)%Z else (i + 1)%Z
  end.

(** Slice bound normalisation: a negative bound counts from the end, and
    every bound is clamped into [0, len]. *)
Definition clamp_index (len i : Z) : Z :=
  let j := if (i <? 0)%Z then (i + len)%Z else i in
  Z.max 0 (Z.min len j).

(** [l[i:j]] on any sequence. *)
Definition py_slice {A : Type} (l : list A) (i j : Z) : list A :=
  let len := Z.of_nat (List.length l) in
  let a := clamp_index len i in
  let b := clamp_index len j in
  firstn (Z.to_nat (b - a)) (skipn (Z.to_nat a) l).

(** [l[:n]] on any sequence. *)
Definition py_prefix {A : Type} (n : Z) (l : list A) : list A :=
  firstn (Z.to_nat (clamp_index (Z.of_nat (List.length l)) n)) l.

(** [s.split(sep)] for a one-character separator. *)
Fixpoint split_on (sep : N) (s : pystr) : list pystr :=
  match s with
  | [] => [[]]
  | c :: r =>
      if (c =? sep)%N then [] :: split_on sep r
      else match split_on sep r with
           | [] => [[c]]
           | p :: ps => (c :: p) :: ps
           end
  end.

(** [sep.join(parts)]. *)
Fixpoint join (sep : pystr) (parts : list pystr) : pystr :=
  match parts with
  | [] => []
  | [p] => p
  | p :: ps => p ++ sep ++ join sep ps
  end.

(** [str(n)] for an integer. *)
Definition str_of_int (n : Z) : pystr :=
  py (DecimalString.NilZero.string_of_int (Z.to_int n)).

(** [repr] of a short identifier, as [str(KeyError(k))] prints it. *)
Definition quoted (k : string) : pystr := py "'" ++ py k ++ py "'".

(** *** [textwrap.dedent] *)

Definition is_blank (c : N) : bool := ((c =? 32) || (c =? 9))%N.

Fixpoint common_prefix (a b : pystr) : pystr :=
  match a, b with
  | x :: a', y :: b' => if (x =? y)%N then x :: common_prefix a' b' else []
  | _, _ => []
  end.

Definition remove_prefix (p s : pystr) : pystr :=
  if starts_with p s then skipn (List.length p) s else s.

(** Lines made of blanks only are emptied, the margin is the longest common
    leading run of blanks of the remaining lines, and it is removed from the
    start of every line that carries it. *)
Definition dedent (text : pystr) : pystr :=
  let lines := map (fun l => if forallb is_blank l then [] else l)
                   (split_on 10 text) in
  let indents := map (take_while is_blank) (filter truthy lines) in
  let margin := match indents with
                | [] => []
                | i :: rest => fold_left common_prefix rest i
                end in
  join nl (map (remove_prefix margin) lines).

End PyStr.
Export PyStr.

(* ------------------------------------------------------------------ *)
(** ** Content items and session state *)

Inductive kind : Type := Page | Assignment | Discussion.

(** The value stored under ["type"]. *)
Definition type_name (k : kind) : pystr :=
  match k with
  | Page => py "page"
  | Assignment => py "assignment"
  | Discussion => py "discussion"
  end.

(** One entry of [st.session_state["content_items"]].  Keys that some
    dictionaries do not carry are optional: only page items get
    ["url_slug"], and ["rewrite_error"] exists only once a rewrite has
    failed. *)
Record item : Type := mkItem {
  type : kind;
  id : Z;
  canvas_id : option Z;
  url_slug : option pystr;
  title : pystr;
  original_html : pystr;
  rewritten_html : pystr;
  approved : bool;
  rewrite_error : option pystr
}.

Definition set_rewritten_html (h : pystr) (it : item) : item :=
  mkItem (type it) (id it) (canvas_id it) (url_slug it) (title it)
         (original_html it) h (approved it) (rewrite_error it).

Definition set_rewrite_error (e : pystr) (it : item) : item :=
  mkItem (type it) (id it) (canvas_id it) (url_slug it) (title it)
         (original_html it) (rewritten_html it) (approved it) (Some e).

Definition set_approved (b : bool) (it : item) : item :=
  mkItem (type it) (id it) (canvas_id it) (url_slug it) (title it)
         (original_html it) (rewritten_html it) b (rewrite_error it).

Record session : Type := mkSession {
  content_items : list item;
  model_context : pystr;
  course_id : option pystr;
  rewrite_done : bool
}.

(* ------------------------------------------------------------------ *)
(** ** The prompt compiler *)

Definition max_model_chars : Z := 12000.

Definition truncation_marker : pystr :=
  nl ++ nl ++ py "[Model context truncated for length.]".

(** Lines 205-209 of [build_rewrite_prompt]: the model context is stripped,
    and only then measured and cut. *)
Definition bounded_model_context (model_context : option pystr) : pystr :=
  let model_context := strip (or_empty model_context) in
  if (py_len model_context >? max_model_chars)%Z
  then py_prefix max_model_chars model_context ++ truncation_marker
  else model_context.

(** The literal handed to [textwrap.dedent]. *)
Definition base_rules_literal : pystr :=
  join nl
    [ [];
      py "        You are an expert Canvas HTML editor. Preserve links and anchors/IDs";
      [];
      py "        Requirements:";
      py "        - Preserve semantics and learning intent of the original.";
      py "        - Follow the policy. Return only HTML, no explanations.";
      py "        - Reformat the HTML using DesignPLUS styling.";
      py "        - Do not change the written content of the page, only the design.";
      py "        - Use Colorado State University branding colors.";
      py "        - Use the DesignPLUS theme from the model provided.";
      py "        - Place all iframes within DesignPLUS accordions.";
      py "        - The focus is on styling, structure, and accessibility "
        ++ [8212%N] ++ py " not changing the content.";
      py "        " ].

Definition base_rules : pystr := Eval vm_compute in dedent base_rules_literal.

Definition default_instructions : pystr :=
  py "If no additional instructions, just clean up structure and align with the model course style.".

(** Everything the f-string puts before [{model_context}]. *)
Definition prompt_head (global_instructions : pystr) : pystr :=
  nl ++ py "    " ++ base_rules ++ nl
  ++ nl
  ++ py "    ### Global instructions from the user" ++ nl
  ++ py "    "
  ++ (if truthy global_instructions then global_instructions
      else default_instructions) ++ nl
  ++ nl
  ++ py "    ### Model course/style examples" ++ nl
  ++ py "    ".

(** Everything the f-string puts after [{model_context}]. *)
Definition prompt_tail (it : item) : pystr :=
  nl
  ++ nl
  ++ py "    ### Target item metadata" ++ nl
  ++ py "    - Type: " ++ type_name (type it) ++ nl
  ++ py "    - Title: " ++ title it ++ nl
  ++ nl
  ++ py "    ### Original HTML" ++ nl
  ++ py "    " ++ original_html it ++ nl
  ++ nl
  ++ py "    ### Output" ++ nl
  ++ py "    Rewrite the HTML above according to the global instructions and style of the model course." ++ nl
  ++ py "    Return ONLY the rewritten HTML." ++ nl
  ++ py "    ".

Definition build_rewrite_prompt
    (it : item) (model_context : option pystr) (global_instructions : pystr)
    : pystr :=
  let model_context := bounded_model_context model_context in
  strip (prompt_head global_instructions ++ model_context ++ prompt_tail it).

(* ------------------------------------------------------------------ *)
(** ** Configuration *)

(** Streamlit secrets and the process environment, both read by key. *)
Record config : Type := mkConfig {
  secrets : string -> option pystr;
  environ : string -> option pystr
}.

(** [st.secrets.get(K, None) or os.getenv(K)]. *)
Definition setting (cfg : config) (k : string) : option pystr :=
  py_or (secrets cfg k) (environ cfg k).

(* ------------------------------------------------------------------ *)
(** ** Remote services *)

(** A decoded Canvas JSON object.  A key read with [obj[k]] may be absent
    (the read then raises [KeyError]); a key read with [obj.get(k, "")] is
    absent or null when [None]. *)
Record canvas_obj : Type := mkObj {
  o_page_id : option Z;
  o_id : option Z;
  o_url : option pystr;
  o_title : option pystr;
  o_name : option pystr;
  o_body : option pystr;
  o_description : option pystr;
  o_message : option pystr
}.

Definition headers : Type := list (pystr * pystr).

(** The JSON payloads of the three update calls:
    [{"wiki_page": {"body": html}}], [{"assignment": {"description": html}}]
    and [{"message": html}]. *)
Inductive put_json : Type :=
| WikiPageBody (html : pystr)
| AssignmentDescription (html : pystr)
| DiscussionMessage (html : pystr).

Record ai_client : Type := mkClient {
  client_base_url : pystr;
  client_api_key : pystr
}.

(** One request leaving the process. *)
Inductive call : Type :=
| Get (url : pystr) (hdrs : headers) (params : list (pystr * Z))
| Put (url : pystr) (hdrs : headers) (json : put_json)
| ChatCreate (client : ai_client) (model : pystr) (content : pystr)
             (temperature : Z).

(** A trace entry: the request, and the message of the exception it led to
    ([None] when [raise_for_status] accepted the response, or the chat call
    returned). *)
Record event : Type := mkEvent {
  ev_call : call;
  ev_error : option pystr
}.

(** What the code reads of a [requests] response.  [status_error] is the
    message of the [HTTPError] that [raise_for_status] raises, [None] for a
    response it accepts (a 2xx). *)
Record response (B : Type) : Type := mkResponse {
  status_error : option pystr;
  link_header : option pystr;
  body : B
}.

(** [client.chat.completions.create]: raises, or returns the choices with
    their [message.content] (which may be [None]). *)
Inductive chat_reply : Type :=
| ChatRaises (msg : pystr)
| ChatReturns (choices : list (option pystr)).

(** The remote world: Canvas and the model deployment, with a state of their
    own.  The JSON decoding of a body is typed by the endpoint asked:
    listing endpoints answer an array, item endpoints an object. *)
Record Remote : Type := mkRemote {
  rstate : Type;
  serve_list : pystr -> headers -> list (pystr * Z) -> rstate ->
               response (list canvas_obj) * rstate;
  serve_obj : pystr -> headers -> list (pystr * Z) -> rstate ->
              response canvas_obj * rstate;
  serve_put : pystr -> headers -> put_json -> rstate ->
              response unit * rstate;
  serve_chat : ai_client -> pystr -> pystr -> Z -> rstate ->
               chat_reply * rstate
}.

(* ------------------------------------------------------------------ *)
(** ** The effect monad *)

(** How a piece of script ends: with a value, with a Python [Exception],
    with Streamlit's [st.stop()] (a script-control signal that
    [except Exception] does not catch), or with the model's loop budget
    exhausted. *)
Inductive outcome (A : Type) : Type :=
| Ret (a : A)
| Raise (msg : pystr)
| Stop
| OutOfFuel.
Arguments Raise {A} msg.
Arguments Stop {A}.
Arguments OutOfFuel {A}.

Definition M (R : Remote) (A : Type) : Type :=
  rstate R -> outcome A * rstate R * list event.

Definition ret {R : Remote} {A : Type} (a : A) : M R A :=
  fun s => (Ret a, s, []).

Definition raise {R : Remote} {A : Type} (msg : pystr) : M R A :=
  fun s => (Raise msg, s, []).

Definition stop {R : Remote} {A : Type} : M R A :=
  fun s => (Stop, s, []).

Definition out_of_fuel {R : Remote} {A : Type} : M R A :=
  fun s => (OutOfFuel, s, []).

Definition bind {R : Remote} {A B : Type} (m : M R A) (k : A -> M R B)
    : M R B :=
  fun s =>
    match m s with
    | (Ret a, s1, t1) =>
        match k a s1 with
        | (o, s2, t2) => (o, s2, t1 ++ t2)
        end
    | (Raise msg, s1, t1) => (Raise msg, s1, t1)
    | (Stop, s1, t1) => (Stop, s1, t1)
    | (OutOfFuel, s1, t1) => (OutOfFuel, s1, t1)
    end.

(** [try: m  except Exception as e: h(str(e))]. *)
Definition try_except {R : Remote} {A : Type} (m : M R A)
    (h : pystr -> M R A) : M R A :=
  fun s =>
    match m s with
    | (Raise msg, s1, t1) =>
        match h msg s1 with
        | (o, s2, t2) => (o, s2, t1 ++ t2)
        end
    | r => r
    end.

Notation "x <- m ;; k" := (bind m (fun x => k))
  (at level 61, m at next level, right associativity).
Notation "m ;;; k" := (bind m (fun _ => k))
  (at level 61, right associativity).

(** [d[k]] on a dictionary whose key may be missing. *)
Definition getitem {R : Remote} {A : Type} (k : string) (v : option A)
    : M R A :=
  match v with
  | Some a => ret a
  | None => raise (quoted k)
  end.

Definition requests_get_list {R : Remote} (url : pystr) (hdrs : headers)
    (params : list (pystr * Z)) : M R (response (list canvas_obj)) :=
  fun s =>
    match serve_list R url hdrs params s with
    | (resp, s1) =>
        (Ret resp, s1, [mkEvent (Get url hdrs params) (status_error resp)])
    end.

Definition requests_get_obj {R : Remote} (url : pystr) (hdrs : headers)
    (params : list (pystr * Z)) : M R (response canvas_obj) :=
  fun s =>
    match serve_obj R url hdrs params s with
    | (resp, s1) =>
        (Ret resp, s1, [mkEvent (Get url hdrs params) (status_error resp)])
    end.

Definition requests_put {R : Remote} (url : pystr) (hdrs : headers)
    (json : put_json) : M R (response unit) :=
  fun s =>
    match serve_put R url hdrs json s with
    | (resp, s1) =>
        (Ret resp, s1, [mkEvent (Put url hdrs json) (status_error resp)])
    end.

Definition raise_for_status {R : Remote} {B : Type} (resp : response B)
    : M R unit :=
  match status_error resp with
  | Some msg => raise msg
  | None => ret tt
  end.

Definition chat_completions_create {R : Remote} (client : ai_client)
    (model : pystr) (content : pystr) (temperature : Z)
    : M R (list (option pystr)) :=
  fun s =>
    match serve_chat R client model content temperature s with
    | (ChatRaises msg, s1) =>
        (Raise msg, s1,
         [mkEvent (ChatCreate client model content temperature) (Some msg)])
    | (ChatReturns choices, s1) =>
        (Ret choices, s1,
         [mkEvent (ChatCreate client model content temperature) None])
    end.

(* ------------------------------------------------------------------ *)
(** ** Configuration readers *)

Definition get_ai_client {R : Remote} (cfg : config) : M R ai_client :=
  let base_url := setting cfg "OPENAI_BASE_URL" in
  let api_key := setting cfg "OPENAI_API_KEY" in
  if negb (truthy_opt base_url) || negb (truthy_opt api_key) then stop
  else ret (mkClient (or_empty base_url) (or_empty api_key)).

Definition get_canvas_config {R : Remote} (cfg : config)
    : M R (pystr * pystr) :=
  let base_url := setting cfg "CANVAS_BASE_URL" in
  let token := setting cfg "CANVAS_API_TOKEN" in
  if negb (truthy_opt base_url) || negb (truthy_opt token) then stop
  else ret (rstrip_chars (py "/") (or_empty base_url), or_empty token).

(* ------------------------------------------------------------------ *)
(** ** Canvas helpers *)

Definition canvas_headers (token : pystr) : headers :=
  [ (py "Authorization", py "Bearer " ++ token);
    (py "Content-Type", py "application/json") ].

Definition get_course {R : Remote} (base_url token course_id : pystr)
    : M R canvas_obj :=
  let url := base_url ++ py "/api/v1/courses/" ++ course_id in
  resp <- requests_get_obj url (canvas_headers token) [] ;;
  raise_for_status resp ;;;
  ret (body resp).

(** The [Link] header scan shared by the three harvest loops. *)
Definition rel_next : pystr := py "rel=" ++ dquote ++ py "next" ++ dquote.

Fixpoint next_in_parts (parts : list pystr) : option pystr :=
  match parts with
  | [] => None
  | part :: rest =>
      if contains rel_next part
      then Some (py_slice part (find_char 60 part + 1) (find_char 62 part))
      else next_in_parts rest
  end.

(** [link = resp.headers.get("Link", "")] followed by the scan. *)
Definition next_url {B : Type} (resp : response B) : option pystr :=
  let link := or_empty (link_header resp) in
  next_in_parts (split_on 44 link).

(** [max_items and len(items) >= max_items]: a cap of [None] or [0] is
    falsy and never fires. *)
Definition cap_reached {A : Type} (max_items : option Z) (items : list A)
    : bool :=
  match max_items with
  | None => false
  | Some m => negb (m =? 0)%Z && (Z.of_nat (length items) >=? m)%Z
  end.

(** [items[:max_items]]. *)
Definition slice_to_cap {A : Type} (max_items : option Z) (items : list A)
    : list A :=
  match max_items with
  | None => items
  | Some m => py_prefix m items
  end.

Definition per_page : list (pystr * Z) := [(py "per_page", 100%Z)].

Section CanvasHelpers.
Variable R : Remote.

(** The [for page in resp.json()] loop of [get_pages]; the flag tells
    whether the function returned from inside the loop. *)
Fixpoint pages_details (base_url course_id : pystr) (hdrs : headers)
    (max_items : option Z) (listing : list canvas_obj)
    (items : list canvas_obj) : M R (bool * list canvas_obj) :=
  match listing with
  | [] => ret (false, items)
  | page :: rest =>
      slug <- getitem "url" (o_url page) ;;
      let detail_url :=
        base_url ++ py "/api/v1/courses/" ++ course_id ++ py "/pages/"
        ++ slug in
      detail_resp <- requests_get_obj detail_url hdrs [] ;;
      raise_for_status detail_resp ;;;
      let full_page := body detail_resp in
      let items := items ++ [full_page] in
      if cap_reached max_items items then ret (true, items)
      else pages_details base_url course_id hdrs max_items rest items
  end.

(** The [while url:] loop of [get_pages]. *)
Fixpoint pages_loop (fuel : nat) (base_url course_id : pystr)
    (hdrs : headers) (max_items : option Z) (url : option pystr)
    (items : list canvas_obj) : M R (list canvas_obj) :=
  if truthy_opt url then
    match fuel with
    | O => out_of_fuel
    | S fuel' =>
        resp <- requests_get_list (or_empty url) hdrs per_page ;;
        raise_for_status resp ;;;
        r <- pages_details base_url course_id hdrs max_items
               (body resp) items ;;
        if fst r then ret (snd r)
        else pages_loop fuel' base_url course_id hdrs max_items
               (next_url resp) (snd r)
    end
  else ret items.

Definition get_pages (fuel : nat) (base_url token course_id : pystr)
    (max_items : option Z) : M R (list canvas_obj) :=
  let hdrs := canvas_headers token in
  let url := base_url ++ py "/api/v1/courses/" ++ course_id ++ py "/pages" in
  pages_loop fuel base_url course_id hdrs max_items (Some url) [].

(** The [while url:] loop of [get_assignments] and of [get_discussions],
    whose bodies are the same statement for statement. *)
Fixpoint listing_loop (fuel : nat) (hdrs : headers)
    (max_items : option Z) (url : option pystr)
    (items : list canvas_obj) : M R (list canvas_obj) :=
  if truthy_opt url then
    match fuel with
    | O => out_of_fuel
    | S fuel' =>
        resp <- requests_get_list (or_empty url) hdrs per_page ;;
        raise_for_status resp ;;;
        let data := body resp in
        let items := items ++ data in
        if cap_reached max_items items
        then ret (slice_to_cap max_items items)
        else listing_loop fuel' hdrs max_items (next_url resp) items
    end
  else ret items.

Definition get_assignments (fuel : nat) (base_url token course_id : pystr)
    (max_items : option Z) : M R (list canvas_obj) :=
  let hdrs := canvas_headers token in
  let url :=
    base_url ++ py "/api/v1/courses/" ++ course_id ++ py "/assignments" in
  listing_loop fuel hdrs max_items (Some url) [].

Definition get_discussions (fuel : nat) (base_url token course_id : pystr)
    (max_items : option Z) : M R (list canvas_obj) :=
  let hdrs := canvas_headers token in
  let url :=
    base_url ++ py "/api/v1/courses/" ++ course_id
    ++ py "/discussion_topics" in
  listing_loop fuel hdrs max_items (Some url) [].

Definition update_page_html (base_url token course_id url_slug html : pystr)
    : M R unit :=
  let endpoint :=
    base_url ++ py "/api/v1/courses/" ++ course_id ++ py "/pages/"
    ++ url_slug in
  let payload := WikiPageBody html in
  resp <- requests_put endpoint (canvas_headers token) payload ;;
  raise_for_status resp.

Definition update_assignment_html (base_url token course_id : pystr)
    (assignment_id : Z) (html : pystr) : M R unit :=
  let endpoint :=
    base_url ++ py "/api/v1/courses/" ++ course_id ++ py "/assignments/"
    ++ str_of_int assignment_id in
  let payload := AssignmentDescription html in
  resp <- requests_put endpoint (canvas_headers token) payload ;;
  raise_for_status resp.

Definition update_discussion_html (base_url token course_id : pystr)
    (topic_id : Z) (html : pystr) : M R unit :=
  let endpoint :=
    base_url ++ py "/api/v1/courses/" ++ course_id
    ++ py "/discussion_topics/" ++ str_of_int topic_id in
  let payload := DiscussionMessage html in
  resp <- requests_put endpoint (canvas_headers token) payload ;;
  raise_for_status resp.

End CanvasHelpers.

(* ------------------------------------------------------------------ *)
(** ** The generic pagination helper *)

Section Pagination.
Variable R : Remote.

(** [requests.get(url, headers=headers, params=params)] with an optional
    [params]: [None] sends no query parameter. *)
Definition params_or_none (params : option (list (pystr * Z)))
    : list (pystr * Z) :=
  match params with Some p => p | None => [] end.

(** The [while url:] loop of [_paginate_canvas].  Both arms of
    [data if isinstance(data, list) else data] are [data]. *)
Fixpoint paginate_loop (fuel : nat) (hdrs : headers)
    (params : option (list (pystr * Z))) (url : option pystr)
    (items : list canvas_obj) : M R (list canvas_obj) :=
  if truthy_opt url then
    match fuel with
    | O => out_of_fuel
    | S fuel' =>
        resp <- requests_get_list (or_empty url) hdrs
                  (params_or_none params) ;;
        raise_for_status resp ;;;
        let data := body resp in
        let items := items ++ data in
        paginate_loop fuel' hdrs None (next_url resp) items
    end
  else ret items.

Definition _paginate_canvas (fuel : nat) (base_url token url : pystr)
    (params : option (list (pystr * Z))) : M R (list canvas_obj) :=
  let hdrs := canvas_headers token in
  paginate_loop fuel hdrs params (Some url) [].

End Pagination.

(* ------------------------------------------------------------------ *)
(** ** The transformation call *)

Section Rewrite.
Variable R : Remote.

Definition rewrite_item (cfg : config) (client : ai_client) (it : item)
    (model_context : pystr) (global_instructions : pystr) : M R pystr :=
  let prompt :=
    build_rewrite_prompt it (Some model_context) global_instructions in
  let model_name := setting cfg "OPENAI_MODEL" in
  if negb (truthy_opt model_name) then stop
  else
    choices <- chat_completions_create client (or_empty model_name)
                 prompt 0 ;;
    content <- match choices with
               | c :: _ => ret c
               | [] => raise (py "list index out of range")
               end ;;
    let out := or_empty content in
    ret (strip out).

(** The body of the rewrite-all loop for one item (the [try] statement).
    The only assignment of the [try] block is its last statement, so the
    handler always sees the item as it was. *)
Definition rewrite_one (cfg : config) (client : ai_client)
    (model_context global_instructions : pystr) (it : item) : M R item :=
  try_except
    (if truthy (original_html it) then
       rewritten <- rewrite_item cfg client it model_context
                      global_instructions ;;
       ret (set_rewritten_html rewritten it)
     else ret (set_rewritten_html [] it))
    (fun e => ret (set_rewrite_error e it)).

(** The [for idx, item in enumerate(items)] loop.  Items are mutated in
    place, so the list is returned whatever ends the loop: the items
    already visited carry their updates, the others are as they were. *)
Fixpoint rewrite_loop (cfg : config) (client : ai_client)
    (model_context global_instructions : pystr) (items : list item)
    (s : rstate R) : list item * outcome unit * rstate R * list event :=
  match items with
  | [] => ([], Ret tt, s, [])
  | it :: rest =>
      match rewrite_one cfg client model_context global_instructions it s
      with
      | (Ret it', s1, t1) =>
          match rewrite_loop cfg client model_context global_instructions
                  rest s1 with
          | (rest', o, s2, t2) => (it' :: rest', o, s2, t1 ++ t2)
          end
      | (Raise msg, s1, t1) => (it :: rest, Raise msg, s1, t1)
      | (Stop, s1, t1) => (it :: rest, Stop, s1, t1)
      | (OutOfFuel, s1, t1) => (it :: rest, OutOfFuel, s1, t1)
      end
  end.

End Rewrite.

(* ------------------------------------------------------------------ *)
(** ** The Streamlit handlers *)

(** What a handler shows to the operator. *)
Inductive notice : Type :=
| ButtonDisabled
| NeedCourseId
| Loaded (count : nat) (course : pystr)
| FetchError (msg : pystr)
| RewriteComplete
| AllMarkedApproved
| ApprovalsCleared
| MissingCourse
| NothingToWrite
| SomeFailed (errors : list (pystr * pystr))
| AllWritten.

(** A handler runs on the session and the remote world: it leaves a
    session, says how the script run ended, and leaves a trace. *)
Definition handler (R : Remote) : Type :=
  session -> rstate R -> session * outcome notice * rstate R * list event.

(** A block that assigns to the session only as its last step. *)
Definition run_block {R : Remote} (sess : session)
    (m : M R (session * notice)) : rstate R ->
    session * outcome notice * rstate R * list event :=
  fun s =>
    match m s with
    | (Ret (sess', n), s1, t) => (sess', Ret n, s1, t)
    | (Raise msg, s1, t) => (sess, Raise msg, s1, t)
    | (Stop, s1, t) => (sess, Stop, s1, t)
    | (OutOfFuel, s1, t) => (sess, OutOfFuel, s1, t)
    end.

Fixpoint map_m {R : Remote} {A B : Type} (f : A -> M R B) (l : list A)
    : M R (list B) :=
  match l with
  | [] => ret []
  | a :: r => b <- f a ;; bs <- map_m f r ;; ret (b :: bs)
  end.

Definition page_item {R : Remote} (p : canvas_obj) : M R item :=
  page_id <- getitem "page_id" (o_page_id p) ;;
  url <- getitem "url" (o_url p) ;;
  title <- getitem "title" (o_title p) ;;
  ret (mkItem Page page_id (Some page_id) (Some url) title
              (or_empty (o_body p)) [] false None).

Definition assignment_item {R : Remote} (a : canvas_obj) : M R item :=
  id <- getitem "id" (o_id a) ;;
  name <- getitem "name" (o_name a) ;;
  ret (mkItem Assignment id (Some id) None name
              (or_empty (o_description a)) [] false None).

Definition discussion_item {R : Remote} (d : canvas_obj) : M R item :=
  id <- getitem "id" (o_id d) ;;
  title <- getitem "title" (o_title d) ;;
  ret (mkItem Discussion id (Some id) None title
              (or_empty (o_message d)) [] false None).

Section Handlers.
Variable R : Remote.

(** The [try] block of the fetch handler: the course check, the three
    harvests, the construction of the items and, last, the assignments to
    the session.  [fuel] bounds each of the three pagination loops. *)
Definition harvest_course (fuel : nat) (base_url token : pystr)
    (target_course_id : pystr) (sess : session) : M R (session * notice) :=
  _ <- get_course base_url token target_course_id ;;
  pages <- get_pages R fuel base_url token target_course_id None ;;
  assignments <-
    get_assignments R fuel base_url token target_course_id None ;;
  discussions <-
    get_discussions R fuel base_url token target_course_id None ;;
  from_pages <- map_m page_item pages ;;
  from_assignments <- map_m assignment_item assignments ;;
  from_discussions <- map_m discussion_item discussions ;;
  let content_items :=
    from_pages ++ from_assignments ++ from_discussions in
  ret (mkSession content_items (model_context sess)
                 (Some target_course_id) false,
       Loaded (length content_items) target_course_id).

(** Sidebar button "Fetch course content". *)
Definition fetch_course_content (fuel : nat) (cfg : config)
    (target_course_id : pystr) : handler R :=
  fun sess =>
    if negb (truthy target_course_id) then
      run_block sess (ret (sess, NeedCourseId))
    else
      run_block sess
        (c <- get_canvas_config cfg ;;
         let base_url := fst c in
         let token := snd c in
         try_except
           (harvest_course fuel base_url token target_course_id sess)
           (fun e => ret (sess, FetchError e))).

(** Button "Run rewrite on all items". *)
Definition run_rewrite_all (cfg : config) (global_instructions : pystr)
    : handler R :=
  fun sess s =>
    let can_run_rewrite :=
      match content_items sess with [] => false | _ :: _ => true end
      && truthy (model_context sess) in
    if negb can_run_rewrite then (sess, Ret ButtonDisabled, s, [])
    else
      match get_ai_client cfg s with
      | (Ret client, s0, t0) =>
          match rewrite_loop R cfg client (model_context sess)
                  global_instructions (content_items sess) s0 with
          | (items, Ret _, s1, t1) =>
              (mkSession items (model_context sess) (course_id sess) true,
               Ret RewriteComplete, s1, t0 ++ t1)
          | (items, Raise msg, s1, t1) =>
              (mkSession items (model_context sess) (course_id sess)
                         (rewrite_done sess),
               Raise msg, s1, t0 ++ t1)
          | (items, Stop, s1, t1) =>
              (mkSession items (model_context sess) (course_id sess)
                         (rewrite_done sess),
               Stop, s1, t0 ++ t1)
          | (items, OutOfFuel, s1, t1) =>
              (mkSession items (model_context sess) (course_id sess)
                         (rewrite_done sess),
               OutOfFuel, s1, t0 ++ t1)
          end
      | (Raise msg, s0, t0) => (sess, Raise msg, s0, t0)
      | (Stop, s0, t0) => (sess, Stop, s0, t0)
      | (OutOfFuel, s0, t0) => (sess, OutOfFuel, s0, t0)
      end.

(** Step 4, the per-item checkboxes: every item takes the state of its
    checkbox. *)
Fixpoint review_checkboxes (checks : list bool) (items : list item)
    : list item :=
  match items, checks with
  | it :: rest, c :: cs => set_approved c it :: review_checkboxes cs rest
  | _, _ => items
  end.

(** Button "Approve ALL items with proposed HTML". *)
Definition approve_all_rewritten (items : list item) : list item :=
  map (fun it => if truthy (rewritten_html it) then set_approved true it
                 else it) items.





(** The write-back selection:
    [it.get("approved") and it.get("rewritten_html")]. *)
Definition selected (it : item) : bool :=
  approved it && truthy (rewritten_html it).

Definition approved_items (sess : session) : list item :=
  filter selected (content_items sess).

(** The [if]/[elif] dispatch on [item["type"]] inside the [try]. *)
Definition write_item (base_url token course_id : pystr) (it : item)
    : M R unit :=
  match type it with
  | Page =>
      slug <- getitem "url_slug" (url_slug it) ;;
      update_page_html R base_url token course_id slug (rewritten_html it)
  | Assignment =>
      cid <- getitem "canvas_id" (canvas_id it) ;;
      update_assignment_html R base_url token course_id cid
        (rewritten_html it)
  | Discussion =>
      cid <- getitem "canvas_id" (canvas_id it) ;;
      update_discussion_html R base_url token course_id cid
        (rewritten_html it)
  end.

(** The [for item in approved_items] loop with its [errors] list. *)
Fixpoint write_loop (base_url token course_id : pystr)
    (items : list item) (errors : list (pystr * pystr))
    : M R (list (pystr * pystr)) :=
  match items with
  | [] => ret errors
  | it :: rest =>
      errors' <- try_except
                   (write_item base_url token course_id it ;;; ret errors)
                   (fun e => ret (errors ++ [(title it, e)])) ;;
      write_loop base_url token course_id rest errors'
  end.

(** Button "Write approved changes to Canvas". *)
Definition write_approved_changes (cfg : config) : handler R :=
  fun sess =>
    if negb (truthy_opt (course_id sess)) then
      run_block sess (ret (sess, MissingCourse))
    else
      run_block sess
        (c <- get_canvas_config cfg ;;
         let base_url := fst c in
         let token := snd c in
         let course := or_empty (course_id sess) in
         match approved_items sess with
         | [] => ret (sess, NothingToWrite)
         | _ :: _ =>
             errors <- write_loop base_url token course
                         (approved_items sess) [] ;;
             match errors with
             | _ :: _ => ret (sess, SomeFailed errors)
             | [] => ret (sess, AllWritten)
             end
         end).

End Handlers.

(* ------------------------------------------------------------------ *)
(** ** A small simulated remote, for concrete runs *)

Module Demo.

Definition str_eqb (a b : pystr) : bool :=
  if list_eq_dec N.eq_dec a b then true else false.

Definition obj (n : Z) (slug name html : string) : canvas_obj :=
  mkObj (Some n) (Some n) (Some (py slug)) (Some (py name))
        (Some (py name)) (Some (py html)) (Some (py html))
        (Some (py html)).

Definition ok {B : Type} (link : option pystr) (b : B) : response B :=
  mkResponse None link b.

Definition failing {B : Type} (msg : string) (b : B) : response B :=
  mkResponse (Some (py msg)) None b.

Definition empty_obj : canvas_obj :=
  mkObj None None None None None None None None.

Definition base : pystr := py "https://canvas.test".
Definition token : pystr := py "secret".
Definition course : pystr := py "7".

Definition next_to (url : string) : option pystr :=
  Some (py "<" ++ py url ++ py ">; rel=" ++ dquote ++ py "next" ++ dquote).

Definition a1 := obj 1 "alpha" "Alpha" "<p>one</p>".
Definition a2 := obj 2 "beta" "Beta" "<p>two</p>".
Definition a3 := obj 3 "gamma" "Gamma" "<p>three</p>".

(** Every collection of course 7 is served as two listing pages,
    [a1; a2] and then [a3]. *)
Definition listing (url : pystr) : response (list canvas_obj) :=
  if str_eqb url (py "https://canvas.test/api/v1/courses/7/pages")
  then ok (next_to "https://canvas.test/more") [a1; a2]
  else if str_eqb url (py "https://canvas.test/api/v1/courses/7/assignments")
  then ok (next_to "https://canvas.test/more") [a1; a2]
  else if str_eqb url
            (py "https://canvas.test/api/v1/courses/7/discussion_topics")
  then ok (next_to "https://canvas.test/more") [a1; a2]
  else if str_eqb url (py "https://canvas.test/more")
  then ok None [a3]
  else failing "404 Client Error: Not Found" [].

Definition detail (url : pystr) : response canvas_obj :=
  if str_eqb url (py "https://canvas.test/api/v1/courses/7/pages/alpha")
  then ok None a1
  else if str_eqb url (py "https://canvas.test/api/v1/courses/7/pages/beta")
  then ok None a2
  else if str_eqb url (py "https://canvas.test/api/v1/courses/7/pages/gamma")
  then ok None a3
  else if str_eqb url (py "https://canvas.test/api/v1/courses/7")
  then ok None empty_obj
  else failing "404 Client Error: Not Found" empty_obj.

(** The state counts the requests served.  Updates of the page [beta]
    are refused; the model deployment answers every prompt with a fixed
    fragment, except that it fails on prompts that mention [Beta]. *)
Definition canvas : Remote :=
  mkRemote
    (fun url _ _ (n : nat) => (listing url, S n))
    (fun url _ _ (n : nat) => (detail url, S n))
    (fun url _ _ (n : nat) =>
       (if contains (py "beta") url
        then failing "403 Client Error: Forbidden" tt
        else ok None tt, S n))
    (fun _ _ content _ (n : nat) =>
       (if contains (py "Title: Beta") content
        then ChatRaises (py "Request timed out.")
        else ChatReturns [Some (py "  <div>styled</div>  ")], S n)).

(** The same course behind a listing whose second page is refused. *)
Definition broken_canvas : Remote :=
  mkRemote
    (fun url _ _ (n : nat) =>
       (if str_eqb url (py "https://canvas.test/more")
        then failing "500 Server Error" []
        else listing url, S n))
    (fun url _ _ (n : nat) => (detail url, S n))
    (fun url _ _ (n : nat) => (ok None tt, S n))
    (fun _ _ content _ (n : nat) => (ChatReturns [], S n)).

Definition cfg : config :=
  mkConfig
    (fun k =>
       if String.eqb k "CANVAS_BASE_URL" then Some (py "https://canvas.test/")
       else if String.eqb k "CANVAS_API_TOKEN" then Some token
       else if String.eqb k "OPENAI_MODEL" then Some (py "gpt-deploy")
       else None)
    (fun k =>
       if String.eqb k "OPENAI_BASE_URL" then Some (py "https://ai.test/v1")
       else if String.eqb k "OPENAI_API_KEY" then Some (py "key")
       else None).

Definition client : ai_client :=
  mkClient (py "https://ai.test/v1") (py "key").

Definition it_page (slug name : string) (orig rewritten : string)
    (appr : bool) : item :=
  mkItem Page 1 (Some 1%Z) (Some (py slug)) (py name) (py orig)
         (py rewritten) appr None.

Definition empty_session : session := mkSession [] [] None false.

End Demo.

(* ------------------------------------------------------------------ *)
(** ** Observations used in the statements *)

(** The components of the run of a computation. *)
Definition out_of {R : Remote} {A : Type}
    (r : outcome A * rstate R * list event) : outcome A := fst (fst r).
Definition state_of {R : Remote} {A : Type}
    (r : outcome A * rstate R * list event) : rstate R := snd (fst r).
Definition trace_of {R : Remote} {A : Type}
    (r : outcome A * rstate R * list event) : list event := snd r.

(** The components of the run of a handler. *)
Definition run_session {R : Remote}
    (r : session * outcome notice * rstate R * list event) : session :=
  fst (fst (fst r)).
Definition run_outcome {R : Remote}
    (r : session * outcome notice * rstate R * list event)
    : outcome notice := snd (fst (fst r)).
Definition run_state {R : Remote}
    (r : session * outcome notice * rstate R * list event) : rstate R :=
  snd (fst r).
Definition run_trace {R : Remote}
    (r : session * outcome notice * rstate R * list event) : list event :=
  snd r.

(** A computation aborts on refusal when, whatever the remote state, a
    request of its run that was refused (its response did not pass
    [raise_for_status]) makes the whole run end with that very exception:
    no value is returned. *)
Definition aborts_on_refusal {R : Remote} {A : Type} (m : M R A) : Prop :=
  forall (s : rstate R) (ev : event) (msg : pystr),
    In ev (trace_of (m s)) -> ev_error ev = Some msg ->
    out_of (m s) = Raise msg.

(** A handler keeps the session on refusal when a refused request in its
    run leaves the session exactly as it was, the operator being shown the
    failure. *)
Definition keeps_session_on_refusal {R : Remote} (h : handler R) : Prop :=
  forall (sess : session) (s : rstate R) (ev : event) (msg : pystr),
    In ev (run_trace (h sess s)) -> ev_error ev = Some msg ->
    run_session (h sess s) = sess
    /\ run_outcome (h sess s) = Ret (FetchError msg).


(** The components of the run of the rewrite-all loop. *)
Definition loop_items {R : Remote}
    (r : list item * outcome unit * rstate R * list event) : list item :=
  fst (fst (fst r)).
Definition loop_outcome {R : Remote}
    (r : list item * outcome unit * rstate R * list event) : outcome unit :=
  snd (fst (fst r)).
Definition loop_state {R : Remote}
    (r : list item * outcome unit * rstate R * list event) : rstate R :=
  snd (fst r).
Definition loop_trace {R : Remote}
    (r : list item * outcome unit * rstate R * list event) : list event :=
  snd r.

(** The remote state in which the rewrite-all loop reaches the item at
    position [k]: the state left by the loop over the [k] items before. *)
Definition state_before (R : Remote) (cfg : config) (client : ai_client)
    (model_context global_instructions : pystr) (items : list item)
    (k : nat) (s : rstate R) : rstate R :=
  loop_state (rewrite_loop R cfg client model_context global_instructions
                (firstn k items) s).

(** What the model deployment answers, in state [s], to the transform call
    for [it]. *)
Definition reply_for (R : Remote) (cfg : config) (client : ai_client)
    (model_context global_instructions : pystr) (it : item) (s : rstate R)
    : chat_reply :=
  fst (serve_chat R client (or_empty (setting cfg "OPENAI_MODEL"))
         (build_rewrite_prompt it (Some model_context) global_instructions)
         0%Z s).

(** The item that a given answer leaves behind. *)
Definition after_reply (it : item) (r : chat_reply) : item :=
  if truthy (original_html it) then
    match r with
    | ChatReturns (content :: _) =>
        set_rewritten_html (strip (or_empty content)) it
    | ChatReturns [] => set_rewrite_error (py "list index out of range") it
    | ChatRaises msg => set_rewrite_error msg it
    end
  else set_rewritten_html [] it.


(** The Canvas base URL and token that [get_canvas_config] returns when both
    settings are present. *)
Definition canvas_configured (cfg : config) : bool :=
  truthy_opt (setting cfg "CANVAS_BASE_URL")
  && truthy_opt (setting cfg "CANVAS_API_TOKEN").
Definition canvas_base (cfg : config) : pystr :=
  rstrip_chars (py "/") (or_empty (setting cfg "CANVAS_BASE_URL")).
Definition canvas_token (cfg : config) : pystr :=
  or_empty (setting cfg "CANVAS_API_TOKEN").

(** The key that the write-back dispatch reads from an item of this type
    and does not find, if any. *)
Definition missing_identifier (it : item) : option string :=
  match type it with
  | Page => match url_slug it with
            | None => Some "url_slug"%string
            | Some _ => None
            end
  | Assignment | Discussion =>
      match canvas_id it with
      | None => Some "canvas_id"%string
      | Some _ => None
      end
  end.

(** The update request that writing an item back amounts to; there is none
    when the item lacks the identifier its type needs. *)
Definition put_call_of (base_url token course_id : pystr) (it : item)
    : option call :=
  match type it with
  | Page =>
      option_map
        (fun slug =>
           Put (base_url ++ py "/api/v1/courses/" ++ course_id
                ++ py "/pages/" ++ slug)
               (canvas_headers token) (WikiPageBody (rewritten_html it)))
        (url_slug it)
  | Assignment =>
      option_map
        (fun cid =>
           Put (base_url ++ py "/api/v1/courses/" ++ course_id
                ++ py "/assignments/" ++ str_of_int cid)
               (canvas_headers token)
               (AssignmentDescription (rewritten_html it)))
        (canvas_id it)
  | Discussion =>
      option_map
        (fun cid =>
           Put (base_url ++ py "/api/v1/courses/" ++ course_id
                ++ py "/discussion_topics/" ++ str_of_int cid)
               (canvas_headers token)
               (DiscussionMessage (rewritten_html it)))
        (canvas_id it)
  end.

Definition opt_list {A : Type} (o : option A) : list A :=
  match o with Some a => [a] | None => [] end.

(** The update requests for a list of items, in order. *)
Definition requests_for (base_url token course_id : pystr)
    (items : list item) : list call :=
  flat_map (fun it => opt_list (put_call_of base_url token course_id it))
           items.

Definition failure_of {A : Type} (o : outcome A) : option pystr :=
  match o with Raise msg => Some msg | _ => None end.

(** The write-back of each item in turn, each in the remote state left by
    the one before: every item is paired with the failure message of its
    own attempt, [None] when the update went through. *)
Fixpoint attempt_each (R : Remote) (base_url token course_id : pystr)
    (items : list item) (s : rstate R) : list (item * option pystr) :=
  match items with
  | [] => []
  | it :: rest =>
      let r := write_item R base_url token course_id it s in
      (it, failure_of (out_of r))
      :: attempt_each R base_url token course_id rest (state_of r)
  end.

(** The failure entries of a list of attempts. *)
Definition failures (attempts : list (item * option pystr))
    : list (pystr * pystr) :=
  flat_map (fun a => match snd a with
                     | Some msg => [(title (fst a), msg)]
                     | None => []
                     end) attempts.

(** What the write-back handler shows for a given selection and failure
    list. *)
Definition report (selection : list item) (errors : list (pystr * pystr))
    : notice :=
  match selection, errors with
  | [], _ => NothingToWrite
  | _ :: _, [] => AllWritten
  | _ :: _, _ :: _ => SomeFailed errors
  end.


(** A capped run takes a prefix of an uncapped one when, the uncapped run
    returning a sequence, the capped run returns its first [m] records
    after an initial segment of the same requests. *)
Definition takes_prefix {R : Remote} (m : Z)
    (capped uncapped : outcome (list canvas_obj) * rstate R * list event)
    : Prop :=
  forall all,
    out_of uncapped = Ret all ->
    out_of capped = Ret (firstn (Z.to_nat m) all)
    /\ exists rest, trace_of uncapped = trace_of capped ++ rest.

(** Listing requests carry the [per_page] parameter, detail requests carry
    no parameter at all. *)
Definition is_detail (ev : event) : bool :=
  match ev_call ev with
  | Get _ _ [] => true
  | _ => false
  end.

Definition detail_requests (t : list event) : list event :=
  filter is_detail t.

(** A harvest fetches only what it returns when it has issued exactly one
    detail request per record of the sequence it returns. *)
Definition fetches_only_what_it_returns {R : Remote}
    (run : outcome (list canvas_obj) * rstate R * list event) : Prop :=
  forall got,
    out_of run = Ret got ->
    length (detail_requests (trace_of run)) = length got.


(** The three listing endpoints of a course. *)
Definition pages_endpoint (base_url course_id : pystr) : pystr :=
  base_url ++ py "/api/v1/courses/" ++ course_id ++ py "/pages".
Definition assignments_endpoint (base_url course_id : pystr) : pystr :=
  base_url ++ py "/api/v1/courses/" ++ course_id ++ py "/assignments".
Definition discussions_endpoint (base_url course_id : pystr) : pystr :=
  base_url ++ py "/api/v1/courses/" ++ course_id ++ py "/discussion_topics".

(** A finite sequence of listing pages: what the remote serves, from state
    [s], when the [next] links are followed from [url] until there is none,
    every response being accepted.  The last component is the state the
    remote is left in. *)
Inductive serves_listing (R : Remote) (hdrs : headers)
    : option pystr -> rstate R -> list (list canvas_obj) -> rstate R -> Prop :=
| listing_ends (url : option pystr) (s : rstate R) :
    truthy_opt url = false ->
    serves_listing R hdrs url s [] s
| listing_goes_on (url : option pystr) (s : rstate R)
    (resp : response (list canvas_obj)) (s1 : rstate R)
    (pages : list (list canvas_obj)) (s2 : rstate R) :
    truthy_opt url = true ->
    serve_list R (or_empty url) hdrs per_page s = (resp, s1) ->
    status_error resp = None ->
    serves_listing R hdrs (next_url resp) s1 pages s2 ->
    serves_listing R hdrs url s (body resp :: pages) s2.

(** The full records behind the entries of one listing page of pages, each
    obtained by its own detail request. *)
Inductive serves_details (R : Remote) (base_url course_id : pystr)
    (hdrs : headers)
    : list canvas_obj -> rstate R -> list canvas_obj -> rstate R -> Prop :=
| details_end (s : rstate R) :
    serves_details R base_url course_id hdrs [] s [] s
| details_go_on (page : canvas_obj) (rest : list canvas_obj)
    (slug : pystr) (s : rstate R) (resp : response canvas_obj)
    (s1 : rstate R) (fulls : list canvas_obj) (s2 : rstate R) :
    o_url page = Some slug ->
    serve_obj R (base_url ++ py "/api/v1/courses/" ++ course_id
                 ++ py "/pages/" ++ slug) hdrs [] s = (resp, s1) ->
    status_error resp = None ->
    serves_details R base_url course_id hdrs rest s1 fulls s2 ->
    serves_details R base_url course_id hdrs (page :: rest) s
                   (body resp :: fulls) s2.

(** A finite sequence of pages of full page records: the listing pages
    followed as above, the entries of each replaced by their details. *)
Inductive serves_pages (R : Remote) (base_url course_id : pystr)
    (hdrs : headers)
    : option pystr -> rstate R -> list (list canvas_obj) -> rstate R -> Prop :=
| pages_end (url : option pystr) (s : rstate R) :
    truthy_opt url = false ->
    serves_pages R base_url course_id hdrs url s [] s
| pages_go_on (url : option pystr) (s : rstate R)
    (resp : response (list canvas_obj)) (s1 : rstate R)
    (fulls : list canvas_obj) (s2 : rstate R)
    (pages : list (list canvas_obj)) (s3 : rstate R) :
    truthy_opt url = true ->
    serve_list R (or_empty url) hdrs per_page s = (resp, s1) ->
    status_error resp = None ->
    serves_details R base_url course_id hdrs (body resp) s1 fulls s2 ->
    serves_pages R base_url course_id hdrs (next_url resp) s2 pages s3 ->
    serves_pages R base_url course_id hdrs url s (fulls :: pages) s3.



(** [s.endswith(suffix)]. *)
Definition ends_with (suffix s : pystr) : bool :=
  starts_with (rev suffix) (rev s).

(** The parameters a request was sent with. *)
Definition params_of (ev : event) : list (pystr * Z) :=
  match ev_call ev with
  | Get _ _ params => params
  | _ => []
  end.

(** A finite sequence of listing pages as [_paginate_canvas] walks it: the
    request for [url] carries [params], every request after it carries
    none. *)
Inductive serves_from (R : Remote) (hdrs : headers)
    : list (pystr * Z) -> option pystr -> rstate R ->
      list (list canvas_obj) -> rstate R -> Prop :=
| from_ends (params : list (pystr * Z)) (url : option pystr)
    (s : rstate R) :
    truthy_opt url = false ->
    serves_from R hdrs params url s [] s
| from_goes_on (params : list (pystr * Z)) (url : option pystr)
    (s : rstate R) (resp : response (list canvas_obj)) (s1 : rstate R)
    (pages : list (list canvas_obj)) (s2 : rstate R) :
    truthy_opt url = true ->
    serve_list R (or_empty url) hdrs params s = (resp, s1) ->
    status_error resp = None ->
    serves_from R hdrs [] (next_url resp) s1 pages s2 ->
    serves_from R hdrs params url s (body resp :: pages) s2.


(** A computation emits only events that satisfy [P] when every entry of
    the trace of every run does. *)
Definition emits {R : Remote} {A : Type} (P : event -> Prop) (m : M R A)
    : Prop :=
  forall s : rstate R, Forall P (trace_of (m s)).

(** A read request sent with the given headers. *)
Definition is_get_with (hdrs : headers) (ev : event) : Prop :=
  match ev_call ev with
  | Get _ h _ => h = hdrs
  | _ => False
  end.

(** An item as the fetch handler creates it: nothing rewritten, not
    approved, no failure recorded. *)
Definition fresh (it : item) : bool :=
  negb (truthy (rewritten_html it))
  && negb (approved it)
  && match rewrite_error it with None => true | Some _ => false end.


(** What the rewrite step is not meant to touch: everything of an item but
    [rewritten_html] and [rewrite_error]. *)
Definition kept_by_rewrite (it : item)
    : kind * Z * option Z * option pystr * pystr * pystr * bool :=
  (type it, id it, canvas_id it, url_slug it, title it, original_html it,
   approved it).

(** [item.get("original_html")] and [item.get("rewritten_html")] as
    conditions. *)
Definition has_content (it : item) : bool := truthy (original_html it).
Definition has_rewrite (it : item) : bool := truthy (rewritten_html it).

(** The transform request for an item. *)
Definition transform_call (cfg : config) (client : ai_client)
    (model_context global_instructions : pystr) (it : item) : call :=
  ChatCreate client (or_empty (setting cfg "OPENAI_MODEL"))
    (build_rewrite_prompt it (Some model_context) global_instructions) 0%Z.

Definition openai_configured (cfg : config) : bool :=
  truthy_opt (setting cfg "OPENAI_BASE_URL")
  && truthy_opt (setting cfg "OPENAI_API_KEY").


(** The fixed text of the payload before the instructions (the rules,
    less the line break they start with, and the first heading) and after
    the item's HTML (the output section, less the blanks that end it). *)
Definition prompt_intro : pystr :=
  tl base_rules ++ nl
  ++ nl
  ++ py "    ### Global instructions from the user" ++ nl
  ++ py "    ".

Definition prompt_outro : pystr :=
  nl
  ++ nl
  ++ py "    ### Output" ++ nl
  ++ py "    Rewrite the HTML above according to the global instructions and style of the model course." ++ nl
  ++ py "    Return ONLY the rewritten HTML.".

(** A request that was accepted. *)
Definition accepted (ev : event) : Prop := ev_error ev = None.


(** ** Further simulated surroundings, for concrete runs *)

Module Samples.

(** A Link header with a current and a next part, and a next part written
    without angle brackets. *)
Definition link_two : pystr :=
  py "<https://canvas.test/x?page=1>; rel=" ++ dquote ++ py "current"
  ++ dquote ++ py ",<https://canvas.test/x?page=2>; rel=" ++ dquote
  ++ py "next" ++ dquote.

Definition link_bare : pystr :=
  py "https://canvas.test/x; rel=" ++ dquote ++ py "next" ++ dquote.

(** A course whose every collection fits on one listing page. *)
Definition one_page : Remote :=
  mkRemote
    (fun _ _ _ (n : nat) => (Demo.ok None [Demo.a1; Demo.a2], S n))
    (fun url _ _ (n : nat) => (Demo.detail url, S n))
    (fun _ _ _ (n : nat) => (Demo.ok None tt, S n))
    (fun _ _ _ _ (n : nat) => (ChatReturns [], S n)).

(** A model deployment that answers every prompt with blanks. *)
Definition blank_model : Remote :=
  mkRemote
    (fun url _ _ (n : nat) => (Demo.listing url, S n))
    (fun url _ _ (n : nat) => (Demo.detail url, S n))
    (fun _ _ _ (n : nat) => (Demo.ok None tt, S n))
    (fun _ _ _ _ (n : nat) => (ChatReturns [Some (py "   "); None], S n)).

(** No setting at all, and the settings of [Demo.cfg] less the name of the
    model deployment. *)
Definition no_cfg : config := mkConfig (fun _ => None) (fun _ => None).

Definition cfg_no_model : config :=
  mkConfig
    (fun k => if String.eqb k "OPENAI_MODEL" then None
              else secrets Demo.cfg k)
    (environ Demo.cfg).

Definition alpha : item :=
  Demo.it_page "alpha" "Alpha" "<p>one</p>" "<p>new</p>" true.
Definition beta : item :=
  Demo.it_page "beta" "Beta" "<p>two</p>" "<p>new</p>" false.
Definition gamma : item :=
  Demo.it_page "gamma" "Gamma" "<p>three</p>" "<p>new</p>" true.
Definition hollow : item := Demo.it_page "delta" "Delta" "" "" false.

Definition loaded (items : list item) : session :=
  mkSession items (py "model") (Some Demo.course) false.

(** The items the fetch handler makes of the three demo objects. *)
Definition fetched (k : kind) (n : Z) (slug name html : string) : item :=
  mkItem k n (Some n)
         (match k with Page => Some (py slug) | _ => None end)
         (py name) (py html) [] false None.

Definition registry (k : kind) : list item :=
  [ fetched k 1 "alpha" "Alpha" "<p>one</p>";
    fetched k 2 "beta" "Beta" "<p>two</p>";
    fetched k 3 "gamma" "Gamma" "<p>three</p>" ].

End Samples.

(* ------------------------------------------------------------------ *)
(** * Properties *)

(** ** Strings *)

Lemma drop_while_app (p : N -> bool) (a b : pystr) :
  drop_while p a <> [] -> drop_while p (a ++ b) = drop_while p a ++ b.
Proof.
  induction a as [|c a IH]; simpl; intros H.
  - now elim H.
  - destruct (p c); [now apply IH | reflexivity].
Qed.

Lemma lstrip_app (a b : pystr) :
  lstrip a <> [] -> lstrip (a ++ b) = lstrip a ++ b.
Proof. apply drop_while_app. Qed.

Lemma rstrip_app (a b : pystr) :
  rstrip b <> [] -> rstrip (a ++ b) = a ++ rstrip b.
Proof.
  unfold rstrip; intros H.
  rewrite rev_app_distr, drop_while_app.
  - now rewrite rev_app_distr, rev_involutive.
  - intros E; apply H; now rewrite E.
Qed.

Lemma rstrip_app_nonempty (a b : pystr) :
  rstrip b <> [] -> rstrip (a ++ b) <> [].
Proof.
  intros H; rewrite rstrip_app by assumption.
  intros E; apply app_eq_nil in E; tauto.
Qed.

Lemma lstrip_app_nonempty (a b : pystr) :
  lstrip a <> [] -> lstrip (a ++ b) <> [].
Proof.
  intros H; rewrite lstrip_app by assumption.
  intros E; apply app_eq_nil in E; tauto.
Qed.

Lemma strip_sandwich (h m t : pystr) :
  lstrip h <> [] -> rstrip t <> [] ->
  strip (h ++ m ++ t) = lstrip h ++ m ++ rstrip t.
Proof.
  intros Hh Ht; unfold strip.
  rewrite lstrip_app by assumption.
  rewrite app_assoc, rstrip_app by assumption.
  now rewrite <- app_assoc.
Qed.

Lemma py_prefix_firstn {A : Type} (n : Z) (l : list A) :
  (0 <= n)%Z -> py_prefix n l = firstn (Z.to_nat n) l.
Proof.
  intros Hn; unfold py_prefix, clamp_index.
  destruct (Z.ltb_spec n 0); [lia|].
  destruct (Z.le_gt_cases n (Z.of_nat (length l))) as [Hle|Hgt].
  - f_equal; lia.
  - replace (Z.to_nat (Z.max 0 (Z.min (Z.of_nat (length l)) n)))
      with (length l) by lia.
    rewrite firstn_all; symmetry; apply firstn_all2; lia.
Qed.

Lemma prompt_head_starts (gi : pystr) : lstrip (prompt_head gi) <> [].
Proof.
  unfold prompt_head.
  rewrite 2!app_assoc.
  apply lstrip_app_nonempty.
  vm_compute; discriminate.
Qed.

Lemma prompt_tail_ends (it : item) : rstrip (prompt_tail it) <> [].
Proof.
  unfold prompt_tail.
  do 15 (apply rstrip_app_nonempty).
  vm_compute; discriminate.
Qed.

(** ** The prompt compiler *)

(** C8 (as amended).  The compiler first strips the corpus of surrounding
    whitespace; it is the stripped corpus that is measured against the
    budget of 12,000 characters.  When the stripped corpus is longer, its
    first 12,000 characters followed by the truncation marker are embedded;
    otherwise the stripped corpus is embedded whole, with no marker.  The cut
    is made before concatenation: the rest of the payload (the text before
    and after the corpus) does not depend on the corpus at all. *)
Theorem build_rewrite_prompt_budget
    (it : item) (corpus global_instructions : pystr) :
  let stripped := strip corpus in
  let kept := firstn (Z.to_nat max_model_chars) stripped in
  build_rewrite_prompt it (Some corpus) global_instructions
  = lstrip (prompt_head global_instructions)
    ++ (if (py_len stripped >? max_model_chars)%Z
        then kept ++ truncation_marker
        else stripped)
    ++ rstrip (prompt_tail it)
  /\ py_len kept = Z.min max_model_chars (py_len stripped).
Proof.
  intros stripped kept; split.
  - unfold build_rewrite_prompt, bounded_model_context.
    rewrite strip_sandwich
      by (apply prompt_head_starts || apply prompt_tail_ends).
    simpl or_empty; fold stripped.
    rewrite py_prefix_firstn by (unfold max_model_chars; lia).
    reflexivity.
  - unfold kept, py_len, max_model_chars. rewrite length_firstn. lia.
Qed.

(** C8 (as stated) fails: a corpus of 12,001 blanks exceeds the budget, yet
    no marker is appended and nothing of the corpus is embedded; and a short
    corpus with surrounding blanks is not embedded in full. *)
Lemma build_rewrite_prompt_budget_counterexample :
  let it := Demo.it_page "alpha" "Alpha" "<p>one</p>" "" false in
  let blanks := repeat 32%N (Z.to_nat 12001) in
  (py_len blanks >? max_model_chars)%Z = true
  /\ contains truncation_marker (build_rewrite_prompt it (Some blanks) [])
     = false
  /\ build_rewrite_prompt it (Some blanks) []
     = build_rewrite_prompt it (Some []) []
  /\ (py_len (py " ctx ") <=? max_model_chars)%Z = true
  /\ contains (py " ctx ") (build_rewrite_prompt it (Some (py " ctx ")) [])
     = false.
Proof. vm_compute. repeat split. Qed.

(** ** Approvals *)

(** C9.  Approving all rewritten items twice is the same as doing it once;
    one call sets [approved] exactly on the items whose [rewritten_html] is
    non-empty, keeps the flag of every other item, and touches no other
    field of any item. *)
Theorem approve_all_rewritten_idempotent (items : list item) :
  approve_all_rewritten (approve_all_rewritten items)
  = approve_all_rewritten items
  /\ map approved (approve_all_rewritten items)
     = map (fun it => if truthy (rewritten_html it) then true
                      else approved it) items
  /\ map (set_approved false) (approve_all_rewritten items)
     = map (set_approved false) items.
Proof.
  unfold approve_all_rewritten; repeat split.
  - rewrite map_map; apply map_ext; intros it.
    destruct (truthy (rewritten_html it)) eqn:E; simpl; now rewrite E.
  - rewrite map_map; apply map_ext; intros it.
    now destruct (truthy (rewritten_html it)).
  - rewrite map_map; apply map_ext; intros it.
    now destruct (truthy (rewritten_html it)).
Qed.

(** ** The effect monad *)

Lemma bind_ext {R : Remote} {A B : Type} (m : M R A) (k1 k2 : A -> M R B)
    (s : rstate R) :
  (forall a s', k1 a s' = k2 a s') -> bind m k1 s = bind m k2 s.
Proof.
  intros H; unfold bind.
  destruct (m s) as [[[a| | |] s1] t1]; try reflexivity.
  now rewrite H.
Qed.

Lemma bind_ret {R : Remote} {A B : Type} (a : A) (k : A -> M R B)
    (s : rstate R) :
  bind (ret a) k s = k a s.
Proof. unfold bind, ret. now destruct (k a s) as [[o s2] t2]. Qed.

Lemma bind_raise {R : Remote} {A B : Type} (msg : pystr) (k : A -> M R B)
    (s : rstate R) :
  bind (raise msg) k s = (Raise msg, s, []).
Proof. reflexivity. Qed.

Lemma out_of_triple {R : Remote} {A : Type} (o : outcome A)
    (s : rstate R) (t : list event) : out_of (o, s, t) = o.
Proof. reflexivity. Qed.

Lemma state_of_triple {R : Remote} {A : Type} (o : outcome A)
    (s : rstate R) (t : list event) : state_of (o, s, t) = s.
Proof. reflexivity. Qed.

Lemma trace_of_triple {R : Remote} {A : Type} (o : outcome A)
    (s : rstate R) (t : list event) : trace_of (o, s, t) = t.
Proof. reflexivity. Qed.

(** ** Harvest: a cap of zero *)

Section ZeroCap.
Variable R : Remote.

Lemma pages_details_zero_cap base_url course_id hdrs listing :
  forall items s,
    pages_details R base_url course_id hdrs (Some 0%Z) listing items s
    = pages_details R base_url course_id hdrs None listing items s.
Proof.
  induction listing as [|page rest IH]; intros items s; simpl.
  - reflexivity.
  - repeat (apply bind_ext; intros).
    apply IH.
Qed.

Lemma pages_loop_zero_cap base_url course_id hdrs fuel :
  forall url items s,
    pages_loop R fuel base_url course_id hdrs (Some 0%Z) url items s
    = pages_loop R fuel base_url course_id hdrs None url items s.
Proof.
  induction fuel as [|fuel IH]; intros url items s; simpl.
  - reflexivity.
  - destruct (truthy_opt url); [|reflexivity].
    do 2 (apply bind_ext; intros).
    unfold bind. rewrite pages_details_zero_cap.
    destruct (pages_details _ _ _ _ _ _ _ _) as [[[[[] r]| | |] s1] t1];
      simpl; try reflexivity.
    now rewrite IH.
Qed.

Lemma listing_loop_zero_cap hdrs fuel :
  forall url items s,
    listing_loop R fuel hdrs (Some 0%Z) url items s
    = listing_loop R fuel hdrs None url items s.
Proof.
  induction fuel as [|fuel IH]; intros url items s; simpl.
  - reflexivity.
  - destruct (truthy_opt url); [|reflexivity].
    do 2 (apply bind_ext; intros).
    apply IH.
Qed.

End ZeroCap.

(** ** Harvest: all or nothing *)

Section AllOrNothing.
Variable R : Remote.

Lemma aborts_ret {A : Type} (a : A) : aborts_on_refusal (@ret R A a).
Proof. intros s ev msg []. Qed.

Lemma aborts_raise {A : Type} (e : pystr) : aborts_on_refusal (@raise R A e).
Proof. intros s ev msg []. Qed.

Lemma aborts_stop {A : Type} : aborts_on_refusal (@stop R A).
Proof. intros s ev msg []. Qed.

Lemma aborts_out_of_fuel {A : Type} : aborts_on_refusal (@out_of_fuel R A).
Proof. intros s ev msg []. Qed.

Lemma aborts_bind {A B : Type} (m : M R A) (k : A -> M R B) :
  aborts_on_refusal m -> (forall a, aborts_on_refusal (k a)) ->
  aborts_on_refusal (bind m k).
Proof.
  intros Hm Hk s ev msg; specialize (Hm s ev msg).
  unfold bind, out_of, trace_of in *.
  destruct (m s) as [[o s1] t1].
  destruct o as [a| | |]; simpl in *;
    try (intros Hin Herr; specialize (Hm Hin Herr); now inversion Hm).
  specialize (Hk a s1 ev msg); unfold out_of, trace_of in Hk.
  destruct (k a s1) as [[o2 s2] t2]; simpl in *.
  intros Hin Herr; apply in_app_or in Hin as [Hin|Hin].
  - now discriminate (Hm Hin Herr).
  - now apply Hk.
Qed.

Lemma aborts_getitem {A : Type} (k : string) (v : option A) :
  aborts_on_refusal (@getitem R A k v).
Proof. destruct v; [apply aborts_ret | apply aborts_raise]. Qed.

(** A request followed at once by [raise_for_status]. *)
Lemma aborts_checked_list {A : Type} url hdrs params
    (k : response (list canvas_obj) -> M R A) :
  (forall resp, aborts_on_refusal (k resp)) ->
  aborts_on_refusal
    (resp <- requests_get_list url hdrs params ;;
     raise_for_status resp ;;; k resp).
Proof.
  intros Hk s ev msg.
  unfold bind, requests_get_list, raise_for_status, out_of, trace_of.
  destruct (serve_list R url hdrs params s) as [resp s1].
  destruct (status_error resp) as [e|] eqn:E; simpl.
  - intros [<-|[]]; simpl; congruence.
  - specialize (Hk resp s1 ev msg); unfold out_of, trace_of in Hk.
    destruct (k resp s1) as [[o2 s2] t2]; simpl in *.
    intros [<-|Hin]; simpl; [congruence | auto].
Qed.

Lemma aborts_checked_obj {A : Type} url hdrs params
    (k : response canvas_obj -> M R A) :
  (forall resp, aborts_on_refusal (k resp)) ->
  aborts_on_refusal
    (resp <- requests_get_obj url hdrs params ;;
     raise_for_status resp ;;; k resp).
Proof.
  intros Hk s ev msg.
  unfold bind, requests_get_obj, raise_for_status, out_of, trace_of.
  destruct (serve_obj R url hdrs params s) as [resp s1].
  destruct (status_error resp) as [e|] eqn:E; simpl.
  - intros [<-|[]]; simpl; congruence.
  - specialize (Hk resp s1 ev msg); unfold out_of, trace_of in Hk.
    destruct (k resp s1) as [[o2 s2] t2]; simpl in *.
    intros [<-|Hin]; simpl; [congruence | auto].
Qed.

Lemma aborts_get_course base_url token course_id :
  aborts_on_refusal (@get_course R base_url token course_id).
Proof.
  unfold get_course. apply aborts_checked_obj; intros; apply aborts_ret.
Qed.

Lemma aborts_pages_details base_url course_id hdrs max_items listing :
  forall items,
    aborts_on_refusal
      (pages_details R base_url course_id hdrs max_items listing items).
Proof.
  induction listing as [|page rest IH]; intros items; simpl.
  - apply aborts_ret.
  - apply aborts_bind; [apply aborts_getitem | intros slug].
    apply aborts_checked_obj; intros resp.
    destruct (cap_reached _ _); [apply aborts_ret | apply IH].
Qed.

Lemma aborts_pages_loop base_url course_id hdrs max_items fuel :
  forall url items,
    aborts_on_refusal
      (pages_loop R fuel base_url course_id hdrs max_items url items).
Proof.
  induction fuel as [|fuel IH]; intros url items; simpl;
    destruct (truthy_opt url);
    try apply aborts_ret; try apply aborts_out_of_fuel.
  apply aborts_checked_list; intros resp.
  apply aborts_bind; [apply aborts_pages_details | intros [returned got]].
  simpl; destruct returned; [apply aborts_ret | apply IH].
Qed.

Lemma aborts_listing_loop hdrs max_items fuel :
  forall url items,
    aborts_on_refusal (listing_loop R fuel hdrs max_items url items).
Proof.
  induction fuel as [|fuel IH]; intros url items; simpl;
    destruct (truthy_opt url);
    try apply aborts_ret; try apply aborts_out_of_fuel.
  apply aborts_checked_list; intros resp.
  destruct (cap_reached _ _); [apply aborts_ret | apply IH].
Qed.

Lemma aborts_map_m {A B : Type} (f : A -> M R B) (l : list A) :
  (forall a, aborts_on_refusal (f a)) -> aborts_on_refusal (map_m f l).
Proof.
  intros Hf; induction l as [|a l IH]; simpl.
  - apply aborts_ret.
  - apply aborts_bind; [apply Hf | intros b].
    apply aborts_bind; [apply IH | intros bs; apply aborts_ret].
Qed.

Lemma aborts_page_item p : aborts_on_refusal (@page_item R p).
Proof.
  unfold page_item.
  repeat (apply aborts_bind; [apply aborts_getitem | intros]).
  apply aborts_ret.
Qed.

Lemma aborts_assignment_item a : aborts_on_refusal (@assignment_item R a).
Proof.
  unfold assignment_item.
  repeat (apply aborts_bind; [apply aborts_getitem | intros]).
  apply aborts_ret.
Qed.

Lemma aborts_discussion_item d : aborts_on_refusal (@discussion_item R d).
Proof.
  unfold discussion_item.
  repeat (apply aborts_bind; [apply aborts_getitem | intros]).
  apply aborts_ret.
Qed.

Lemma aborts_harvest_course fuel base_url token target sess :
  aborts_on_refusal (harvest_course R fuel base_url token target sess).
Proof.
  unfold harvest_course.
  apply aborts_bind; [apply aborts_get_course | intros _].
  apply aborts_bind; [apply aborts_pages_loop | intros pages].
  apply aborts_bind; [apply aborts_listing_loop | intros assignments].
  apply aborts_bind; [apply aborts_listing_loop | intros discussions].
  apply aborts_bind; [apply aborts_map_m, aborts_page_item | intros ps].
  apply aborts_bind;
    [apply aborts_map_m, aborts_assignment_item | intros asg].
  apply aborts_bind;
    [apply aborts_map_m, aborts_discussion_item | intros ds].
  apply aborts_ret.
Qed.

Lemma fetch_keeps_session fuel cfg target_course_id :
  keeps_session_on_refusal
    (fetch_course_content R fuel cfg target_course_id).
Proof.
  intros sess s ev msg.
  unfold fetch_course_content.
  destruct (truthy target_course_id); simpl; [|intros []].
  unfold run_block, run_trace, run_session, run_outcome, bind,
    get_canvas_config.
  destruct (negb _ || negb _); [intros []|].
  unfold ret, try_except; cbv beta iota; cbn [fst snd].
  match goal with
  | |- context [harvest_course R fuel ?b ?t ?c sess s] =>
      pose proof (@aborts_harvest_course fuel b t c sess s ev msg) as Hm;
      unfold out_of, trace_of in Hm;
      destruct (harvest_course R fuel b t c sess s) as [[o s1] t1]
  end.
  destruct o as [[sess' n]| e | |]; simpl in *; intros Hin Herr;
    try (rewrite app_nil_r in Hin);
    specialize (Hm Hin Herr); try discriminate.
  injection Hm as ->. now split.
Qed.

(** C7.  A refused listing or detail request aborts the harvest helper with
    that error (the helper returns no sequence, partial or not), and the
    fetch handler that drives the helpers then leaves the session, and so
    its course snapshot, exactly as it was. *)
Theorem harvest_all_or_nothing
    (fuel : nat) (cfg : config) (base_url token course_id : pystr)
    (max_items : option Z) :
  aborts_on_refusal (get_pages R fuel base_url token course_id max_items)
  /\ aborts_on_refusal
       (get_assignments R fuel base_url token course_id max_items)
  /\ aborts_on_refusal
       (get_discussions R fuel base_url token course_id max_items)
  /\ keeps_session_on_refusal (fetch_course_content R fuel cfg course_id).
Proof.
  split; [|split; [|split]].
  - apply aborts_pages_loop.
  - apply aborts_listing_loop.
  - apply aborts_listing_loop.
  - apply fetch_keeps_session.
Qed.

End AllOrNothing.

(** ** The rewrite-all loop *)

Section RewriteAll.
Variable R : Remote.
Variable cfg : config.
Variable client : ai_client.
Variables model_context global_instructions : pystr.

Hypothesis model_configured :
  truthy_opt (setting cfg "OPENAI_MODEL") = true.

Local Abbreviation loop := (rewrite_loop R cfg client model_context
                          global_instructions).
Local Abbreviation before := (state_before R cfg client model_context
                            global_instructions).
Local Abbreviation reply := (reply_for R cfg client model_context
                           global_instructions).

(** With the deployment name configured, the body of the loop always hands
    the item back: whatever the transform call does is folded into it. *)
Lemma rewrite_one_run (it : item) (s : rstate R) :
  exists s' t,
    rewrite_one R cfg client model_context global_instructions it s
    = (Ret (after_reply it (reply it s)), s', t)
    /\ (truthy (original_html it) = false -> s' = s /\ t = [])
    /\ (truthy (original_html it) = true -> length t = 1).
Proof.
  unfold rewrite_one, after_reply, reply_for, try_except, rewrite_item.
  destruct (truthy (original_html it)) eqn:Horig.
  - rewrite model_configured; simpl negb; cbv iota.
    unfold bind, chat_completions_create.
    destruct (serve_chat R client _ _ 0%Z s) as [[msg|choices] s1]; simpl.
    + eexists _, _; repeat split; try discriminate; reflexivity.
    + destruct choices as [|content rest]; simpl;
        eexists _, _; repeat split; try discriminate; reflexivity.
  - simpl. eexists _, _; repeat split; reflexivity || discriminate.
Qed.

Lemma rewrite_loop_cons (it : item) (rest : list item) (s : rstate R) :
  exists s1 t1,
    rewrite_one R cfg client model_context global_instructions it s
    = (Ret (after_reply it (reply it s)), s1, t1)
    /\ loop (it :: rest) s
       = (after_reply it (reply it s) :: loop_items (loop rest s1),
          loop_outcome (loop rest s1), loop_state (loop rest s1),
          t1 ++ loop_trace (loop rest s1)).
Proof.
  destruct (rewrite_one_run it s) as (s1 & t1 & E & _).
  exists s1, t1; split; [exact E|].
  simpl; rewrite E.
  now destruct (loop rest s1) as [[[items' o] s2] t2].
Qed.


(** Position by position: the item left at [j] is the item found at [j],
    updated by the answer given in the state the loop had reached. *)
Lemma rewrite_loop_nth (items : list item) :
  forall s j it,
    nth_error items j = Some it ->
    nth_error (loop_items (loop items s)) j
    = Some (after_reply it (reply it (before items j s))).
Proof.
  induction items as [|it0 rest IH]; intros s j it Hj.
  - now destruct j.
  - destruct (rewrite_loop_cons it0 rest s) as (s1 & t1 & E1 & E).
    rewrite E; unfold loop_items at 1; simpl fst.
    destruct j as [|j]; simpl in Hj.
    + injection Hj as ->. reflexivity.
    + simpl nth_error. rewrite (IH s1 j it Hj).
      do 3 f_equal.
      unfold state_before; simpl firstn.
      destruct (rewrite_loop_cons it0 (firstn j rest) s)
        as (s1' & t1' & E1' & ->).
      rewrite E1 in E1'; injection E1' as <- <-.
      reflexivity.
Qed.



(** C4 (as amended).  When the transform call for an item with content
    succeeds, the loop sets the item's [rewritten_html] to the trimmed
    result and changes nothing else: [rewrite_error] keeps whatever it held
    before, so an earlier failure message stays on the item. *)
Theorem successful_rewrite_sets_html_only
    (items : list item) (s : rstate R) (j : nat) (it : item)
    (content : option pystr) (others : list (option pystr)) :
  nth_error items j = Some it ->
  truthy (original_html it) = true ->
  reply it (before items j s) = ChatReturns (content :: others) ->
  exists it',
    nth_error (loop_items (loop items s)) j = Some it'
    /\ it' = set_rewritten_html (strip (or_empty content)) it
    /\ rewritten_html it' = strip (or_empty content)
    /\ rewrite_error it' = rewrite_error it.
Proof.
  intros Hj Horig Hok.
  eexists; split; [|repeat split].
  rewrite (rewrite_loop_nth items s j Hj), Hok.
  unfold after_reply; now rewrite Horig.
Qed.

End RewriteAll.

(** ** Write-back *)

Section WriteBack.
Variable R : Remote.
Variables base_url token course : pystr.

Local Abbreviation put_of := (put_call_of base_url token course).

Lemma checked_put_run url hdrs json (s : rstate R) :
  exists resp s1,
    serve_put R url hdrs json s = (resp, s1)
    /\ (resp' <- requests_put url hdrs json ;; raise_for_status resp') s
       = (match status_error resp with
          | Some msg => Raise msg
          | None => Ret tt
          end, s1, [mkEvent (Put url hdrs json) (status_error resp)]).
Proof.
  unfold bind, requests_put, raise_for_status.
  destruct (serve_put R url hdrs json s) as [resp s1].
  exists resp, s1; split; [reflexivity|].
  now destruct (status_error resp).
Qed.

(** One attempt ends with a value or with an exception, and sends exactly
    the item's request, if the item has one. *)
Lemma write_item_run (it : item) (s : rstate R) :
  let r := write_item R base_url token course it s in
  (out_of r = Ret tt \/ exists msg, out_of r = Raise msg)
  /\ map ev_call (trace_of r) = opt_list (put_of it)
  /\ (forall k, missing_identifier it = Some k ->
      r = (Raise (quoted k), s, [])).
Proof.
  unfold write_item, put_call_of, missing_identifier,
    update_page_html, update_assignment_html, update_discussion_html.
  destruct (type it);
    [destruct (url_slug it) as [v|] | destruct (canvas_id it) as [v|] ..];
    cbn [getitem option_map opt_list];
    rewrite ?bind_ret, ?bind_raise;
    try (unfold out_of, trace_of; cbn [fst snd map];
         repeat split; [right; eauto | intros k [= <-]; reflexivity]);
    match goal with
    | |- context [requests_put ?u ?h ?j] =>
        destruct (checked_put_run u h j s) as (resp & s1 & _ & ->)
    end;
    unfold out_of, trace_of; cbn [fst snd map ev_call app];
    (repeat split; try discriminate);
    destruct (status_error resp); eauto.
Qed.

(** One turn of the loop: the attempt's failure, if any, is appended to the
    list and the loop goes on with the rest. *)
Lemma write_loop_cons (it : item) (rest : list item)
    (errors : list (pystr * pystr)) (s : rstate R) :
  let r := write_item R base_url token course it s in
  let after := write_loop R base_url token course rest
                 (errors ++ failures [(it, failure_of (out_of r))])
                 (state_of r) in
  write_loop R base_url token course (it :: rest) errors s
  = (out_of after, state_of after, trace_of r ++ trace_of after).
Proof.
  cbv zeta.
  destruct (write_item_run it s) as (Hout & _ & _); cbv zeta in Hout.
  simpl write_loop. unfold bind, try_except, ret, failures.
  destruct (write_item R base_url token course it s) as [[o s1] t1].
  unfold out_of, state_of, trace_of in *; cbn [fst snd] in *.
  destruct Hout as [->|[msg ->]]; cbn [failure_of flat_map fst snd app].
  - rewrite !app_nil_r.
    now destruct (write_loop R base_url token course rest errors s1)
      as [[o2 s2] t2].
  - rewrite !app_nil_r.
    now destruct (write_loop R base_url token course rest
                    (errors ++ [(title it, msg)]) s1) as [[o2 s2] t2].
Qed.

(** The whole loop: it returns, the list it returns is the earlier entries
    followed by the failures of the attempts, in order, and it has sent the
    request of every item. *)
Lemma write_loop_run (items : list item) :
  forall errors s,
    let r := write_loop R base_url token course items errors s in
    out_of r
    = Ret (errors
           ++ failures (attempt_each R base_url token course items s))
    /\ map ev_call (trace_of r) = requests_for base_url token course items.
Proof.
  induction items as [|it rest IH]; intros errors s.
  - simpl; now rewrite app_nil_r.
  - cbv zeta. rewrite write_loop_cons.
    destruct (write_item_run it s) as (_ & Hcalls & _).
    cbv zeta in Hcalls.
    specialize (IH (errors
                    ++ failures
                         [(it, failure_of
                                 (out_of (write_item R base_url token
                                            course it s)))])
                   (state_of (write_item R base_url token course it s))).
    cbv zeta in IH; destruct IH as [-> Hrest].
    unfold out_of at 1, trace_of at 1; simpl fst; simpl snd.
    split.
    + rewrite <- app_assoc. f_equal. f_equal.
      simpl attempt_each. unfold failures; simpl flat_map.
      now rewrite app_nil_r.
    + unfold trace_of at 1; cbn [snd].
      rewrite map_app, Hcalls, Hrest. reflexivity.
Qed.

Lemma attempt_each_items (items : list item) :
  forall s,
    map fst (attempt_each R base_url token course items s) = items.
Proof.
  induction items as [|it rest IH]; intros s; simpl; [|rewrite IH];
    reflexivity.
Qed.

Lemma failures_titles (attempts : list (item * option pystr)) ttl msg :
  In (ttl, msg) (failures attempts) ->
  exists it, In it (map fst attempts) /\ title it = ttl.
Proof.
  unfold failures; rewrite in_flat_map.
  intros ([it [m|]] & Hin & Hentry); simpl in Hentry;
    [destruct Hentry as [[= <- <-]|[]] | destruct Hentry].
  exists it; split; [|reflexivity].
  now apply (in_map fst) in Hin.
Qed.

Lemma requests_for_in (items : list item) (c : call) :
  In c (requests_for base_url token course items) ->
  exists it, In it items /\ put_of it = Some c.
Proof.
  unfold requests_for; rewrite in_flat_map.
  intros (it & Hin & Hc); exists it; split; [exact Hin|].
  destruct (put_of it); simpl in Hc;
    [destruct Hc as [->|[]]; reflexivity | destruct Hc].
Qed.

(** C6 (as amended).  A selected item that lacks the identifier its type
    needs is handled like any other failed update: the lookup failure is
    caught inside the loop, the entry (title, name of the missing key) is
    appended to the failure list, no request is sent for it, and the loop
    goes on with the next item. *)
Theorem missing_identifier_is_recorded
    (it : item) (rest : list item) (errors : list (pystr * pystr))
    (s : rstate R) (k : string) :
  missing_identifier it = Some k ->
  write_loop R base_url token course (it :: rest) errors s
  = write_loop R base_url token course rest
      (errors ++ [(title it, quoted k)]) s.
Proof.
  intros Hk.
  rewrite write_loop_cons.
  destruct (write_item_run it s) as (_ & _ & Hmiss).
  cbv zeta in Hmiss; rewrite (Hmiss k Hk).
  unfold out_of, state_of, trace_of, failures; simpl.
  now destruct (write_loop R base_url token course rest
                  (errors ++ [(title it, quoted k)]) s) as [[o2 s2] t2].
Qed.

End WriteBack.

Section Commit.
Variable R : Remote.
Variable cfg : config.

Local Abbreviation commit := (write_approved_changes R cfg).

(** The run of the handler once a course is loaded and Canvas is
    configured. *)
Lemma write_approved_changes_run (sess : session) (s : rstate R) :
  truthy_opt (course_id sess) = true ->
  canvas_configured cfg = true ->
  run_session (commit sess s) = sess
  /\ run_outcome (commit sess s)
     = Ret (report (approved_items sess)
              (failures
                 (attempt_each R (canvas_base cfg) (canvas_token cfg)
                    (or_empty (course_id sess)) (approved_items sess) s)))
  /\ map ev_call (run_trace (commit sess s))
     = requests_for (canvas_base cfg) (canvas_token cfg)
         (or_empty (course_id sess)) (approved_items sess).
Proof.
  intros Hcourse Hcfg.
  unfold canvas_configured in Hcfg.
  apply andb_prop in Hcfg as [Hb Ht].
  unfold write_approved_changes, run_block, get_canvas_config.
  rewrite Hcourse, Hb, Ht; cbn [negb orb].
  rewrite bind_ret; cbn [fst snd].
  fold (canvas_base cfg) (canvas_token cfg).
  destruct (approved_items sess) as [|it rest] eqn:Hsel.
  - now repeat split.
  - destruct (write_loop_run R (canvas_base cfg) (canvas_token cfg)
                (or_empty (course_id sess)) (it :: rest) [] s)
      as [Hout Hcalls].
    cbv zeta in Hout, Hcalls.
    unfold bind.
    destruct (write_loop R (canvas_base cfg) (canvas_token cfg)
                (or_empty (course_id sess)) (it :: rest) [] s)
      as [[o s1] t1].
    unfold out_of, trace_of in *; cbn [fst snd] in *; subst o.
    cbn [app].
    destruct (failures _) as [|e errs];
      unfold ret, run_session, run_outcome, run_trace; cbn [fst snd];
      rewrite app_nil_r; now repeat split.
Qed.

(** Without a loaded course or without the Canvas settings the handler
    sends nothing and reports no failure list. *)
Lemma write_approved_changes_idle (sess : session) (s : rstate R) :
  truthy_opt (course_id sess) && canvas_configured cfg = false ->
  run_session (commit sess s) = sess
  /\ run_trace (commit sess s) = []
  /\ forall errors, run_outcome (commit sess s) <> Ret (SomeFailed errors).
Proof.
  intros H.
  unfold write_approved_changes, run_block, get_canvas_config.
  destruct (truthy_opt (course_id sess)); cbn [negb andb] in *.
  - unfold canvas_configured in H.
    rewrite <- negb_andb, H; cbn [negb].
    now repeat split.
  - now repeat split.
Qed.

Lemma approved_items_spec (sess : session) (it : item) :
  In it (approved_items sess)
  <-> In it (content_items sess)
      /\ approved it = true /\ rewritten_html it <> [].
Proof.
  unfold approved_items, selected; rewrite filter_In, andb_true_iff.
  destruct (rewritten_html it); simpl; intuition congruence.
Qed.

(** C2.  The write-back selects exactly the items that are approved and
    have a non-empty [rewritten_html].  Every request the handler sends is
    the update of a selected item, and every entry of the failure list it
    reports carries the title of a selected item: an item outside the
    selection (an approved item with an empty [rewritten_html] included) is
    neither sent nor reported. *)
Theorem write_back_selection (sess : session) (s : rstate R) :
  (forall it,
     In it (approved_items sess)
     <-> In it (content_items sess)
         /\ approved it = true /\ rewritten_html it <> [])
  /\ (forall ev,
        In ev (run_trace (commit sess s)) ->
        exists it,
          In it (approved_items sess)
          /\ put_call_of (canvas_base cfg) (canvas_token cfg)
               (or_empty (course_id sess)) it = Some (ev_call ev))
  /\ (forall errors ttl msg,
        run_outcome (commit sess s) = Ret (SomeFailed errors) ->
        In (ttl, msg) errors ->
        exists it, In it (approved_items sess) /\ title it = ttl).
Proof.
  split; [apply approved_items_spec|].
  destruct (truthy_opt (course_id sess) && canvas_configured cfg) eqn:Hgo.
  - apply andb_prop in Hgo as [Hcourse Hcfg].
    destruct (write_approved_changes_run sess s Hcourse Hcfg)
      as (_ & Hout & Hcalls).
    split.
    + intros ev Hin.
      apply (in_map ev_call) in Hin; rewrite Hcalls in Hin.
      now apply requests_for_in.
    + intros errors ttl msg Herr Hin.
      rewrite Hout in Herr.
      assert (Hfail : failures
                        (attempt_each R (canvas_base cfg) (canvas_token cfg)
                           (or_empty (course_id sess))
                           (approved_items sess) s) = errors).
      { destruct (approved_items sess); [discriminate|].
        unfold report in Herr. destruct (failures _); congruence. }
      rewrite <- Hfail in Hin.
      apply failures_titles in Hin.
      now rewrite attempt_each_items in Hin.
  - destruct (write_approved_changes_idle sess s Hgo) as (_ & Ht & Hno).
    split.
    + rewrite Ht; intros ev [].
    + intros errors ttl msg Herr; now elim (Hno errors).
Qed.

(** C3.  With a course loaded and Canvas configured, the write-back
    attempts every selected item, in order and whatever the earlier attempts
    did; the failure list it ends with holds one (title, message) entry for
    each attempt that failed and nothing else, and it is what the handler
    reports (an empty list is reported as full success).  The session is
    left untouched, so the failed items are still approved with their
    [rewritten_html], and running the handler again sends the very same
    requests. *)
Theorem write_back_continues_on_error (sess : session) (s : rstate R) :
  truthy_opt (course_id sess) = true ->
  canvas_configured cfg = true ->
  let base_url := canvas_base cfg in
  let token := canvas_token cfg in
  let course := or_empty (course_id sess) in
  let attempts :=
    attempt_each R base_url token course (approved_items sess) s in
  map fst attempts = approved_items sess
  /\ map ev_call (run_trace (commit sess s))
     = requests_for base_url token course (approved_items sess)
  /\ run_outcome (commit sess s)
     = Ret (report (approved_items sess) (failures attempts))
  /\ run_session (commit sess s) = sess
  /\ map ev_call
       (run_trace (commit (run_session (commit sess s))
                          (run_state (commit sess s))))
     = map ev_call (run_trace (commit sess s)).
Proof.
  intros Hcourse Hcfg base_url token course attempts.
  destruct (write_approved_changes_run sess s Hcourse Hcfg)
    as (Hsess & Hout & Hcalls).
  split; [apply attempt_each_items|].
  split; [exact Hcalls|].
  split; [exact Hout|].
  split; [exact Hsess|].
  rewrite Hsess.
  destruct (write_approved_changes_run sess (run_state (commit sess s))
              Hcourse Hcfg) as (_ & _ & Hcalls').
  now rewrite Hcalls', Hcalls.
Qed.

End Commit.

(** ** Harvest: the cap *)

Section Cap.
Variable R : Remote.
Variables base_url course_id : pystr.
Variable hdrs : headers.

(** One turn of the listing loop of [get_assignments] and
    [get_discussions]. *)
Lemma listing_loop_step fuel max_items url items (s : rstate R) :
  truthy_opt url = true ->
  listing_loop R (S fuel) hdrs max_items url items s
  = let resp := fst (serve_list R (or_empty url) hdrs per_page s) in
    let s1 := snd (serve_list R (or_empty url) hdrs per_page s) in
    let ev := mkEvent (Get (or_empty url) hdrs per_page)
                      (status_error resp) in
    match status_error resp with
    | Some e => (Raise e, s1, [ev])
    | None =>
        if cap_reached max_items (items ++ body resp)
        then (Ret (slice_to_cap max_items (items ++ body resp)), s1, [ev])
        else
          let r := listing_loop R fuel hdrs max_items (next_url resp)
                     (items ++ body resp) s1 in
          (out_of r, state_of r, ev :: trace_of r)
    end.
Proof.
  intros Hurl; simpl; rewrite Hurl.
  unfold bind at 1, requests_get_list.
  destruct (serve_list R (or_empty url) hdrs per_page s) as [resp s1].
  cbn [fst snd]; unfold raise_for_status.
  destruct (status_error resp) as [e|]; [reflexivity|].
  rewrite bind_ret.
  destruct (cap_reached max_items (items ++ body resp)); [reflexivity|].
  now destruct (listing_loop R fuel hdrs max_items (next_url resp)
                  (items ++ body resp) s1) as [[o s2] t2].
Qed.

Lemma listing_loop_done fuel max_items url items (s : rstate R) :
  truthy_opt url = false ->
  listing_loop R fuel hdrs max_items url items s = (Ret items, s, []).
Proof. intros Hurl; destruct fuel; simpl; now rewrite Hurl. Qed.

(** One turn of the detail loop of [get_pages]. *)
Lemma pages_details_step max_items page rest items (s : rstate R) :
  pages_details R base_url course_id hdrs max_items (page :: rest) items s
  = match o_url page with
    | None => (Raise (quoted "url"), s, [])
    | Some slug =>
        let url := base_url ++ py "/api/v1/courses/" ++ course_id
                   ++ py "/pages/" ++ slug in
        let resp := fst (serve_obj R url hdrs [] s) in
        let s1 := snd (serve_obj R url hdrs [] s) in
        let ev := mkEvent (Get url hdrs []) (status_error resp) in
        match status_error resp with
        | Some e => (Raise e, s1, [ev])
        | None =>
            if cap_reached max_items (items ++ [body resp])
            then (Ret (true, items ++ [body resp]), s1, [ev])
            else
              let r := pages_details R base_url course_id hdrs max_items
                         rest (items ++ [body resp]) s1 in
              (out_of r, state_of r, ev :: trace_of r)
        end
    end.
Proof.
  simpl pages_details.
  destruct (o_url page) as [slug|]; cbn [getitem];
    rewrite ?bind_ret, ?bind_raise; [|reflexivity].
  unfold bind at 1, requests_get_obj.
  destruct (serve_obj R _ hdrs [] s) as [resp s1].
  cbn [fst snd]; unfold raise_for_status.
  destruct (status_error resp) as [e|]; [reflexivity|].
  rewrite bind_ret.
  destruct (cap_reached max_items (items ++ [body resp])); [reflexivity|].
  now destruct (pages_details R base_url course_id hdrs max_items rest
                  (items ++ [body resp]) s1) as [[o s2] t2].
Qed.

(** One turn of the listing loop of [get_pages]. *)
Lemma pages_loop_step fuel max_items url items (s : rstate R) :
  truthy_opt url = true ->
  pages_loop R (S fuel) base_url course_id hdrs max_items url items s
  = let resp := fst (serve_list R (or_empty url) hdrs per_page s) in
    let s1 := snd (serve_list R (or_empty url) hdrs per_page s) in
    let ev := mkEvent (Get (or_empty url) hdrs per_page)
                      (status_error resp) in
    match status_error resp with
    | Some e => (Raise e, s1, [ev])
    | None =>
        let d := pages_details R base_url course_id hdrs max_items
                   (body resp) items s1 in
        match out_of d with
        | Ret (true, got) => (Ret got, state_of d, ev :: trace_of d)
        | Ret (false, got) =>
            let r := pages_loop R fuel base_url course_id hdrs max_items
                       (next_url resp) got (state_of d) in
            (out_of r, state_of r, ev :: trace_of d ++ trace_of r)
        | Raise e => (Raise e, state_of d, ev :: trace_of d)
        | Stop => (Stop, state_of d, ev :: trace_of d)
        | OutOfFuel => (OutOfFuel, state_of d, ev :: trace_of d)
        end
    end.
Proof.
  intros Hurl; simpl pages_loop; rewrite Hurl.
  unfold bind at 1, requests_get_list.
  destruct (serve_list R (or_empty url) hdrs per_page s) as [resp s1].
  cbn [fst snd]; unfold raise_for_status.
  destruct (status_error resp) as [e|]; [reflexivity|].
  rewrite bind_ret. unfold bind at 1.
  destruct (pages_details R base_url course_id hdrs max_items (body resp)
              items s1) as [[[[[] got]|e| |] s2] t2];
    unfold ret, out_of, state_of, trace_of; cbn [fst snd app];
    rewrite ?app_nil_r; try reflexivity.
  now destruct (pages_loop R fuel base_url course_id hdrs max_items
                  (next_url resp) got s2) as [[o s3] t3].
Qed.

Lemma pages_loop_done fuel max_items url items (s : rstate R) :
  truthy_opt url = false ->
  pages_loop R fuel base_url course_id hdrs max_items url items s
  = (Ret items, s, []).
Proof. intros Hurl; destruct fuel; simpl; now rewrite Hurl. Qed.

(** Without a cap the loops only ever append to what they were given. *)
Lemma listing_loop_extends fuel :
  forall url items (s : rstate R) all,
    out_of (listing_loop R fuel hdrs None url items s) = Ret all ->
    exists more, all = items ++ more.
Proof.
  induction fuel as [|fuel IH]; intros url items s all;
    destruct (truthy_opt url) eqn:Hurl.
  - simpl; rewrite Hurl; discriminate.
  - rewrite listing_loop_done by assumption.
    intros [= <-]; exists []; now rewrite app_nil_r.
  - rewrite listing_loop_step by assumption; cbv zeta.
    destruct (serve_list R (or_empty url) hdrs per_page s) as [resp s1].
    cbn [fst snd cap_reached].
    destruct (status_error resp); [discriminate|].
    rewrite ?out_of_triple.
    intros H; apply IH in H as [more ->].
    exists (body resp ++ more); now rewrite app_assoc.
  - rewrite listing_loop_done by assumption.
    intros [= <-]; exists []; now rewrite app_nil_r.
Qed.

Lemma pages_details_extends listing :
  forall items (s : rstate R) flag got,
    out_of (pages_details R base_url course_id hdrs None listing items s)
    = Ret (flag, got) ->
    flag = false /\ exists more, got = items ++ more.
Proof.
  induction listing as [|page rest IH]; intros items s flag got.
  - intros [= <- <-]; split; [reflexivity|].
    exists []; now rewrite app_nil_r.
  - rewrite pages_details_step.
    destruct (o_url page) as [slug|]; [|discriminate].
    cbv zeta.
    destruct (serve_obj R _ hdrs [] s) as [resp s1].
    cbn [fst snd cap_reached].
    destruct (status_error resp); [discriminate|].
    rewrite ?out_of_triple.
    intros H; apply IH in H as [-> [more ->]]; split; [reflexivity|].
    exists ([body resp] ++ more); now rewrite app_assoc.
Qed.

Lemma pages_loop_extends fuel :
  forall url items (s : rstate R) all,
    out_of (pages_loop R fuel base_url course_id hdrs None url items s)
    = Ret all ->
    exists more, all = items ++ more.
Proof.
  induction fuel as [|fuel IH]; intros url items s all;
    destruct (truthy_opt url) eqn:Hurl.
  - simpl; rewrite Hurl; discriminate.
  - rewrite pages_loop_done by assumption.
    intros [= <-]; exists []; now rewrite app_nil_r.
  - rewrite pages_loop_step by assumption; cbv zeta.
    destruct (serve_list R (or_empty url) hdrs per_page s) as [resp s1].
    cbn [fst snd].
    destruct (status_error resp); [discriminate|].
    destruct (out_of (pages_details R base_url course_id hdrs None
                        (body resp) items s1))
      as [[flag got]|e| |] eqn:Hd; try discriminate.
    apply pages_details_extends in Hd as [-> [more ->]].
    rewrite ?out_of_triple.
    intros H; apply IH in H as [more' ->].
    exists (more ++ more'); now rewrite app_assoc.
  - rewrite pages_loop_done by assumption.
    intros [= <-]; exists []; now rewrite app_nil_r.
Qed.

(** Every detail request of [get_pages] adds one record to the result. *)
Lemma pages_details_count max_items listing :
  forall items (s : rstate R) flag got,
    let d := pages_details R base_url course_id hdrs max_items listing
               items s in
    out_of d = Ret (flag, got) ->
    length (detail_requests (trace_of d)) + length items = length got.
Proof.
  induction listing as [|page rest IH]; intros items s flag got; cbv zeta.
  - now intros [= <- <-].
  - rewrite pages_details_step.
    destruct (o_url page) as [slug|]; [|discriminate].
    cbv zeta.
    destruct (serve_obj R _ hdrs [] s) as [resp s1].
    cbn [fst snd].
    destruct (status_error resp); [discriminate|].
    destruct (cap_reached max_items (items ++ [body resp])).
    + intros [= <- <-]. rewrite length_app. simpl. lia.
    + rewrite ?out_of_triple, ?trace_of_triple.
      intros H; apply IH in H. cbv zeta in H.
      rewrite length_app in H. simpl in *. lia.
Qed.

Lemma pages_loop_count max_items fuel :
  forall url items (s : rstate R) got,
    let r := pages_loop R fuel base_url course_id hdrs max_items url
               items s in
    out_of r = Ret got ->
    length (detail_requests (trace_of r)) + length items = length got.
Proof.
  induction fuel as [|fuel IH]; intros url items s got; cbv zeta;
    destruct (truthy_opt url) eqn:Hurl.
  - simpl; rewrite Hurl; discriminate.
  - rewrite pages_loop_done by assumption. now intros [= <-].
  - rewrite pages_loop_step by assumption; cbv zeta.
    destruct (serve_list R (or_empty url) hdrs per_page s) as [resp s1].
    cbn [fst snd].
    destruct (status_error resp); [discriminate|].
    pose proof (pages_details_count max_items (body resp) items s1) as Hd.
    cbv zeta in Hd.
    destruct (out_of (pages_details R base_url course_id hdrs max_items
                        (body resp) items s1))
      as [[flag mid]|e| |]; try discriminate.
    specialize (Hd flag mid eq_refl).
    destruct flag.
    + intros [= <-]. rewrite ?trace_of_triple. exact Hd.
    + rewrite ?out_of_triple, ?trace_of_triple.
      intros H; apply IH in H. cbv zeta in H.
      unfold detail_requests in *.
      change (filter is_detail (?e :: ?t)) with (filter is_detail t).
      rewrite filter_app, length_app. lia.
  - rewrite pages_loop_done by assumption. now intros [= <-].
Qed.

(** Without a cap, and with a loop budget of at least the number of pages,
    the loops return everything the remote serves, in order. *)
Lemma listing_loop_all url (s : rstate R) pages s2 :
  serves_listing R hdrs url s pages s2 ->
  forall fuel items,
    length pages <= fuel ->
    out_of (listing_loop R fuel hdrs None url items s)
    = Ret (items ++ concat pages)
    /\ state_of (listing_loop R fuel hdrs None url items s) = s2.
Proof.
  induction 1 as [url s Hurl | url s resp s1 pages s2 Hurl Hserve Hok _ IH];
    intros fuel items Hfuel.
  - rewrite listing_loop_done by assumption.
    simpl; now rewrite app_nil_r.
  - destruct fuel as [|fuel]; [simpl in Hfuel; lia|].
    rewrite listing_loop_step by assumption; cbv zeta.
    rewrite Hserve; cbn [fst snd]; rewrite Hok; cbn [cap_reached].
    rewrite out_of_triple, state_of_triple.
    destruct (IH fuel (items ++ body resp)) as [Hout Hstate];
      [simpl in Hfuel; lia|].
    split; [|exact Hstate].
    rewrite Hout; simpl concat; now rewrite app_assoc.
Qed.

Lemma pages_details_all listing (s : rstate R) fulls s2 :
  serves_details R base_url course_id hdrs listing s fulls s2 ->
  forall items,
    out_of (pages_details R base_url course_id hdrs None listing items s)
    = Ret (false, items ++ fulls)
    /\ state_of (pages_details R base_url course_id hdrs None listing
                   items s) = s2.
Proof.
  induction 1 as [s | page rest slug s resp s1 fulls s2 Hslug Hserve Hok _ IH];
    intros items.
  - simpl; now rewrite app_nil_r.
  - rewrite pages_details_step, Hslug; cbv zeta.
    rewrite Hserve; cbn [fst snd]; rewrite Hok; cbn [cap_reached].
    rewrite out_of_triple, state_of_triple.
    destruct (IH (items ++ [body resp])) as [Hout Hstate].
    split; [|exact Hstate].
    rewrite Hout; now rewrite <- app_assoc.
Qed.

Lemma pages_loop_all url (s : rstate R) pages s3 :
  serves_pages R base_url course_id hdrs url s pages s3 ->
  forall fuel items,
    length pages <= fuel ->
    out_of (pages_loop R fuel base_url course_id hdrs None url items s)
    = Ret (items ++ concat pages)
    /\ state_of (pages_loop R fuel base_url course_id hdrs None url items s)
       = s3.
Proof.
  induction 1
    as [url s Hurl
       | url s resp s1 fulls s2 pages s3 Hurl Hserve Hok Hdet _ IH];
    intros fuel items Hfuel.
  - rewrite pages_loop_done by assumption.
    simpl; now rewrite app_nil_r.
  - destruct fuel as [|fuel]; [simpl in Hfuel; lia|].
    rewrite pages_loop_step by assumption; cbv zeta.
    rewrite Hserve; cbn [fst snd]; rewrite Hok.
    destruct (pages_details_all Hdet items) as [Hout Hstate].
    rewrite Hout, Hstate, out_of_triple, state_of_triple.
    destruct (IH fuel (items ++ fulls)) as [Hout' Hstate'];
      [simpl in Hfuel; lia|].
    split; [|exact Hstate'].
    rewrite Hout'; simpl concat; now rewrite app_assoc.
Qed.

Section Positive.
Variable m : Z.
Hypothesis m_pos : (0 < m)%Z.

Lemma cap_reached_pos {A : Type} (items : list A) :
  cap_reached (Some m) items = (Z.of_nat (length items) >=? m)%Z.
Proof.
  unfold cap_reached. destruct (Z.eqb_spec m 0); [lia | reflexivity].
Qed.

Lemma slice_to_cap_pos {A : Type} (items : list A) :
  slice_to_cap (Some m) items = firstn (Z.to_nat m) items.
Proof. apply py_prefix_firstn; lia. Qed.

Lemma firstn_covered {A : Type} (l more : list A) :
  (m <= Z.of_nat (length l))%Z ->
  firstn (Z.to_nat m) (l ++ more) = firstn (Z.to_nat m) l.
Proof.
  intros H. rewrite firstn_app.
  replace (Z.to_nat m - length l) with 0 by lia.
  simpl; now rewrite app_nil_r.
Qed.

Lemma firstn_short {A : Type} (l : list A) :
  (Z.of_nat (length l) < m)%Z -> firstn (Z.to_nat m) l = l.
Proof. intros H; apply firstn_all2; lia. Qed.

Lemma listing_loop_capped fuel :
  forall url items (s : rstate R),
    (Z.of_nat (length items) < m)%Z ->
    takes_prefix m (listing_loop R fuel hdrs (Some m) url items s)
                   (listing_loop R fuel hdrs None url items s).
Proof.
  induction fuel as [|fuel IH]; intros url items s Hlen all;
    destruct (truthy_opt url) eqn:Hurl.
  - simpl; rewrite Hurl; discriminate.
  - rewrite !listing_loop_done by assumption.
    intros [= <-]; split; [|now exists []].
    rewrite ?out_of_triple. now rewrite firstn_short.
  - rewrite !listing_loop_step by assumption; cbv zeta.
    destruct (serve_list R (or_empty url) hdrs per_page s) as [resp s1].
    cbn [fst snd].
    destruct (status_error resp); [discriminate|].
    rewrite cap_reached_pos, slice_to_cap_pos. cbn [cap_reached].
    rewrite ?out_of_triple, ?trace_of_triple.
    intros Hall.
    destruct (Z.geb_spec (Z.of_nat (length (items ++ body resp))) m)
      as [Hcap|Hcap].
    + apply listing_loop_extends in Hall as [more ->].
      split.
      * rewrite ?out_of_triple.
        now rewrite (firstn_covered (items ++ body resp) more) by lia.
      * rewrite ?trace_of_triple. now eexists.
    + destruct (IH (next_url resp) (items ++ body resp) s1 Hcap all Hall)
        as [Hout [rest Hrest]].
      split; [exact Hout|].
      rewrite ?trace_of_triple. exists rest. now rewrite Hrest.
  - rewrite !listing_loop_done by assumption.
    intros [= <-]; split; [|now exists []].
    rewrite ?out_of_triple. now rewrite firstn_short.
Qed.

(** The detail loop under a cap: either the cap is not reached and the loop
    runs exactly as without a cap, or it returns from inside the loop with
    the first [m] records. *)
Lemma pages_details_capped listing :
  forall items (s : rstate R) got,
    (Z.of_nat (length items) < m)%Z ->
    let capped := pages_details R base_url course_id hdrs (Some m) listing
                    items s in
    let uncapped := pages_details R base_url course_id hdrs None listing
                      items s in
    out_of uncapped = Ret (false, got) ->
    ((Z.of_nat (length got) < m)%Z /\ capped = uncapped)
    \/ ((m <= Z.of_nat (length got))%Z
        /\ out_of capped = Ret (true, firstn (Z.to_nat m) got)
        /\ exists rest, trace_of uncapped = trace_of capped ++ rest).
Proof.
  induction listing as [|page rest IH]; intros items s got Hlen; cbv zeta.
  - intros [= <-]. left; now split.
  - rewrite !pages_details_step.
    destruct (o_url page) as [slug|]; [|discriminate].
    cbv zeta.
    destruct (serve_obj R _ hdrs [] s) as [resp s1].
    cbn [fst snd].
    destruct (status_error resp); [discriminate|].
    rewrite cap_reached_pos. cbn [cap_reached].
    rewrite ?out_of_triple, ?trace_of_triple.
    intros Hall.
    destruct (Z.geb_spec (Z.of_nat (length (items ++ [body resp]))) m)
      as [Hcap|Hcap].
    + right.
      destruct (pages_details_extends _ _ _ Hall) as [_ [more ->]].
      rewrite length_app in *. simpl length in *.
      split; [rewrite length_app; simpl; lia|].
      split.
      * rewrite ?out_of_triple. do 2 f_equal.
        rewrite firstn_covered by (rewrite length_app; simpl; lia).
        symmetry; apply firstn_all2. rewrite length_app; simpl; lia.
      * rewrite ?trace_of_triple. now eexists.
    + destruct (IH (items ++ [body resp]) s1 got Hcap Hall)
        as [[Hshort ->]|(Hlong & Hout & more & Hmore)].
      * left; split; [exact Hshort | reflexivity].
      * right; split; [exact Hlong|]. split; [exact Hout|].
        rewrite ?trace_of_triple. exists more. now rewrite Hmore.
Qed.

Lemma pages_loop_capped fuel :
  forall url items (s : rstate R),
    (Z.of_nat (length items) < m)%Z ->
    takes_prefix m
      (pages_loop R fuel base_url course_id hdrs (Some m) url items s)
      (pages_loop R fuel base_url course_id hdrs None url items s).
Proof.
  induction fuel as [|fuel IH]; intros url items s Hlen all;
    destruct (truthy_opt url) eqn:Hurl.
  - simpl; rewrite Hurl; discriminate.
  - rewrite !pages_loop_done by assumption.
    intros [= <-]; split; [|now exists []].
    rewrite ?out_of_triple. now rewrite firstn_short.
  - rewrite !pages_loop_step by assumption; cbv zeta.
    destruct (serve_list R (or_empty url) hdrs per_page s) as [resp s1].
    cbn [fst snd].
    destruct (status_error resp); [discriminate|].
    pose proof (pages_details_capped (body resp) items s1) as Hd.
    cbv zeta in Hd.
    destruct (out_of (pages_details R base_url course_id hdrs None
                        (body resp) items s1))
      as [[flag got]|e| |] eqn:Hu; try discriminate.
    destruct (pages_details_extends _ _ _ Hu) as [-> _].
    rewrite ?out_of_triple, ?trace_of_triple.
    intros Hall.
    destruct (Hd got Hlen eq_refl)
      as [[Hshort ->]|(Hlong & Hout & more & Hmore)].
    + rewrite Hu.
      destruct (IH (next_url resp) got _ Hshort all Hall)
        as [Hout [rest Hrest]].
      split; [exact Hout|].
      rewrite ?trace_of_triple. exists rest.
      now rewrite Hrest, app_assoc.
    + rewrite Hout.
      apply pages_loop_extends in Hall as [more' ->].
      split.
      * rewrite ?out_of_triple. now rewrite firstn_covered.
      * rewrite ?trace_of_triple. rewrite Hmore.
        eexists. now rewrite <- app_assoc.
  - rewrite !pages_loop_done by assumption.
    intros [= <-]; split; [|now exists []].
    rewrite ?out_of_triple. now rewrite firstn_short.
Qed.

End Positive.

End Cap.

(** C5 (as amended).  With a cap of at least one, each harvest helper
    returns exactly the first [max_items] records of what the same harvest
    returns without a cap (all of them when there are fewer), after an
    initial segment of the same requests; against a remote that serves a
    finite sequence of pages, and with a loop budget that covers them, that
    is the prefix of length at most [max_items] of the concatenated pages.
    [get_assignments] and [get_discussions] test the cap once a whole
    listing page has been merged and slice the merged sequence.
    [get_pages] tests it after every detail record instead: it returns from
    inside the page, so the records of the last listing page that lie beyond
    the cap are never fetched, and the detail requests it issues are exactly
    as many as the records it returns. *)
Theorem cap_takes_a_prefix (R : Remote) (fuel : nat)
    (base_url token course_id : pystr) (m : Z) (s : rstate R) :
  (0 < m)%Z ->
  let hdrs := canvas_headers token in
  (takes_prefix m
     (get_assignments R fuel base_url token course_id (Some m) s)
     (get_assignments R fuel base_url token course_id None s)
   /\ takes_prefix m
        (get_discussions R fuel base_url token course_id (Some m) s)
        (get_discussions R fuel base_url token course_id None s)
   /\ takes_prefix m
        (get_pages R fuel base_url token course_id (Some m) s)
        (get_pages R fuel base_url token course_id None s)
   /\ fetches_only_what_it_returns
        (get_pages R fuel base_url token course_id (Some m) s))
  /\ (forall pages s',
        serves_listing R hdrs
          (Some (assignments_endpoint base_url course_id)) s pages s' ->
        length pages <= fuel ->
        out_of (get_assignments R fuel base_url token course_id (Some m) s)
        = Ret (firstn (Z.to_nat m) (concat pages)))
  /\ (forall pages s',
        serves_listing R hdrs
          (Some (discussions_endpoint base_url course_id)) s pages s' ->
        length pages <= fuel ->
        out_of (get_discussions R fuel base_url token course_id (Some m) s)
        = Ret (firstn (Z.to_nat m) (concat pages)))
  /\ (forall pages s',
        serves_pages R base_url course_id hdrs
          (Some (pages_endpoint base_url course_id)) s pages s' ->
        length pages <= fuel ->
        out_of (get_pages R fuel base_url token course_id (Some m) s)
        = Ret (firstn (Z.to_nat m) (concat pages))).
Proof.
  intros Hm hdrs.
  assert (Ha : takes_prefix m
                 (get_assignments R fuel base_url token course_id (Some m) s)
                 (get_assignments R fuel base_url token course_id None s))
    by (apply listing_loop_capped; simpl; lia).
  assert (Hd : takes_prefix m
                 (get_discussions R fuel base_url token course_id (Some m) s)
                 (get_discussions R fuel base_url token course_id None s))
    by (apply listing_loop_capped; simpl; lia).
  assert (Hp : takes_prefix m
                 (get_pages R fuel base_url token course_id (Some m) s)
                 (get_pages R fuel base_url token course_id None s))
    by (apply pages_loop_capped; simpl; lia).
  split; [split; [exact Ha | split; [exact Hd | split; [exact Hp|]]]|].
  - intros got Hgot. unfold get_pages in *.
    pose proof (@pages_loop_count R base_url course_id
                  (canvas_headers token) (Some m) fuel _ [] s got Hgot)
      as H.
    cbv zeta in H. rewrite Nat.add_0_r in H. exact H.
  - split; [|split]; intros pages s' Hchain Hfuel.
    + apply Ha.
      exact (proj1 (listing_loop_all Hchain [] Hfuel)).
    + apply Hd.
      exact (proj1 (listing_loop_all Hchain [] Hfuel)).
    + apply Hp.
      exact (proj1 (pages_loop_all Hchain [] Hfuel)).
Qed.

(** C10.  In each of the three harvest helpers a cap of [0] is the same as
    no cap: same result, same final remote state, same requests.  Against
    a remote that serves a finite sequence of pages, and with a loop budget
    that covers them, the helper called with a cap of [0] therefore returns
    the concatenation of all the pages, not an empty sequence. *)
Theorem zero_cap_is_no_cap (R : Remote) (fuel : nat)
    (base_url token course_id : pystr) (s : rstate R) :
  let hdrs := canvas_headers token in
  (get_pages R fuel base_url token course_id (Some 0%Z) s
   = get_pages R fuel base_url token course_id None s
   /\ get_assignments R fuel base_url token course_id (Some 0%Z) s
      = get_assignments R fuel base_url token course_id None s
   /\ get_discussions R fuel base_url token course_id (Some 0%Z) s
      = get_discussions R fuel base_url token course_id None s)
  /\ (forall pages s',
        serves_pages R base_url course_id hdrs
          (Some (pages_endpoint base_url course_id)) s pages s' ->
        length pages <= fuel ->
        out_of (get_pages R fuel base_url token course_id (Some 0%Z) s)
        = Ret (concat pages))
  /\ (forall pages s',
        serves_listing R hdrs
          (Some (assignments_endpoint base_url course_id)) s pages s' ->
        length pages <= fuel ->
        out_of (get_assignments R fuel base_url token course_id (Some 0%Z) s)
        = Ret (concat pages))
  /\ (forall pages s',
        serves_listing R hdrs
          (Some (discussions_endpoint base_url course_id)) s pages s' ->
        length pages <= fuel ->
        out_of (get_discussions R fuel base_url token course_id (Some 0%Z) s)
        = Ret (concat pages)).
Proof.
  intros hdrs.
  assert (Hp : get_pages R fuel base_url token course_id (Some 0%Z) s
               = get_pages R fuel base_url token course_id None s)
    by apply pages_loop_zero_cap.
  assert (Ha : get_assignments R fuel base_url token course_id (Some 0%Z) s
               = get_assignments R fuel base_url token course_id None s)
    by apply listing_loop_zero_cap.
  assert (Hd : get_discussions R fuel base_url token course_id (Some 0%Z) s
               = get_discussions R fuel base_url token course_id None s)
    by apply listing_loop_zero_cap.
  split; [exact (conj Hp (conj Ha Hd))|].
  split; [|split]; intros pages s' Hchain Hfuel.
  - rewrite Hp. exact (proj1 (pages_loop_all Hchain [] Hfuel)).
  - rewrite Ha. exact (proj1 (listing_loop_all Hchain [] Hfuel)).
  - rewrite Hd. exact (proj1 (listing_loop_all Hchain [] Hfuel)).
Qed.

(* ------------------------------------------------------------------ *)
(** * Concrete runs against the simulated remote *)


Lemma successful_rewrite_sets_html_only_witness :
  let alpha := Demo.it_page "alpha" "Alpha" "<p>one</p>" "" false in
  let items := [alpha] in
  let run := rewrite_loop Demo.canvas Demo.cfg Demo.client (py "model") []
               items 0 in
  truthy_opt (setting Demo.cfg "OPENAI_MODEL") = true
  /\ nth_error items 0 = Some alpha
  /\ truthy (original_html alpha) = true
  /\ reply_for Demo.canvas Demo.cfg Demo.client (py "model") [] alpha
       (state_before Demo.canvas Demo.cfg Demo.client (py "model") []
          items 0 0)
     = ChatReturns [Some (py "  <div>styled</div>  ")]
  /\ exists it',
       nth_error (loop_items run) 0 = Some it'
       /\ it' = set_rewritten_html
                  (strip (or_empty (Some (py "  <div>styled</div>  "))))
                  alpha
       /\ rewritten_html it'
          = strip (or_empty (Some (py "  <div>styled</div>  ")))
       /\ rewrite_error it' = rewrite_error alpha.
Proof.
  intros alpha items run.
  assert (H1 : truthy_opt (setting Demo.cfg "OPENAI_MODEL") = true)
    by reflexivity.
  assert (H2 : nth_error items 0 = Some alpha) by reflexivity.
  assert (H3 : truthy (original_html alpha) = true) by reflexivity.
  assert (H4 : reply_for Demo.canvas Demo.cfg Demo.client (py "model") []
                 alpha
                 (state_before Demo.canvas Demo.cfg Demo.client (py "model")
                    [] items 0 0)
               = ChatReturns [Some (py "  <div>styled</div>  ")])
    by (vm_compute; reflexivity).
  refine (conj H1 (conj H2 (conj H3 (conj H4 _)))).
  exact (@successful_rewrite_sets_html_only Demo.canvas Demo.cfg Demo.client
           (py "model") [] H1 items 0 0 alpha
           (Some (py "  <div>styled</div>  ")) [] H2 H3 H4).
Defined.

(** C4 (as stated) fails: an item that carries the message of an earlier
    failure is rewritten successfully, and the message is still there. *)
Lemma successful_rewrite_clears_error_counterexample :
  let stale :=
    mkItem Page 1 (Some 1%Z) (Some (py "alpha")) (py "Alpha")
           (py "<p>one</p>") [] false (Some (py "Request timed out.")) in
  let run := rewrite_loop Demo.canvas Demo.cfg Demo.client (py "model") []
               [stale] 0 in
  map ev_error (loop_trace run) = [None]
  /\ map rewritten_html (loop_items run) = [py "<div>styled</div>"]
  /\ map rewrite_error (loop_items run) = [Some (py "Request timed out.")].
Proof. vm_compute. repeat split. Qed.

Lemma write_back_selection_witness :
  let kept := Demo.it_page "alpha" "Alpha" "<p>one</p>" "<p>new</p>" true in
  let empty := Demo.it_page "gamma" "Gamma" "" "" true in
  let unapproved :=
    Demo.it_page "beta" "Beta" "<p>two</p>" "<p>new</p>" false in
  let sess := mkSession [kept; empty; unapproved] (py "model")
                        (Some Demo.course) true in
  let run := write_approved_changes Demo.canvas Demo.cfg sess 0 in
  approved_items sess = [kept]
  /\ map ev_call (run_trace run)
     = [Put (py "https://canvas.test/api/v1/courses/7/pages/alpha")
            (canvas_headers Demo.token) (WikiPageBody (py "<p>new</p>"))]
  /\ forall ev,
       In ev (run_trace run) ->
       exists it,
         In it (approved_items sess)
         /\ put_call_of (canvas_base Demo.cfg) (canvas_token Demo.cfg)
              (or_empty (course_id sess)) it = Some (ev_call ev).
Proof.
  intros kept empty unapproved sess run.
  split; [vm_compute; reflexivity|]. split; [vm_compute; reflexivity|].
  exact (proj1 (proj2 (write_back_selection Demo.canvas Demo.cfg sess 0))).
Defined.

Lemma write_back_continues_on_error_witness :
  let alpha := Demo.it_page "alpha" "Alpha" "<p>one</p>" "<p>new</p>" true in
  let beta := Demo.it_page "beta" "Beta" "<p>two</p>" "<p>new</p>" true in
  let gamma :=
    Demo.it_page "gamma" "Gamma" "<p>three</p>" "<p>new</p>" true in
  let sess := mkSession [alpha; beta; gamma] (py "model")
                        (Some Demo.course) true in
  let run := write_approved_changes Demo.canvas Demo.cfg sess 0 in
  truthy_opt (course_id sess) = true
  /\ canvas_configured Demo.cfg = true
  /\ run_outcome run
     = Ret (SomeFailed [(py "Beta", py "403 Client Error: Forbidden")])
  /\ length (run_trace run) = 3
  /\ run_session run = sess
  /\ map ev_call
       (run_trace (write_approved_changes Demo.canvas Demo.cfg
                     (run_session run) (run_state run)))
     = map ev_call (run_trace run).
Proof.
  intros alpha beta gamma sess run.
  assert (H1 : truthy_opt (course_id sess) = true) by reflexivity.
  assert (H2 : canvas_configured Demo.cfg = true) by reflexivity.
  destruct (@write_back_continues_on_error Demo.canvas Demo.cfg sess 0
              H1 H2) as (_ & B & C & D & E).
  subst run.
  split; [exact H1|]. split; [exact H2|].
  split; [rewrite C; vm_compute; reflexivity|].
  split; [rewrite <- (length_map ev_call), B; vm_compute; reflexivity|].
  exact (conj D E).
Defined.

Lemma missing_identifier_is_recorded_witness :
  let orphan :=
    mkItem Page 1 (Some 1%Z) None (py "Orphan") (py "<p>one</p>")
           (py "<p>new</p>") true None in
  let gamma :=
    Demo.it_page "gamma" "Gamma" "<p>three</p>" "<p>new</p>" true in
  missing_identifier orphan = Some "url_slug"%string
  /\ write_loop Demo.canvas Demo.base Demo.token Demo.course
       [orphan; gamma] [] 0
     = write_loop Demo.canvas Demo.base Demo.token Demo.course
         [gamma] [(py "Orphan", quoted "url_slug")] 0.
Proof.
  intros orphan gamma.
  split; [vm_compute; reflexivity|].
  exact (@missing_identifier_is_recorded Demo.canvas Demo.base Demo.token
           Demo.course orphan [gamma] [] 0 "url_slug" eq_refl).
Defined.

(** C6 (as stated) fails: a selected page without its slug, and a selected
    assignment without its Canvas id, do not end the write-back.  Each is
    recorded in the failure list that the handler reports, and the item
    that follows them is still written. *)
Lemma missing_identifier_is_fatal_counterexample :
  let orphan :=
    mkItem Page 1 (Some 1%Z) None (py "Orphan") (py "<p>one</p>")
           (py "<p>new</p>") true None in
  let nameless :=
    mkItem Assignment 2 None None (py "Nameless") (py "<p>two</p>")
           (py "<p>new</p>") true None in
  let gamma :=
    Demo.it_page "gamma" "Gamma" "<p>three</p>" "<p>new</p>" true in
  let sess := mkSession [orphan; nameless; gamma] (py "model")
                        (Some Demo.course) true in
  let run := write_approved_changes Demo.canvas Demo.cfg sess 0 in
  approved_items sess = [orphan; nameless; gamma]
  /\ run_outcome run
     = Ret (SomeFailed [(py "Orphan", py "'url_slug'");
                        (py "Nameless", py "'canvas_id'")])
  /\ map ev_call (run_trace run)
     = [Put (py "https://canvas.test/api/v1/courses/7/pages/gamma")
            (canvas_headers Demo.token) (WikiPageBody (py "<p>new</p>"))].
Proof. vm_compute. repeat split. Qed.

(** The simulated course, as sequences of pages. *)
Lemma demo_assignments_chain :
  serves_listing Demo.canvas (canvas_headers Demo.token)
    (Some (assignments_endpoint Demo.base Demo.course)) 0
    [[Demo.a1; Demo.a2]; [Demo.a3]] 2.
Proof.
  eapply (@listing_goes_on Demo.canvas _ _ 0
            (Demo.listing (assignments_endpoint Demo.base Demo.course)) 1
            [[Demo.a3]] 2); try (vm_compute; reflexivity).
  eapply (@listing_goes_on Demo.canvas _ _ 1
            (Demo.listing (py "https://canvas.test/more")) 2 [] 2);
    try (vm_compute; reflexivity).
  apply listing_ends; vm_compute; reflexivity.
Qed.

Lemma demo_pages_chain :
  serves_pages Demo.canvas Demo.base Demo.course (canvas_headers Demo.token)
    (Some (pages_endpoint Demo.base Demo.course)) 0
    [[Demo.a1; Demo.a2]; [Demo.a3]] 5.
Proof.
  eapply (@pages_go_on Demo.canvas _ _ _ _ 0
            (Demo.listing (pages_endpoint Demo.base Demo.course)) 1
            [Demo.a1; Demo.a2] 3 [[Demo.a3]] 5);
    try (vm_compute; reflexivity).
  - eapply (@details_go_on Demo.canvas _ _ _ _ _ (py "alpha") 1
              (Demo.detail
                 (py "https://canvas.test/api/v1/courses/7/pages/alpha"))
              2 [Demo.a2] 3); try (vm_compute; reflexivity).
    eapply (@details_go_on Demo.canvas _ _ _ _ _ (py "beta") 2
              (Demo.detail
                 (py "https://canvas.test/api/v1/courses/7/pages/beta"))
              3 [] 3); try (vm_compute; reflexivity).
    apply details_end.
  - eapply (@pages_go_on Demo.canvas _ _ _ _ 3
              (Demo.listing (py "https://canvas.test/more")) 4
              [Demo.a3] 5 [] 5); try (vm_compute; reflexivity).
    + eapply (@details_go_on Demo.canvas _ _ _ _ _ (py "gamma") 4
                (Demo.detail
                   (py "https://canvas.test/api/v1/courses/7/pages/gamma"))
                5 [] 5); try (vm_compute; reflexivity).
      apply details_end.
    + apply pages_end; vm_compute; reflexivity.
Qed.

Lemma cap_takes_a_prefix_witness :
  (0 < 1)%Z
  /\ out_of (get_assignments Demo.canvas 5 Demo.base Demo.token Demo.course
               (Some 1%Z) 0)
     = Ret (firstn (Z.to_nat 1) (concat [[Demo.a1; Demo.a2]; [Demo.a3]]))
  /\ out_of (get_pages Demo.canvas 5 Demo.base Demo.token Demo.course
               (Some 1%Z) 0)
     = Ret (firstn (Z.to_nat 1) (concat [[Demo.a1; Demo.a2]; [Demo.a3]])).
Proof.
  assert (H : (0 < 1)%Z) by lia.
  assert (Hfuel : length [[Demo.a1; Demo.a2]; [Demo.a3]] <= 5)
    by (simpl; lia).
  destruct (@cap_takes_a_prefix Demo.canvas 5 Demo.base Demo.token
              Demo.course 1%Z 0 H) as (_ & A & _ & P).
  exact (conj H (conj (A _ _ demo_assignments_chain Hfuel)
                      (P _ _ demo_pages_chain Hfuel))).
Defined.

Lemma zero_cap_is_no_cap_witness :
  out_of (get_assignments Demo.canvas 5 Demo.base Demo.token Demo.course
            (Some 0%Z) 0)
  = Ret (concat [[Demo.a1; Demo.a2]; [Demo.a3]])
  /\ out_of (get_pages Demo.canvas 5 Demo.base Demo.token Demo.course
               (Some 0%Z) 0)
     = Ret (concat [[Demo.a1; Demo.a2]; [Demo.a3]]).
Proof.
  assert (Hfuel : length [[Demo.a1; Demo.a2]; [Demo.a3]] <= 5)
    by (simpl; lia).
  destruct (@zero_cap_is_no_cap Demo.canvas 5 Demo.base Demo.token
              Demo.course 0) as (_ & P & A & _).
  exact (conj (A _ _ demo_assignments_chain Hfuel)
              (P _ _ demo_pages_chain Hfuel)).
Defined.

(** C5 (as stated) fails for [get_pages]: with a cap of one and a first
    listing page of two entries, the cap is met inside the page and the
    helper returns at once.  The second entry of that page is never
    fetched, whereas [get_assignments], on the same course, has the whole
    page in hand before it cuts. *)
Lemma cap_after_full_page_counterexample :
  let pages := get_pages Demo.canvas 5 Demo.base Demo.token Demo.course
                 (Some 1%Z) 0 in
  body (Demo.listing (py "https://canvas.test/api/v1/courses/7/pages"))
  = [Demo.a1; Demo.a2]
  /\ out_of pages = Ret [Demo.a1]
  /\ map ev_call (trace_of pages)
     = [Get (py "https://canvas.test/api/v1/courses/7/pages")
            (canvas_headers Demo.token) per_page;
        Get (py "https://canvas.test/api/v1/courses/7/pages/alpha")
            (canvas_headers Demo.token) []]
  /\ ~ In (Get (py "https://canvas.test/api/v1/courses/7/pages/beta")
               (canvas_headers Demo.token) [])
          (map ev_call (trace_of pages)).
Proof.
  vm_compute. repeat split.
  intros [H|[H|[]]]; discriminate H.
Qed.

Lemma harvest_all_or_nothing_witness :
  let sess := mkSession [Demo.it_page "old" "Old" "<p>x</p>" "" false]
                        (py "model") (Some (py "3")) true in
  let run := fetch_course_content Demo.broken_canvas 5 Demo.cfg Demo.course
               sess 0 in
  let refused :=
    mkEvent (Get (py "https://canvas.test/more")
                 (canvas_headers Demo.token) per_page)
            (Some (py "500 Server Error")) in
  In refused (run_trace run)
  /\ ev_error refused = Some (py "500 Server Error")
  /\ run_session run = sess
  /\ run_outcome run = Ret (FetchError (py "500 Server Error")).
Proof.
  intros sess run refused.
  assert (H1 : In refused (run_trace run))
    by (vm_compute; do 4 right; left; reflexivity).
  assert (H2 : ev_error refused = Some (py "500 Server Error"))
    by reflexivity.
  destruct (@harvest_all_or_nothing Demo.broken_canvas 5 Demo.cfg Demo.base
              Demo.token Demo.course None) as (_ & _ & _ & K).
  destruct (K sess 0 refused (py "500 Server Error") H1 H2) as [A B].
  exact (conj H1 (conj H2 (conj A B))).
Defined.

(* ------------------------------------------------------------------ *)
(** * Further properties of the code *)

(** ** The [Link] header scan *)

Lemma starts_with_app (p rest : pystr) : starts_with p (p ++ rest) = true.
Proof.
  induction p as [|c p IH]; simpl; [reflexivity|].
  now rewrite N.eqb_refl, IH.
Qed.

Lemma starts_with_weaken (p a rest : pystr) :
  starts_with p a = true -> starts_with p (a ++ rest) = true.
Proof.
  revert a; induction p as [|c p IH]; intros [|d a]; simpl;
    try reflexivity; try discriminate.
  intros H; apply andb_prop in H as [-> H]; simpl; now apply IH.
Qed.

Lemma contains_skip (sub a rest : pystr) :
  contains sub rest = true -> contains sub (a ++ rest) = true.
Proof.
  intros H; induction a as [|c a IH]; simpl; [exact H|].
  rewrite IH; apply orb_true_r.
Qed.

Lemma contains_here (sub rest : pystr) :
  contains sub (sub ++ rest) = true.
Proof.
  destruct sub as [|c sub]; [now destruct rest|].
  change (contains (c :: sub) ((c :: sub) ++ rest))
    with (starts_with (c :: sub) ((c :: sub) ++ rest)
          || contains (c :: sub) (sub ++ rest)).
  now rewrite starts_with_app.
Qed.

Lemma contains_mid (sub x y : pystr) : contains sub (x ++ sub ++ y) = true.
Proof. apply contains_skip, contains_here. Qed.

Lemma find_char_absent (c : N) (s : pystr) :
  ~ In c s -> find_char c s = (-1)%Z.
Proof.
  induction s as [|d s IH]; simpl; intros H; [reflexivity|].
  destruct (N.eqb_spec d c) as [->|_]; [elim H; now left|].
  rewrite IH by tauto. reflexivity.
Qed.

Lemma find_char_first (c : N) (pre rest : pystr) :
  ~ In c pre ->
  find_char c (pre ++ c :: rest) = Z.of_nat (length pre).
Proof.
  induction pre as [|d pre IH]; intros H.
  - simpl; now rewrite N.eqb_refl.
  - simpl app; simpl find_char.
    destruct (N.eqb_spec d c) as [->|_]; [elim H; now left|].
    rewrite IH by (simpl in H; tauto).
    destruct (Z.ltb_spec (Z.of_nat (length pre)) 0); simpl length; lia.
Qed.

Lemma split_on_absent (sep : N) (s : pystr) :
  ~ In sep s -> split_on sep s = [s].
Proof.
  induction s as [|c s IH]; simpl; intros H; [reflexivity|].
  destruct (N.eqb_spec c sep) as [->|_]; [elim H; now left|].
  rewrite IH by tauto. reflexivity.
Qed.

Lemma split_on_first (sep : N) (a b : pystr) :
  ~ In sep a -> split_on sep (a ++ sep :: b) = a :: split_on sep b.
Proof.
  induction a as [|c a IH]; simpl; intros H.
  - now rewrite N.eqb_refl.
  - destruct (N.eqb_spec c sep) as [->|_]; [elim H; now left|].
    rewrite IH by tauto. reflexivity.
Qed.

(** Splitting on the separator undoes joining with it, as long as no part
    holds the separator. *)
Lemma split_on_join (sep : N) (parts : list pystr) :
  parts <> [] -> Forall (fun p => ~ In sep p) parts ->
  split_on sep (join [sep] parts) = parts.
Proof.
  induction parts as [|p parts IH]; intros Hne Hall; [now elim Hne|].
  inversion Hall as [|? ? Hp Hrest]; subst.
  destruct parts as [|q parts].
  - simpl; now apply split_on_absent.
  - change (join [sep] (p :: q :: parts))
      with (p ++ sep :: join [sep] (q :: parts)).
    rewrite split_on_first by assumption.
    now rewrite IH.
Qed.

Lemma next_in_parts_skips (earlier later : list pystr) :
  Forall (fun p => contains rel_next p = false) earlier ->
  next_in_parts (earlier ++ later) = next_in_parts later.
Proof.
  induction 1 as [|p earlier Hp _ IH]; simpl; [reflexivity|].
  now rewrite Hp.
Qed.

Lemma slice_between (pre u post : pystr) :
  ~ In 60%N pre -> ~ In 62%N pre -> ~ In 62%N u ->
  let part := pre ++ [60%N] ++ u ++ [62%N] ++ post in
  py_slice part (find_char 60 part + 1) (find_char 62 part) = u.
Proof.
  intros Hlt Hgt Hu part.
  assert (E1 : part = pre ++ 60%N :: (u ++ 62%N :: post)) by reflexivity.
  assert (E2 : part = (pre ++ 60%N :: u) ++ 62%N :: post)
    by (rewrite E1, <- app_assoc; reflexivity).
  assert (E3 : part = (pre ++ [60%N]) ++ u ++ 62%N :: post)
    by (rewrite E1, <- app_assoc; reflexivity).
  assert (F1 : find_char 60 part = Z.of_nat (length pre))
    by (rewrite E1; now apply find_char_first).
  assert (F2 : find_char 62 part = Z.of_nat (length (pre ++ 60%N :: u))).
  { rewrite E2; apply find_char_first.
    rewrite in_app_iff; simpl. intros [H|[H|H]]; auto; discriminate. }
  assert (L : length part = length pre + 1 + length u + 1 + length post).
  { rewrite E1, length_app; simpl; rewrite length_app; simpl; lia. }
  rewrite length_app in F2; simpl length in F2.
  unfold py_slice, clamp_index; rewrite F1, F2, L.
  destruct (Z.ltb_spec (Z.of_nat (length pre) + 1) 0); [lia|].
  destruct (Z.ltb_spec (Z.of_nat (length pre + S (length u))) 0); [lia|].
  match goal with
  | |- firstn (Z.to_nat ?n) (skipn (Z.to_nat ?k) _) = _ =>
      replace (Z.to_nat n) with (length u) by lia;
      replace (Z.to_nat k) with (length (pre ++ [60%N]))
        by (rewrite length_app; simpl; lia)
  end.
  rewrite E3, skipn_app, skipn_all, Nat.sub_diag; simpl skipn.
  rewrite app_nil_l, firstn_app, firstn_all, Nat.sub_diag; simpl.
  now rewrite app_nil_r.
Qed.

(** X1.  The scan of the [Link] header returns the target of the first
    part marked [rel="next"]: for a header made of comma-separated parts
    (none holding a comma), where no earlier part carries the mark and the
    marked part reads [pre<u>post] with no angle bracket before [<] and no
    [>] inside [u], the next URL is exactly [u]. *)
Theorem next_url_extracts_target {B : Type} (resp : response B)
    (earlier later : list pystr) (pre u post : pystr) :
  let part := pre ++ [60%N] ++ u ++ [62%N] ++ post in
  link_header resp = Some (join [44%N] (earlier ++ part :: later)) ->
  Forall (fun p => ~ In 44%N p) (earlier ++ part :: later) ->
  Forall (fun p => contains rel_next p = false) earlier ->
  contains rel_next part = true ->
  ~ In 60%N pre -> ~ In 62%N pre -> ~ In 62%N u ->
  next_url resp = Some u.
Proof.
  intros part Hlink Hcomma Hearlier Hmark Hlt Hgt Hu.
  unfold next_url; rewrite Hlink; simpl or_empty.
  rewrite split_on_join by (assumption || now destruct earlier).
  rewrite next_in_parts_skips by assumption.
  simpl next_in_parts; rewrite Hmark.
  exact (f_equal Some (@slice_between pre u post Hlt Hgt Hu)).
Qed.

Lemma next_in_parts_none (parts : list pystr) :
  Forall (fun p => contains rel_next p = false) parts ->
  next_in_parts parts = None.
Proof.
  intros H; rewrite <- (app_nil_r parts).
  now rewrite next_in_parts_skips.
Qed.

Lemma firstn_removelast {A : Type} (l : list A) :
  firstn (length l - 1) l = removelast l.
Proof.
  induction l as [|a [|b l] IH]; try reflexivity.
  replace (length (a :: b :: l) - 1) with (S (length (b :: l) - 1))
    by (simpl; lia).
  rewrite firstn_cons, IH; reflexivity.
Qed.

Lemma py_slice_all_but_last {A : Type} (l : list A) :
  py_slice l 0 (-1) = removelast l.
Proof.
  unfold py_slice, clamp_index.
  change (0 <? 0)%Z with false; change (-1 <? 0)%Z with true; cbv iota.
  replace (Z.to_nat (Z.max 0 (Z.min (Z.of_nat (length l)) 0))) with 0
    by lia.
  replace (Z.to_nat _) with (length l - 1) by lia.
  simpl skipn. apply firstn_removelast.
Qed.

(** X2.  A part marked [rel="next"] that holds no angle bracket at all is
    not rejected: both searches answer [-1], the slice becomes
    [part[0:-1]], and the loop goes on with the part less its last
    character as the next URL. *)
Theorem next_url_without_brackets {B : Type} (resp : response B)
    (part : pystr) :
  link_header resp = Some part ->
  ~ In 44%N part -> ~ In 60%N part -> ~ In 62%N part ->
  contains rel_next part = true ->
  next_url resp = Some (removelast part).
Proof.
  intros Hlink Hcomma Hlt Hgt Hmark.
  unfold next_url; rewrite Hlink; simpl or_empty.
  rewrite split_on_absent by assumption.
  simpl next_in_parts; rewrite Hmark.
  rewrite !find_char_absent by assumption.
  change (-1 + 1)%Z with 0%Z.
  now rewrite py_slice_all_but_last.
Qed.

(** ** The generic pagination helper *)

Section PaginationFacts.
Variable R : Remote.
Variable hdrs : headers.

Lemma paginate_loop_step fuel params url items (s : rstate R) :
  truthy_opt url = true ->
  paginate_loop R (S fuel) hdrs params url items s
  = let q := params_or_none params in
    let resp := fst (serve_list R (or_empty url) hdrs q s) in
    let s1 := snd (serve_list R (or_empty url) hdrs q s) in
    let ev := mkEvent (Get (or_empty url) hdrs q) (status_error resp) in
    match status_error resp with
    | Some e => (Raise e, s1, [ev])
    | None =>
        let r := paginate_loop R fuel hdrs None (next_url resp)
                   (items ++ body resp) s1 in
        (out_of r, state_of r, ev :: trace_of r)
    end.
Proof.
  intros Hurl; simpl; rewrite Hurl.
  unfold bind at 1, requests_get_list.
  destruct (serve_list R (or_empty url) hdrs (params_or_none params) s)
    as [resp s1].
  cbn [fst snd]; unfold raise_for_status.
  destruct (status_error resp) as [e|]; [reflexivity|].
  rewrite bind_ret.
  now destruct (paginate_loop R fuel hdrs None (next_url resp)
                  (items ++ body resp) s1) as [[o s2] t2].
Qed.

Lemma paginate_loop_done fuel params url items (s : rstate R) :
  truthy_opt url = false ->
  paginate_loop R fuel hdrs params url items s = (Ret items, s, []).
Proof. intros Hurl; destruct fuel; simpl; now rewrite Hurl. Qed.

Lemma paginate_loop_all params url (s : rstate R) pages s2 :
  serves_from R hdrs params url s pages s2 ->
  forall fuel q items,
    params_or_none q = params ->
    length pages <= fuel ->
    out_of (paginate_loop R fuel hdrs q url items s)
    = Ret (items ++ concat pages)
    /\ state_of (paginate_loop R fuel hdrs q url items s) = s2
    /\ length (trace_of (paginate_loop R fuel hdrs q url items s))
       = length pages.
Proof.
  induction 1
    as [params url s Hurl
       | params url s resp s1 pages s2 Hurl Hserve Hok _ IH];
    intros fuel q items Hq Hfuel.
  - rewrite paginate_loop_done by assumption.
    simpl; now rewrite app_nil_r.
  - destruct fuel as [|fuel]; [simpl in Hfuel; lia|].
    rewrite paginate_loop_step by assumption; cbv zeta.
    rewrite Hq, Hserve; cbn [fst snd]; rewrite Hok.
    rewrite out_of_triple, state_of_triple, trace_of_triple.
    destruct (IH fuel None (items ++ body resp) eq_refl)
      as (Hout & Hstate & Htrace); [simpl in Hfuel; lia|].
    split; [|split].
    + rewrite Hout; simpl concat; now rewrite app_assoc.
    + exact Hstate.
    + simpl; now rewrite Htrace.
Qed.

(** After the first request, no request carries a parameter. *)
Lemma paginate_loop_later_requests fuel :
  forall url items (s : rstate R),
    Forall (fun ev => params_of ev = [])
           (trace_of (paginate_loop R fuel hdrs None url items s)).
Proof.
  induction fuel as [|fuel IH]; intros url items s;
    destruct (truthy_opt url) eqn:Hurl;
    try (rewrite paginate_loop_done by assumption; constructor).
  - simpl; rewrite Hurl; constructor.
  - rewrite paginate_loop_step by assumption; cbv zeta.
    destruct (serve_list R (or_empty url) hdrs (params_or_none None) s)
      as [resp s1].
    cbn [fst snd].
    destruct (status_error resp); rewrite trace_of_triple.
    + repeat constructor.
    + constructor; [reflexivity | apply IH].
Qed.

Lemma aborts_paginate_loop fuel :
  forall params url items,
    aborts_on_refusal (paginate_loop R fuel hdrs params url items).
Proof.
  induction fuel as [|fuel IH]; intros params url items; simpl;
    destruct (truthy_opt url);
    try apply aborts_ret; try apply aborts_out_of_fuel.
  apply aborts_checked_list; intros resp. apply IH.
Qed.

End PaginationFacts.

(** X3.  Against a remote that serves a finite sequence of pages, and with
    a loop budget that covers them, [_paginate_canvas] returns the
    concatenation of the pages in order, after exactly one request per
    page. *)
Theorem paginate_canvas_concatenates (R : Remote) (fuel : nat)
    (base_url token url : pystr) (params : option (list (pystr * Z)))
    (s : rstate R) (pages : list (list canvas_obj)) (s' : rstate R) :
  serves_from R (canvas_headers token) (params_or_none params) (Some url)
    s pages s' ->
  length pages <= fuel ->
  let run := _paginate_canvas R fuel base_url token url params s in
  out_of run = Ret (concat pages)
  /\ state_of run = s'
  /\ length (trace_of run) = length pages.
Proof.
  intros Hchain Hfuel run.
  exact (paginate_loop_all Hchain params [] eq_refl Hfuel).
Qed.

(** X4.  [_paginate_canvas] sends the caller's parameters with the first
    request only: every later request of the run carries no parameter.  A
    refused request ends the run with that error and no sequence. *)
Theorem paginate_canvas_params_first_only (R : Remote) (fuel : nat)
    (base_url token url : pystr) (params : option (list (pystr * Z)))
    (s : rstate R) :
  let run := _paginate_canvas R fuel base_url token url params s in
  match trace_of run with
  | [] => True
  | first :: later =>
      params_of first = params_or_none params
      /\ Forall (fun ev => params_of ev = []) later
  end
  /\ aborts_on_refusal (_paginate_canvas R fuel base_url token url params).
Proof.
  intros run; split; [|apply aborts_paginate_loop].
  subst run; unfold _paginate_canvas.
  destruct url as [|c url].
  - rewrite paginate_loop_done by reflexivity; exact I.
  - destruct fuel as [|fuel]; [exact I|].
    rewrite paginate_loop_step by reflexivity; cbv zeta.
    destruct (serve_list R _ _ _ s) as [resp s1].
    cbn [fst snd].
    destruct (status_error resp); rewrite trace_of_triple.
    + split; [reflexivity | constructor].
    + split; [reflexivity | apply paginate_loop_later_requests].
Qed.

(** ** Harvest: one page, the bound, a negative cap, the requests *)

(** X5.  A listing whose first response is accepted and whose [Link] header
    marks no part [rel="next"] (or is absent) is harvested in one request:
    [get_assignments] and [get_discussions] return exactly the records of
    that response, as long as the cap, if any, is not reached by them. *)
Theorem single_page_harvest (R : Remote) (fuel : nat)
    (base_url token course_id : pystr) (max_items : option Z)
    (s : rstate R) :
  let hdrs := canvas_headers token in
  let last_page (url : pystr) (resp : response (list canvas_obj))
      (s1 : rstate R) :=
    serve_list R url hdrs per_page s = (resp, s1)
    /\ status_error resp = None
    /\ Forall (fun p => contains rel_next p = false)
              (split_on 44 (or_empty (link_header resp)))
    /\ cap_reached max_items (body resp) = false in
  (forall resp s1,
     last_page (assignments_endpoint base_url course_id) resp s1 ->
     get_assignments R (S fuel) base_url token course_id max_items s
     = (Ret (body resp), s1,
        [mkEvent (Get (assignments_endpoint base_url course_id) hdrs
                      per_page) None]))
  /\ (forall resp s1,
        last_page (discussions_endpoint base_url course_id) resp s1 ->
        get_discussions R (S fuel) base_url token course_id max_items s
        = (Ret (body resp), s1,
           [mkEvent (Get (discussions_endpoint base_url course_id) hdrs
                         per_page) None])).
Proof.
  intros hdrs last_page.
  assert (H : forall url resp s1,
             truthy url = true ->
             last_page url resp s1 ->
             listing_loop R (S fuel) hdrs max_items (Some url) [] s
             = (Ret (body resp), s1,
                [mkEvent (Get url hdrs per_page) None])).
  { intros url resp s1 Hurl (Hserve & Hok & Hlast & Hcap).
    rewrite listing_loop_step by exact Hurl; cbv zeta.
    cbn [or_empty]; rewrite Hserve; cbn [fst snd app]; rewrite Hok, Hcap.
    assert (Hnext : next_url resp = None)
      by (unfold next_url; now apply next_in_parts_none).
    rewrite Hnext, listing_loop_done by reflexivity.
    reflexivity. }
  split; intros resp s1 Hlast; apply H; try exact Hlast.
  - unfold assignments_endpoint. now destruct base_url.
  - unfold discussions_endpoint. now destruct base_url.
Qed.

Section CapBound.
Variable R : Remote.
Variables base_url course_id : pystr.
Variable hdrs : headers.
Variable m : Z.
Hypothesis m_pos : (0 < m)%Z.

Lemma listing_loop_bound fuel :
  forall url items (s : rstate R) got,
    (Z.of_nat (length items) < m)%Z ->
    out_of (listing_loop R fuel hdrs (Some m) url items s) = Ret got ->
    (Z.of_nat (length got) <= m)%Z.
Proof.
  induction fuel as [|fuel IH]; intros url items s got Hlen;
    destruct (truthy_opt url) eqn:Hurl;
    try (rewrite listing_loop_done by assumption; intros [= <-]; lia).
  - simpl; rewrite Hurl; discriminate.
  - rewrite listing_loop_step by assumption; cbv zeta.
    destruct (serve_list R (or_empty url) hdrs per_page s) as [resp s1].
    cbn [fst snd].
    destruct (status_error resp); [discriminate|].
    rewrite (cap_reached_pos m_pos), (slice_to_cap_pos m_pos).
    destruct (Z.geb_spec (Z.of_nat (length (items ++ body resp))) m)
      as [Hcap|Hcap]; rewrite out_of_triple.
    + intros [= <-]. rewrite length_firstn. lia.
    + now apply IH.
Qed.

Lemma pages_details_bound listing :
  forall items (s : rstate R) flag got,
    (Z.of_nat (length items) < m)%Z ->
    out_of (pages_details R base_url course_id hdrs (Some m) listing
              items s) = Ret (flag, got) ->
    if flag then Z.of_nat (length got) = m
    else (Z.of_nat (length got) < m)%Z.
Proof.
  induction listing as [|page rest IH]; intros items s flag got Hlen.
  - now intros [= <- <-].
  - rewrite pages_details_step.
    destruct (o_url page) as [slug|]; [|discriminate].
    cbv zeta.
    destruct (serve_obj R _ hdrs [] s) as [resp s1].
    cbn [fst snd].
    destruct (status_error resp); [discriminate|].
    rewrite (cap_reached_pos m_pos).
    destruct (Z.geb_spec (Z.of_nat (length (items ++ [body resp]))) m)
      as [Hcap|Hcap]; rewrite out_of_triple.
    + intros [= <- <-]. rewrite length_app in *; simpl length in *. lia.
    + now apply IH.
Qed.

Lemma pages_loop_bound fuel :
  forall url items (s : rstate R) got,
    (Z.of_nat (length items) < m)%Z ->
    out_of (pages_loop R fuel base_url course_id hdrs (Some m) url items s)
    = Ret got ->
    (Z.of_nat (length got) <= m)%Z.
Proof.
  induction fuel as [|fuel IH]; intros url items s got Hlen;
    destruct (truthy_opt url) eqn:Hurl;
    try (rewrite pages_loop_done by assumption; intros [= <-]; lia).
  - simpl; rewrite Hurl; discriminate.
  - rewrite pages_loop_step by assumption; cbv zeta.
    destruct (serve_list R (or_empty url) hdrs per_page s) as [resp s1].
    cbn [fst snd].
    destruct (status_error resp); [discriminate|].
    pose proof (pages_details_bound (body resp) items s1) as Hd.
    destruct (out_of (pages_details R base_url course_id hdrs (Some m)
                        (body resp) items s1))
      as [[flag mid]|e| |]; try discriminate.
    specialize (Hd flag mid Hlen eq_refl).
    destruct flag; rewrite out_of_triple.
    + intros [= <-]. lia.
    + now apply IH.
Qed.

End CapBound.

(** X6.  Whatever the remote serves (endless listings included) and
    whatever the loop budget, a harvest helper called with a cap of at
    least one never returns more than [max_items] records. *)
Theorem capped_harvest_is_bounded (R : Remote) (fuel : nat)
    (base_url token course_id : pystr) (m : Z) (s : rstate R)
    (got : list canvas_obj) :
  (0 < m)%Z ->
  out_of (get_pages R fuel base_url token course_id (Some m) s) = Ret got
  \/ out_of (get_assignments R fuel base_url token course_id (Some m) s)
     = Ret got
  \/ out_of (get_discussions R fuel base_url token course_id (Some m) s)
     = Ret got ->
  (Z.of_nat (length got) <= m)%Z.
Proof.
  intros Hm [H|[H|H]].
  - eapply (@pages_loop_bound R base_url course_id (canvas_headers token)
              m Hm fuel); [|exact H]. simpl; lia.
  - eapply (@listing_loop_bound R (canvas_headers token) m Hm fuel);
      [|exact H]. simpl; lia.
  - eapply (@listing_loop_bound R (canvas_headers token) m Hm fuel);
      [|exact H]. simpl; lia.
Qed.

(** X7.  A negative cap is truthy and always reached: [get_assignments]
    returns after its first accepted response with [items[:max_items]],
    that is the records of that page less the last [-max_items] of them,
    and follows no link. *)
Theorem negative_cap_drops_the_tail (R : Remote) (fuel : nat)
    (base_url token course_id : pystr) (m : Z) (s : rstate R)
    (resp : response (list canvas_obj)) (s1 : rstate R) :
  (m < 0)%Z ->
  serve_list R (assignments_endpoint base_url course_id)
    (canvas_headers token) per_page s = (resp, s1) ->
  status_error resp = None ->
  get_assignments R (S fuel) base_url token course_id (Some m) s
  = (Ret (firstn (length (body resp) - Z.to_nat (- m)) (body resp)), s1,
     [mkEvent (Get (assignments_endpoint base_url course_id)
                   (canvas_headers token) per_page) None]).
Proof.
  intros Hm Hserve Hok.
  unfold get_assignments.
  rewrite listing_loop_step by (now destruct base_url); cbv zeta.
  cbn [or_empty]; fold (assignments_endpoint base_url course_id).
  rewrite Hserve; cbn [fst snd app]; rewrite Hok.
  assert (Hcap : cap_reached (Some m) (body resp) = true).
  { unfold cap_reached. destruct (Z.eqb_spec m 0); [lia|].
    simpl. apply Z.geb_le. lia. }
  rewrite Hcap. do 2 f_equal. f_equal.
  unfold slice_to_cap, py_prefix, clamp_index.
  destruct (Z.ltb_spec m 0); [|lia].
  f_equal. lia.
Qed.

Section PagesRequests.
Variable R : Remote.
Variables base_url course_id : pystr.
Variable hdrs : headers.

Lemma pages_details_all_trace listing (s : rstate R) fulls s2 :
  serves_details R base_url course_id hdrs listing s fulls s2 ->
  forall items,
    let d := pages_details R base_url course_id hdrs None listing items s in
    length (trace_of d) = length fulls
    /\ Forall (fun ev => ev_error ev = None) (trace_of d).
Proof.
  induction 1 as [s | page rest slug s resp s1 fulls s2 Hslug Hserve Hok _ IH];
    intros items; cbv zeta.
  - split; [reflexivity | constructor].
  - rewrite pages_details_step, Hslug; cbv zeta.
    rewrite Hserve; cbn [fst snd]; rewrite Hok; cbn [cap_reached].
    rewrite trace_of_triple.
    destruct (IH (items ++ [body resp])) as [Hlen Hall].
    split; [simpl; now rewrite Hlen | now constructor].
Qed.

Lemma pages_loop_all_trace url (s : rstate R) pages s3 :
  serves_pages R base_url course_id hdrs url s pages s3 ->
  forall fuel items,
    length pages <= fuel ->
    let r := pages_loop R fuel base_url course_id hdrs None url items s in
    length (trace_of r) = length pages + length (concat pages)
    /\ Forall (fun ev => ev_error ev = None) (trace_of r).
Proof.
  induction 1
    as [url s Hurl
       | url s resp s1 fulls s2 pages s3 Hurl Hserve Hok Hdet _ IH];
    intros fuel items Hfuel; cbv zeta.
  - rewrite pages_loop_done by assumption.
    split; [reflexivity | constructor].
  - destruct fuel as [|fuel]; [simpl in Hfuel; lia|].
    rewrite pages_loop_step by assumption; cbv zeta.
    rewrite Hserve; cbn [fst snd]; rewrite Hok.
    destruct (pages_details_all Hdet items) as [Hout Hstate].
    destruct (pages_details_all_trace Hdet items) as [Hlen Hall].
    rewrite Hout, Hstate, trace_of_triple.
    destruct (IH fuel (items ++ fulls)) as [Hlen' Hall'];
      [simpl in Hfuel; lia|].
    split.
    + simpl length. rewrite !length_app, Hlen, Hlen'. simpl. lia.
    + constructor; [reflexivity|]. apply Forall_app; now split.
Qed.

End PagesRequests.

(** X8.  Against a remote that serves a finite sequence of pages of pages,
    and with a loop budget that covers them, [get_pages] without a cap
    returns the detail records in listing order and issues one request per
    listing page plus one detail request per record, all of them accepted:
    no record is taken from the listing itself. *)
Theorem get_pages_fetches_every_detail (R : Remote) (fuel : nat)
    (base_url token course_id : pystr) (s : rstate R)
    (pages : list (list canvas_obj)) (s' : rstate R) :
  serves_pages R base_url course_id (canvas_headers token)
    (Some (pages_endpoint base_url course_id)) s pages s' ->
  length pages <= fuel ->
  let run := get_pages R fuel base_url token course_id None s in
  out_of run = Ret (concat pages)
  /\ state_of run = s'
  /\ length (trace_of run) = length pages + length (concat pages)
  /\ length (detail_requests (trace_of run)) = length (concat pages)
  /\ Forall (fun ev => ev_error ev = None) (trace_of run).
Proof.
  intros Hchain Hfuel run; subst run; unfold get_pages.
  destruct (pages_loop_all Hchain [] Hfuel) as [Hout Hstate].
  destruct (pages_loop_all_trace Hchain [] Hfuel) as [Hlen Hall].
  pose proof (@pages_loop_count R base_url course_id (canvas_headers token)
                None fuel _ [] s _ Hout) as Hcount.
  cbv zeta in Hcount; rewrite Nat.add_0_r in Hcount.
  fold (pages_endpoint base_url course_id).
  repeat split; assumption.
Qed.

(** ** The fetch handler *)

Section FetchFacts.
Variable R : Remote.

Lemma bind_ret_inv {A B : Type} (m : M R A) (k : A -> M R B)
    (s : rstate R) (b : B) (s' : rstate R) (t : list event) :
  bind m k s = (Ret b, s', t) ->
  exists a s1 t1 t2,
    m s = (Ret a, s1, t1) /\ k a s1 = (Ret b, s', t2) /\ t = t1 ++ t2.
Proof.
  unfold bind.
  destruct (m s) as [[[a| | |] s1] t1]; try discriminate.
  destruct (k a s1) as [[o s2] t2] eqn:Hk.
  intros [= -> -> <-]. now exists a, s1, t1, t2.
Qed.

Lemma map_m_forall {A B : Type} (f : A -> M R B) (P : B -> Prop)
    (l : list A) :
  (forall a s b s' t, f a s = (Ret b, s', t) -> P b) ->
  forall s bs s' t, map_m f l s = (Ret bs, s', t) -> Forall P bs.
Proof.
  intros Hf; induction l as [|a l IH]; intros s bs s' t; simpl.
  - intros [= <- _ _]; constructor.
  - intros H.
    apply bind_ret_inv in H as (b & s1 & t1 & t2 & Hb & H & _).
    apply bind_ret_inv in H as (bs' & s2 & t3 & t4 & Hbs & H & _).
    injection H as <- _ _.
    constructor; [eapply Hf; eassumption | eapply IH; eassumption].
Qed.

Lemma map_m_pure {A B : Type} (f : A -> M R B) (l : list A) (bs : list B) :
  Forall2 (fun a b => forall s, f a s = (Ret b, s, [])) l bs ->
  forall s, map_m f l s = (Ret bs, s, []).
Proof.
  induction 1 as [|a b l bs Hab _ IH]; intros s; simpl; [reflexivity|].
  unfold bind; rewrite Hab, IH. reflexivity.
Qed.

Lemma page_item_fresh p (s : rstate R) it s' t :
  page_item p s = (Ret it, s', t) -> fresh it = true.
Proof.
  unfold page_item.
  destruct (o_page_id p), (o_url p), (o_title p); simpl;
    try discriminate.
  now intros [= <- _ _].
Qed.

Lemma assignment_item_fresh a (s : rstate R) it s' t :
  assignment_item a s = (Ret it, s', t) -> fresh it = true.
Proof.
  unfold assignment_item.
  destruct (o_id a), (o_name a); simpl; try discriminate.
  now intros [= <- _ _].
Qed.

Lemma discussion_item_fresh d (s : rstate R) it s' t :
  discussion_item d s = (Ret it, s', t) -> fresh it = true.
Proof.
  unfold discussion_item.
  destruct (o_id d), (o_title d); simpl; try discriminate.
  now intros [= <- _ _].
Qed.

Lemma harvest_course_result fuel base_url token target sess
    (s : rstate R) sess' n s' t :
  harvest_course R fuel base_url token target sess s
  = (Ret (sess', n), s', t) ->
  n = Loaded (length (content_items sess')) target
  /\ course_id sess' = Some target
  /\ rewrite_done sess' = false
  /\ model_context sess' = model_context sess
  /\ forallb fresh (content_items sess') = true.
Proof.
  unfold harvest_course; intros H.
  apply bind_ret_inv in H as (c & s1 & t1 & u1 & _ & H & _).
  apply bind_ret_inv in H as (pages & s2 & t2 & u2 & _ & H & _).
  apply bind_ret_inv in H as (asg & s3 & t3 & u3 & _ & H & _).
  apply bind_ret_inv in H as (dis & s4 & t4 & u4 & _ & H & _).
  apply bind_ret_inv in H as (ps & s5 & t5 & u5 & Hps & H & _).
  apply bind_ret_inv in H as (qs & s6 & t6 & u6 & Hqs & H & _).
  apply bind_ret_inv in H as (ds & s7 & t7 & u7 & Hds & H & _).
  injection H as <- <- _ _; simpl.
  repeat split.
  apply forallb_forall; intros it Hin.
  apply (@map_m_forall _ _ (@page_item R) (fun it => fresh it = true) _
           page_item_fresh) in Hps.
  apply (@map_m_forall _ _ (@assignment_item R)
           (fun it => fresh it = true) _ assignment_item_fresh) in Hqs.
  apply (@map_m_forall _ _ (@discussion_item R)
           (fun it => fresh it = true) _ discussion_item_fresh) in Hds.
  rewrite Forall_forall in Hps, Hqs, Hds.
  rewrite !in_app_iff in Hin. destruct Hin as [Hin|[Hin|Hin]]; auto.
Qed.

(** X9.  The fetch handler replaces the snapshot only when it reports
    success, and then wholesale: the new session holds the new course id,
    [rewrite_done] reset, the model context it had, and only fresh items
    (nothing rewritten, nothing approved, no failure recorded), as many as
    the count shown to the operator.  In every other case (no course id
    given, missing configuration, any exception of the harvest or of the
    construction of the items) the session is exactly what it was. *)
Theorem fetch_replaces_or_keeps (fuel : nat) (cfg : config)
    (target_course_id : pystr) (sess : session) (s : rstate R) :
  let run := fetch_course_content R fuel cfg target_course_id sess s in
  match run_outcome run with
  | Ret (Loaded count course) =>
      course = target_course_id
      /\ count = length (content_items (run_session run))
      /\ course_id (run_session run) = Some target_course_id
      /\ rewrite_done (run_session run) = false
      /\ model_context (run_session run) = model_context sess
      /\ forallb fresh (content_items (run_session run)) = true
  | _ => run_session run = sess
  end.
Proof.
  intros run; subst run.
  unfold fetch_course_content.
  destruct (truthy target_course_id); cbn [negb]; cbv beta iota;
    [|reflexivity].
  unfold run_block, bind, get_canvas_config.
  destruct (negb _ || negb _); [reflexivity|].
  unfold ret, try_except; cbv beta iota; cbn [fst snd].
  match goal with
  | |- context [harvest_course R fuel ?b ?t ?c sess s] =>
      pose proof (@harvest_course_result fuel b t c sess s) as Hres;
      destruct (harvest_course R fuel b t c sess s) as [[o s1] t1]
  end.
  destruct o as [[sess' n]|e| |]; try reflexivity.
  destruct (Hres sess' n s1 t1 eq_refl) as (-> & Hc & Hd & Hm & Hf).
  unfold run_outcome, run_session; cbn [fst snd].
  repeat split; assumption.
Qed.

Lemma emits_ret {A : Type} P (a : A) : emits P (@ret R A a).
Proof. intros s; constructor. Qed.

Lemma emits_raise {A : Type} P (e : pystr) : emits P (@raise R A e).
Proof. intros s; constructor. Qed.

Lemma emits_bind {A B : Type} P (m : M R A) (k : A -> M R B) :
  emits P m -> (forall a, emits P (k a)) -> emits P (bind m k).
Proof.
  intros Hm Hk s; specialize (Hm s).
  unfold bind, trace_of in *.
  destruct (m s) as [[[a| | |] s1] t1]; simpl in *; try exact Hm.
  specialize (Hk a s1); unfold trace_of in Hk.
  destruct (k a s1) as [[o s2] t2]; simpl in *.
  apply Forall_app; now split.
Qed.

Lemma emits_try_except {A : Type} P (m : M R A) (h : pystr -> M R A) :
  emits P m -> (forall e, emits P (h e)) -> emits P (try_except m h).
Proof.
  intros Hm Hh s; specialize (Hm s).
  unfold try_except, trace_of in *.
  destruct (m s) as [[[a|e| |] s1] t1]; simpl in *; try exact Hm.
  specialize (Hh e s1); unfold trace_of in Hh.
  destruct (h e s1) as [[o s2] t2]; simpl in *.
  apply Forall_app; now split.
Qed.

Lemma emits_getitem {A : Type} P (k : string) (v : option A) :
  emits P (@getitem R A k v).
Proof. destruct v; [apply emits_ret | apply emits_raise]. Qed.

Lemma emits_get_list hdrs url params :
  emits (is_get_with hdrs) (@requests_get_list R url hdrs params).
Proof.
  intros s; unfold requests_get_list, trace_of.
  destruct (serve_list R url hdrs params s) as [resp s1]; simpl.
  repeat constructor.
Qed.

Lemma emits_get_obj hdrs url params :
  emits (is_get_with hdrs) (@requests_get_obj R url hdrs params).
Proof.
  intros s; unfold requests_get_obj, trace_of.
  destruct (serve_obj R url hdrs params s) as [resp s1]; simpl.
  repeat constructor.
Qed.

Lemma emits_raise_for_status {B : Type} P (resp : response B) :
  emits P (@raise_for_status R B resp).
Proof.
  unfold raise_for_status.
  destruct (status_error resp); [apply emits_raise | apply emits_ret].
Qed.

Lemma emits_pages_details base_url course_id hdrs max_items listing :
  forall items,
    emits (is_get_with hdrs)
      (pages_details R base_url course_id hdrs max_items listing items).
Proof.
  induction listing as [|page rest IH]; intros items; simpl.
  - apply emits_ret.
  - apply emits_bind; [apply emits_getitem | intros slug].
    apply emits_bind; [apply emits_get_obj | intros resp].
    apply emits_bind; [apply emits_raise_for_status | intros _].
    destruct (cap_reached _ _); [apply emits_ret | apply IH].
Qed.

Lemma emits_pages_loop base_url course_id hdrs max_items fuel :
  forall url items,
    emits (is_get_with hdrs)
      (pages_loop R fuel base_url course_id hdrs max_items url items).
Proof.
  induction fuel as [|fuel IH]; intros url items; simpl;
    destruct (truthy_opt url);
    try apply emits_ret; try (intros s; constructor).
  apply emits_bind; [apply emits_get_list | intros resp].
  apply emits_bind; [apply emits_raise_for_status | intros _].
  apply emits_bind; [apply emits_pages_details | intros [returned got]].
  simpl; destruct returned; [apply emits_ret | apply IH].
Qed.

Lemma emits_listing_loop hdrs max_items fuel :
  forall url items,
    emits (is_get_with hdrs) (listing_loop R fuel hdrs max_items url items).
Proof.
  induction fuel as [|fuel IH]; intros url items; simpl;
    destruct (truthy_opt url);
    try apply emits_ret; try (intros s; constructor).
  apply emits_bind; [apply emits_get_list | intros resp].
  apply emits_bind; [apply emits_raise_for_status | intros _].
  destruct (cap_reached _ _); [apply emits_ret | apply IH].
Qed.

Lemma emits_map_m {A B : Type} P (f : A -> M R B) (l : list A) :
  (forall a, emits P (f a)) -> emits P (map_m f l).
Proof.
  intros Hf; induction l as [|a l IH]; simpl.
  - apply emits_ret.
  - apply emits_bind; [apply Hf | intros b].
    apply emits_bind; [apply IH | intros bs; apply emits_ret].
Qed.

Lemma emits_harvest_course fuel base_url token target sess :
  emits (is_get_with (canvas_headers token))
    (harvest_course R fuel base_url token target sess).
Proof.
  unfold harvest_course, get_course.
  apply emits_bind.
  { apply emits_bind; [apply emits_get_obj | intros resp].
    apply emits_bind; [apply emits_raise_for_status | intros _].
    apply emits_ret. }
  intros _.
  apply emits_bind; [apply emits_pages_loop | intros pages].
  apply emits_bind; [apply emits_listing_loop | intros assignments].
  apply emits_bind; [apply emits_listing_loop | intros discussions].
  apply emits_bind.
  { apply emits_map_m; intros p; unfold page_item.
    repeat (apply emits_bind; [apply emits_getitem | intros]).
    apply emits_ret. }
  intros ps. apply emits_bind.
  { apply emits_map_m; intros p; unfold assignment_item.
    repeat (apply emits_bind; [apply emits_getitem | intros]).
    apply emits_ret. }
  intros qs. apply emits_bind.
  { apply emits_map_m; intros p; unfold discussion_item.
    repeat (apply emits_bind; [apply emits_getitem | intros]).
    apply emits_ret. }
  intros ds. apply emits_ret.
Qed.

(** X10.  Fetching a course only reads: every request of the handler's
    run is a [GET] sent with the headers built from the configured token;
    no update and no transform call is ever issued. *)
Theorem fetch_only_reads (fuel : nat) (cfg : config)
    (target_course_id : pystr) (sess : session) (s : rstate R) :
  Forall (is_get_with (canvas_headers (canvas_token cfg)))
    (run_trace (fetch_course_content R fuel cfg target_course_id sess s)).
Proof.
  unfold fetch_course_content.
  destruct (truthy target_course_id); cbn [negb]; cbv beta iota;
    [|constructor].
  unfold run_block, run_trace, bind, get_canvas_config.
  destruct (negb _ || negb _); [constructor|].
  unfold ret at 1; cbv beta iota; cbn [fst snd].
  fold (canvas_token cfg) (canvas_base cfg).
  pose proof (@emits_try_except _ (is_get_with
                                     (canvas_headers (canvas_token cfg)))
                (harvest_course R fuel (canvas_base cfg) (canvas_token cfg)
                   target_course_id sess)
                (fun e => ret (sess, FetchError e))
                (emits_harvest_course _ _ _ _ _)
                (fun e => emits_ret _ _) s) as H.
  unfold trace_of in H.
  destruct (try_except _ _ s) as [[[[sess' n]|e| |] s1] t1]; exact H.
Qed.

End FetchFacts.

Section FetchInOrder.
Variable R : Remote.

Lemma out_of_bind {A B : Type} (m : M R A) (k : A -> M R B)
    (s : rstate R) (a : A) :
  out_of (m s) = Ret a ->
  out_of (bind m k s) = out_of (k a (state_of (m s)))
  /\ state_of (bind m k s) = state_of (k a (state_of (m s))).
Proof.
  unfold bind, out_of, state_of.
  destruct (m s) as [[o s1] t1]; simpl; intros ->.
  now destruct (k a s1) as [[o2 s2] t2].
Qed.

Lemma bind_step {A B : Type} (m : M R A) (k : A -> M R B)
    (s : rstate R) (a : A) (s1 : rstate R) (o : outcome B)
    (st : rstate R) :
  out_of (m s) = Ret a ->
  state_of (m s) = s1 ->
  out_of (k a s1) = o /\ state_of (k a s1) = st ->
  out_of (bind m k s) = o /\ state_of (bind m k s) = st.
Proof.
  intros Hm <- [<- <-]. now apply out_of_bind.
Qed.

Lemma get_course_run base_url token course (s : rstate R) r0 s0 :
  serve_obj R (base_url ++ py "/api/v1/courses/" ++ course)
    (canvas_headers token) [] s = (r0, s0) ->
  status_error r0 = None ->
  out_of (get_course base_url token course s) = Ret (body r0)
  /\ state_of (get_course base_url token course s) = s0.
Proof.
  intros Hserve Hok.
  unfold get_course, bind, requests_get_obj, raise_for_status.
  rewrite Hserve, Hok. now split.
Qed.

(** X11.  A fetch that goes through builds the registry in harvest order:
    with the course found, the three collections served as finite sequences
    of pages within the loop budget, and every record carrying the keys
    read from it, the session holds the items made from the pages, then
    those made from the assignments, then those made from the discussions,
    each collection in the order served. *)
Theorem fetch_builds_registry_in_order (fuel : nat) (cfg : config)
    (target : pystr) (sess : session) (s : rstate R)
    (r0 : response canvas_obj) (s0 s1 s2 s3 : rstate R)
    (pages asg dis : list (list canvas_obj)) (ps qs ds : list item) :
  let base_url := canvas_base cfg in
  let token := canvas_token cfg in
  let hdrs := canvas_headers token in
  truthy target = true ->
  canvas_configured cfg = true ->
  serve_obj R (base_url ++ py "/api/v1/courses/" ++ target) hdrs [] s
  = (r0, s0) ->
  status_error r0 = None ->
  serves_pages R base_url target hdrs
    (Some (pages_endpoint base_url target)) s0 pages s1 ->
  serves_listing R hdrs (Some (assignments_endpoint base_url target))
    s1 asg s2 ->
  serves_listing R hdrs (Some (discussions_endpoint base_url target))
    s2 dis s3 ->
  length pages <= fuel -> length asg <= fuel -> length dis <= fuel ->
  Forall2 (fun p it => forall st : rstate R,
             page_item p st = (Ret it, st, [])) (concat pages) ps ->
  Forall2 (fun a it => forall st : rstate R,
             assignment_item a st = (Ret it, st, [])) (concat asg) qs ->
  Forall2 (fun d it => forall st : rstate R,
             discussion_item d st = (Ret it, st, [])) (concat dis) ds ->
  let run := fetch_course_content R fuel cfg target sess s in
  run_session run
  = mkSession (ps ++ qs ++ ds) (model_context sess) (Some target) false
  /\ run_outcome run = Ret (Loaded (length (ps ++ qs ++ ds)) target)
  /\ run_state run = s3.
Proof.
  intros base_url token hdrs Htarget Hcfg Hserve Hok Hp Ha Hd
    Fp Fa Fd Ip Ia Id run.
  subst hdrs.
  assert (Hrun : out_of (harvest_course R fuel base_url token target sess s)
                 = Ret (mkSession (ps ++ qs ++ ds) (model_context sess)
                                  (Some target) false,
                        Loaded (length (ps ++ qs ++ ds)) target)
                 /\ state_of (harvest_course R fuel base_url token target
                                sess s) = s3).
  { unfold harvest_course.
    destruct (get_course_run _ _ _ _ Hserve Hok) as [O1 S1].
    eapply bind_step; [exact O1 | exact S1 | cbv beta].
    destruct (pages_loop_all Hp [] Fp) as [O2 S2]; simpl app in O2.
    eapply bind_step; [exact O2 | exact S2 | cbv beta].
    destruct (listing_loop_all Ha [] Fa) as [O3 S3]; simpl app in O3.
    eapply bind_step; [exact O3 | exact S3 | cbv beta].
    destruct (listing_loop_all Hd [] Fd) as [O4 S4]; simpl app in O4.
    eapply bind_step; [exact O4 | exact S4 | cbv beta].
    unfold bind.
    rewrite (@map_m_pure _ _ _ _ _ _ Ip), (@map_m_pure _ _ _ _ _ _ Ia),
      (@map_m_pure _ _ _ _ _ _ Id).
    now split. }
  destruct Hrun as [Hout Hstate].
  subst run; unfold fetch_course_content.
  rewrite Htarget; cbn [negb]; cbv beta iota.
  unfold canvas_configured in Hcfg; apply andb_prop in Hcfg as [Hb Ht].
  unfold run_block, bind, get_canvas_config.
  rewrite Hb, Ht; cbn [negb orb].
  unfold ret, try_except; cbv beta iota; cbn [fst snd].
  unfold out_of, state_of, base_url, token, canvas_base, canvas_token
    in Hout, Hstate.
  destruct (harvest_course R fuel _ _ target sess s)
    as [[o st] t]; cbn [fst snd] in Hout, Hstate; subst o st.
  now repeat split.
Qed.

End FetchInOrder.

(** ** The rewrite step *)

Section RewriteKeeps.
Variable R : Remote.
Variable cfg : config.
Variable client : ai_client.
Variables mc gi : pystr.

Lemma rewrite_one_keeps (it : item) (s : rstate R) it' s' t :
  rewrite_one R cfg client mc gi it s = (Ret it', s', t) ->
  kept_by_rewrite it' = kept_by_rewrite it.
Proof.
  unfold rewrite_one, try_except, rewrite_item.
  destruct (truthy (original_html it)).
  - destruct (negb (truthy_opt (setting cfg "OPENAI_MODEL")));
      [discriminate|].
    unfold bind, chat_completions_create.
    destruct (serve_chat R client _ _ 0%Z s) as [[msg|[|c cs]] s1]; simpl;
      now intros [= <- _ _].
  - simpl. now intros [= <- _ _].
Qed.

Lemma rewrite_loop_keeps (items : list item) :
  forall s,
    map kept_by_rewrite
      (loop_items (rewrite_loop R cfg client mc gi items s))
    = map kept_by_rewrite items.
Proof.
  induction items as [|it rest IH]; intros s; [reflexivity|].
  simpl rewrite_loop.
  destruct (rewrite_one R cfg client mc gi it s)
    as [[[it'| | |] s1] t1] eqn:E; try reflexivity.
  specialize (IH s1).
  destruct (rewrite_loop R cfg client mc gi rest s1)
    as [[[rest' o] s2] t2].
  unfold loop_items in *; cbn [fst snd] in *.
  simpl map. now rewrite IH, (rewrite_one_keeps _ _ E).
Qed.

End RewriteKeeps.

(** X12.  The rewrite step touches nothing but [rewritten_html] and
    [rewrite_error]: whatever the configuration and whatever the model
    deployment answers, the handler leaves the same number of items, each
    with its type, identifiers, title, [original_html] and approval as
    before (so an approved item stays approved through a failed or a
    successful rewrite), and leaves the course id and the model context as
    they were. *)
Theorem rewrite_keeps_the_rest (R : Remote) (cfg : config)
    (global_instructions : pystr) (sess : session) (s : rstate R) :
  let run := run_rewrite_all R cfg global_instructions sess s in
  map kept_by_rewrite (content_items (run_session run))
  = map kept_by_rewrite (content_items sess)
  /\ course_id (run_session run) = course_id sess
  /\ model_context (run_session run) = model_context sess.
Proof.
  intros run; subst run; unfold run_rewrite_all.
  destruct (negb _); [now repeat split|].
  destruct (get_ai_client cfg s) as [[[cl| | |] s0] t0];
    try now repeat split.
  pose proof (rewrite_loop_keeps R cfg cl (model_context sess)
                global_instructions (content_items sess) s0) as Hk.
  destruct (rewrite_loop R cfg cl (model_context sess) global_instructions
              (content_items sess) s0) as [[[items o] s1] t1].
  unfold loop_items in Hk; cbn [fst snd] in Hk.
  destruct o; unfold run_session; cbn [fst snd content_items];
    now repeat split.
Qed.

Section RewriteRequests.
Variable R : Remote.
Variable cfg : config.
Variable client : ai_client.
Variables mc gi : pystr.

Hypothesis model_configured :
  truthy_opt (setting cfg "OPENAI_MODEL") = true.

Lemma rewrite_one_call (it : item) (s : rstate R) :
  map ev_call (trace_of (rewrite_one R cfg client mc gi it s))
  = if has_content it then [transform_call cfg client mc gi it] else [].
Proof.
  unfold rewrite_one, try_except, rewrite_item, has_content,
    transform_call.
  destruct (truthy (original_html it)); [|reflexivity].
  rewrite model_configured; simpl negb; cbv iota.
  unfold bind, chat_completions_create.
  now destruct (serve_chat R client _ _ 0%Z s) as [[msg|[|c cs]] s1].
Qed.

(** X13.  With the deployment name configured, the rewrite-all loop issues
    exactly one transform request per item that has content, in registry
    order, each for the deployment named in the configuration, at
    temperature 0, with the prompt compiled from that item as it was
    fetched, the session's model context and the instructions: nothing of
    the answers to earlier items enters a later request. *)
Theorem rewrite_requests_in_order (items : list item) (s : rstate R) :
  map ev_call (loop_trace (rewrite_loop R cfg client mc gi items s))
  = map (transform_call cfg client mc gi) (filter has_content items).
Proof.
  revert s; induction items as [|it rest IH]; intros s; [reflexivity|].
  destruct (rewrite_loop_cons R cfg client mc gi model_configured it rest s)
    as (s1 & t1 & E & ->).
  pose proof (rewrite_one_call it s) as Hc. rewrite E in Hc.
  unfold loop_trace at 1; cbn [snd].
  rewrite map_app, IH; rewrite trace_of_triple in Hc; rewrite Hc.
  simpl filter. now destruct (has_content it).
Qed.

End RewriteRequests.

Section RewriteWithoutModel.
Variable R : Remote.
Variable cfg : config.
Variable client : ai_client.
Variables mc gi : pystr.

Hypothesis model_missing :
  truthy_opt (setting cfg "OPENAI_MODEL") = false.

Lemma rewrite_one_without_model (it : item) (s : rstate R) :
  rewrite_one R cfg client mc gi it s
  = if has_content it then (Stop, s, [])
    else (Ret (set_rewritten_html [] it), s, []).
Proof.
  unfold rewrite_one, try_except, rewrite_item, has_content.
  destruct (truthy (original_html it)); [|reflexivity].
  now rewrite model_missing.
Qed.

Lemma rewrite_loop_without_model (items : list item) (s : rstate R) :
  let run := rewrite_loop R cfg client mc gi items s in
  loop_trace run = []
  /\ loop_state run = s
  /\ loop_outcome run
     = if existsb has_content items then Stop else Ret tt.
Proof.
  induction items as [|it rest IH]; [now repeat split|].
  cbv zeta in *. simpl rewrite_loop.
  rewrite rewrite_one_without_model. simpl existsb.
  destruct (has_content it); [now repeat split|].
  destruct (rewrite_loop R cfg client mc gi rest s)
    as [[[rest' o] s2] t2].
  unfold loop_trace, loop_state, loop_outcome in *; cbn [fst snd] in *.
  destruct IH as (-> & -> & ->). now repeat split.
Qed.

End RewriteWithoutModel.

(** X14.  Without a deployment name ([OPENAI_MODEL] missing or empty) the
    rewrite handler never calls the model: on a session with at least one
    item that has content, the run sends no request, leaves the remote as
    it was, does not report completion (the script is stopped, or the
    button was disabled) and leaves [rewrite_done] as it was. *)
Theorem rewrite_without_model_sends_nothing (R : Remote) (cfg : config)
    (global_instructions : pystr) (sess : session) (s : rstate R) :
  truthy_opt (setting cfg "OPENAI_MODEL") = false ->
  existsb has_content (content_items sess) = true ->
  let run := run_rewrite_all R cfg global_instructions sess s in
  run_trace run = []
  /\ run_state run = s
  /\ (run_outcome run = Stop \/ run_outcome run = Ret ButtonDisabled)
  /\ rewrite_done (run_session run) = rewrite_done sess.
Proof.
  intros Hmodel Hcontent run; subst run; unfold run_rewrite_all.
  destruct (negb _); [now repeat split; auto|].
  unfold get_ai_client.
  destruct (negb _ || negb _); [now repeat split; auto|].
  unfold ret; cbv beta iota.
  match goal with
  | |- context [rewrite_loop R cfg ?c ?m ?g ?l s] =>
      destruct (rewrite_loop_without_model R cfg c m g Hmodel l s)
        as (Ht & Hs & Ho);
      destruct (rewrite_loop R cfg c m g l s) as [[[items o] s1] t1]
  end.
  unfold loop_trace, loop_state, loop_outcome in *; cbn [fst snd] in *.
  rewrite Hcontent in Ho; subst.
  now repeat split; auto.
Qed.

(** ** Trimming *)

Lemma drop_while_split (p : N -> bool) (s : pystr) :
  s = take_while p s ++ drop_while p s.
Proof.
  induction s as [|c s IH]; simpl; [reflexivity|].
  destruct (p c); simpl; [now f_equal | reflexivity].
Qed.

Lemma take_while_all (p : N -> bool) (s : pystr) :
  forallb p (take_while p s) = true.
Proof.
  induction s as [|c s IH]; simpl; [reflexivity|].
  destruct (p c) eqn:E; simpl; [now rewrite E | reflexivity].
Qed.

Lemma drop_while_head (p : N -> bool) (s : pystr) :
  match drop_while p s with [] => True | c :: _ => p c = false end.
Proof.
  induction s as [|c s IH]; simpl; [exact I|].
  destruct (p c) eqn:E; [exact IH | exact E].
Qed.

Lemma drop_while_fixed (p : N -> bool) (s : pystr) :
  match s with [] => True | c :: _ => p c = false end ->
  drop_while p s = s.
Proof. destruct s as [|c s]; simpl; [reflexivity | now intros ->]. Qed.

Lemma drop_while_all (p : N -> bool) (s : pystr) :
  forallb p s = true -> drop_while p s = [].
Proof.
  induction s as [|c s IH]; simpl; [reflexivity|].
  intros H; apply andb_prop in H as [-> H]; now apply IH.
Qed.

Lemma lstrip_idempotent (s : pystr) : lstrip (lstrip s) = lstrip s.
Proof. apply drop_while_fixed, drop_while_head. Qed.

Lemma rstrip_idempotent (s : pystr) : rstrip (rstrip s) = rstrip s.
Proof.
  unfold rstrip; rewrite rev_involutive.
  f_equal; apply drop_while_fixed, drop_while_head.
Qed.

(** Trimming the right end does not uncover whitespace at the left end. *)
Lemma lstrip_rstrip (s : pystr) :
  lstrip s = s -> lstrip (rstrip s) = rstrip s.
Proof.
  intros Hs. apply drop_while_fixed.
  unfold rstrip.
  pose proof (drop_while_split isspace (rev s)) as Hsplit.
  destruct (drop_while isspace (rev s)) as [|c z] eqn:Hz; [exact I|].
  apply (f_equal (@rev N)) in Hsplit.
  rewrite rev_involutive, rev_app_distr in Hsplit.
  destruct (rev (c :: z)) as [|d y] eqn:Hy.
  - apply (f_equal (@length N)) in Hy.
    rewrite length_rev in Hy; discriminate.
  - rewrite Hsplit in Hs; simpl in Hs.
    pose proof (drop_while_head isspace
                  (d :: y ++ rev (take_while isspace (rev s)))) as Hd.
    unfold lstrip in Hs; rewrite Hs in Hd. exact Hd.
Qed.

Lemma strip_idempotent (s : pystr) : strip (strip s) = strip s.
Proof.
  unfold strip.
  rewrite lstrip_rstrip by apply lstrip_idempotent.
  apply rstrip_idempotent.
Qed.

Lemma strip_blank (s : pystr) : forallb isspace s = true -> strip s = [].
Proof.
  intros H; unfold strip, lstrip. now rewrite drop_while_all.
Qed.

(** X15.  Whatever [rewrite_item] returns is trimmed: trimming it again
    changes nothing, at either end. *)
Theorem rewrite_item_returns_trimmed (R : Remote) (cfg : config)
    (client : ai_client) (it : item) (mc gi : pystr) (s : rstate R)
    (out : pystr) (s' : rstate R) (t : list event) :
  rewrite_item R cfg client it mc gi s = (Ret out, s', t) ->
  strip out = out /\ lstrip out = out /\ rstrip out = out.
Proof.
  unfold rewrite_item.
  destruct (negb _); [discriminate|].
  unfold bind, chat_completions_create.
  destruct (serve_chat R client _ _ 0%Z s) as [[msg|[|c cs]] s1]; simpl;
    try discriminate.
  intros [= <- _ _].
  split; [apply strip_idempotent|]. split.
  - unfold strip. apply lstrip_rstrip, lstrip_idempotent.
  - unfold strip. apply rstrip_idempotent.
Qed.

(** X16.  An answer that is empty, absent or made of whitespace only is not
    a failure: the item's [rewritten_html] becomes empty and no error is
    recorded on it.  Such an item has nothing to show as proposed and is
    never selected for write-back, approved or not. *)
Theorem blank_answer_leaves_nothing_to_write (R : Remote) (cfg : config)
    (client : ai_client) (mc gi : pystr) (items : list item)
    (s : rstate R) (j : nat) (it : item) (content : option pystr)
    (others : list (option pystr)) :
  truthy_opt (setting cfg "OPENAI_MODEL") = true ->
  nth_error items j = Some it ->
  has_content it = true ->
  reply_for R cfg client mc gi it (state_before R cfg client mc gi items j s)
  = ChatReturns (content :: others) ->
  forallb isspace (or_empty content) = true ->
  nth_error (loop_items (rewrite_loop R cfg client mc gi items s)) j
  = Some (set_rewritten_html [] it)
  /\ rewrite_error (set_rewritten_html [] it) = rewrite_error it
  /\ has_rewrite (set_rewritten_html [] it) = false
  /\ forall flag,
       selected (set_approved flag (set_rewritten_html [] it)) = false.
Proof.
  intros Hmodel Hj Hcontent Hreply Hblank.
  split; [|split; [reflexivity | split; [reflexivity|]]].
  - rewrite (rewrite_loop_nth R cfg client mc gi Hmodel items s j Hj).
    rewrite Hreply. unfold after_reply.
    unfold has_content in Hcontent; rewrite Hcontent.
    now rewrite strip_blank.
  - intros flag; unfold selected; simpl. apply andb_false_r.
Qed.

(** ** The payload *)

Ltac rstrip_nonempty :=
  first [ apply rstrip_app_nonempty; rstrip_nonempty
        | vm_compute; discriminate ].

Lemma prompt_head_trimmed (gi : pystr) :
  lstrip (prompt_head gi)
  = prompt_intro
    ++ (if truthy gi then gi else default_instructions) ++ nl
    ++ nl
    ++ py "    ### Model course/style examples" ++ nl
    ++ py "    ".
Proof.
  unfold prompt_head, prompt_intro.
  rewrite 2!app_assoc.
  rewrite lstrip_app by (vm_compute; discriminate).
  replace (lstrip ((nl ++ py "    ") ++ base_rules)) with (tl base_rules)
    by (vm_compute; reflexivity).
  now rewrite <- !app_assoc.
Qed.

Lemma prompt_tail_trimmed (it : item) :
  rstrip (prompt_tail it)
  = nl
    ++ nl
    ++ py "    ### Target item metadata" ++ nl
    ++ py "    - Type: " ++ type_name (type it) ++ nl
    ++ py "    - Title: " ++ title it ++ nl
    ++ nl
    ++ py "    ### Original HTML" ++ nl
    ++ py "    " ++ original_html it ++ prompt_outro.
Proof.
  unfold prompt_tail.
  do 15 (rewrite rstrip_app by rstrip_nonempty).
  do 15 (apply f_equal).
  vm_compute; reflexivity.
Qed.

Lemma ends_with_weaken (suffix x e : pystr) :
  ends_with suffix e = true -> ends_with suffix (x ++ e) = true.
Proof.
  unfold ends_with; rewrite rev_app_distr. apply starts_with_weaken.
Qed.

(** X17.  The payload is the fixed template with its five holes filled
    verbatim: the instructions (the default sentence when they are empty;
    the section is never empty), the bounded model context, the item's
    type, its title and its [original_html].  The final trim only removes
    the blank lines of the template itself: the payload always starts with
    the rules and ends with the output instruction, and no character of the
    item or of the instructions is dropped or altered. *)
Theorem build_rewrite_prompt_template (it : item)
    (model_context : option pystr) (global_instructions : pystr) :
  build_rewrite_prompt it model_context global_instructions
  = prompt_intro
    ++ (if truthy global_instructions then global_instructions
        else default_instructions) ++ nl
    ++ nl
    ++ py "    ### Model course/style examples" ++ nl
    ++ py "    " ++ bounded_model_context model_context ++ nl
    ++ nl
    ++ py "    ### Target item metadata" ++ nl
    ++ py "    - Type: " ++ type_name (type it) ++ nl
    ++ py "    - Title: " ++ title it ++ nl
    ++ nl
    ++ py "    ### Original HTML" ++ nl
    ++ py "    " ++ original_html it ++ prompt_outro
  /\ starts_with (py "You are an expert Canvas HTML editor.") 
       (build_rewrite_prompt it model_context global_instructions) = true
  /\ ends_with (py "Return ONLY the rewritten HTML.")
       (build_rewrite_prompt it model_context global_instructions) = true
  /\ truthy (if truthy global_instructions then global_instructions
             else default_instructions) = true.
Proof.
  assert (E : build_rewrite_prompt it model_context global_instructions
              = lstrip (prompt_head global_instructions)
                ++ bounded_model_context model_context
                ++ rstrip (prompt_tail it)).
  { unfold build_rewrite_prompt.
    apply strip_sandwich; [apply prompt_head_starts | apply prompt_tail_ends]. }
  split; [|split; [|split]].
  - rewrite E, prompt_head_trimmed, prompt_tail_trimmed.
    now rewrite <- !app_assoc.
  - rewrite E, prompt_head_trimmed.
    rewrite <- app_assoc. apply starts_with_weaken.
    vm_compute; reflexivity.
  - rewrite E, prompt_tail_trimmed.
    rewrite !app_assoc. apply ends_with_weaken.
    vm_compute; reflexivity.
  - destruct (truthy global_instructions) eqn:Hg; [exact Hg | reflexivity].
Qed.

(** ** Approvals and write-back, composed *)





Section WriteBackSuccess.
Variable R : Remote.
Variables base_url token course : pystr.

Lemma write_item_event (it : item) (s : rstate R) :
  let r := write_item R base_url token course it s in
  match put_call_of base_url token course it with
  | Some c =>
      trace_of r = [mkEvent c (failure_of (out_of r))]
  | None => trace_of r = [] /\ failure_of (out_of r) <> None
  end.
Proof.
  unfold write_item, put_call_of,
    update_page_html, update_assignment_html, update_discussion_html.
  destruct (type it);
    [destruct (url_slug it) as [v|] | destruct (canvas_id it) as [v|] ..];
    cbn [getitem option_map];
    rewrite ?bind_ret, ?bind_raise;
    try (unfold out_of, trace_of; cbn [fst snd failure_of];
         split; [reflexivity | discriminate]);
    match goal with
    | |- context [requests_put ?u ?h ?j] =>
        destruct (checked_put_run R u h j s) as (resp & s1 & _ & ->)
    end;
    unfold out_of, trace_of; cbn [fst snd];
    now destruct (status_error resp).
Qed.

Lemma write_loop_clean (items : list item) :
  forall errors s,
    failures (attempt_each R base_url token course items s) = [] ->
    let r := write_loop R base_url token course items errors s in
    Forall accepted (trace_of r) /\ length (trace_of r) = length items.
Proof.
  induction items as [|it rest IH]; intros errors s Hclean; cbv zeta.
  - split; [constructor | reflexivity].
  - rewrite write_loop_cons; cbv zeta.
    simpl attempt_each in Hclean. unfold failures in Hclean.
    simpl flat_map in Hclean. apply app_eq_nil in Hclean as [Hit Hrest].
    fold (failures (attempt_each R base_url token course rest
                      (state_of (write_item R base_url token course it s))))
      in Hrest.
    assert (Hnone : failure_of
                      (out_of (write_item R base_url token course it s))
                    = None).
    { destruct (failure_of _); [discriminate Hit | reflexivity]. }
    pose proof (write_item_event it s) as Hev; cbv zeta in Hev.
    destruct (put_call_of base_url token course it) as [c|];
      [|now destruct Hev as [_ Hev]].
    rewrite trace_of_triple, Hev, Hnone.
    destruct (IH (errors ++ failures [(it, None)]) _ Hrest) as [Hall Hlen].
    rewrite Hnone in *.
    split; [constructor; [reflexivity | exact Hall]|].
    cbn [app length]; now rewrite Hlen.
Qed.

End WriteBackSuccess.

Lemma write_approved_changes_trace (R : Remote) (cfg : config)
    (sess : session) (s : rstate R) :
  truthy_opt (course_id sess) = true ->
  canvas_configured cfg = true ->
  run_trace (write_approved_changes R cfg sess s)
  = match approved_items sess with
    | [] => []
    | _ :: _ =>
        trace_of (write_loop R (canvas_base cfg) (canvas_token cfg)
                    (or_empty (course_id sess)) (approved_items sess) [] s)
    end.
Proof.
  intros Hcourse Hcfg.
  unfold canvas_configured in Hcfg.
  apply andb_prop in Hcfg as [Hb Ht].
  unfold write_approved_changes, run_block, get_canvas_config.
  rewrite Hcourse, Hb, Ht; cbn [negb orb].
  rewrite bind_ret; cbn [fst snd].
  fold (canvas_base cfg) (canvas_token cfg).
  destruct (approved_items sess) as [|it rest]; [reflexivity|].
  unfold bind.
  destruct (write_loop R (canvas_base cfg) (canvas_token cfg)
              (or_empty (course_id sess)) (it :: rest) [] s)
    as [[[errors| | |] s1] t1]; try reflexivity.
  destruct errors; unfold ret, run_trace, trace_of; cbn [fst snd];
    now rewrite app_nil_r.
Qed.

(** X20.  The success message of the write-back can be trusted: when the
    handler reports that all approved items were written, at least one item
    was selected, one update request was sent for every selected item, and
    every one of these requests was accepted. *)
Theorem all_written_means_all_accepted (R : Remote) (cfg : config)
    (sess : session) (s : rstate R) :
  let run := write_approved_changes R cfg sess s in
  run_outcome run = Ret AllWritten ->
  approved_items sess <> []
  /\ length (run_trace run) = length (approved_items sess)
  /\ Forall accepted (run_trace run)
  /\ map ev_call (run_trace run)
     = requests_for (canvas_base cfg) (canvas_token cfg)
         (or_empty (course_id sess)) (approved_items sess).
Proof.
  intros run Hall.
  destruct (truthy_opt (course_id sess) && canvas_configured cfg) eqn:Hgo.
  - apply andb_prop in Hgo as [Hcourse Hcfg].
    destruct (write_approved_changes_run R cfg sess s Hcourse Hcfg)
      as (_ & Hout & Hcalls).
    pose proof (write_approved_changes_trace R cfg sess s Hcourse Hcfg)
      as Htrace.
    fold run in Hout, Hcalls, Htrace.
    rewrite Hout in Hall.
    destruct (approved_items sess) as [|it rest] eqn:Hsel;
      [discriminate Hall|].
    assert (Hclean : failures
                       (attempt_each R (canvas_base cfg) (canvas_token cfg)
                          (or_empty (course_id sess)) (it :: rest) s) = []).
    { unfold report in Hall. destruct (failures _); [reflexivity|].
      discriminate Hall. }
    destruct (write_loop_clean R _ _ _ (it :: rest) [] s Hclean)
      as [Hacc Hlen].
    rewrite Htrace.
    split; [discriminate|]. split; [exact Hlen|]. split; [exact Hacc|].
    rewrite <- Htrace. exact Hcalls.
  - exfalso. subst run. revert Hall.
    unfold write_approved_changes, run_block, get_canvas_config.
    destruct (truthy_opt (course_id sess)); cbn [negb andb] in *.
    + unfold canvas_configured in Hgo.
      rewrite <- negb_andb, Hgo; cbn [negb]. discriminate.
    + discriminate.
Qed.

(** ** Configuration *)

Lemma rstrip_chars_spec (c : N) (s : pystr) :
  exists k,
    s = rstrip_chars [c] s ++ repeat c k
    /\ ends_with [c] (rstrip_chars [c] s) = false.
Proof.
  unfold rstrip_chars, ends_with.
  set (p := fun d => existsb (N.eqb d) [c]).
  rewrite rev_involutive.
  pose proof (drop_while_split p (rev s)) as Hsplit.
  pose proof (take_while_all p (rev s)) as Hall.
  pose proof (drop_while_head p (rev s)) as Hhead.
  exists (length (take_while p (rev s))). split.
  - apply (f_equal (@rev N)) in Hsplit.
    rewrite rev_involutive, rev_app_distr in Hsplit.
    rewrite Hsplit at 1. f_equal.
    clear Hsplit Hhead.
    induction (take_while p (rev s)) as [|d l IH]; [reflexivity|].
    simpl in Hall; apply andb_prop in Hall as [Hd Hl].
    unfold p in Hd; simpl in Hd; rewrite orb_false_r in Hd.
    apply N.eqb_eq in Hd; subst d.
    simpl rev; rewrite IH by exact Hl.
    cbn [length repeat]. now rewrite repeat_cons.
  - destruct (drop_while p (rev s)) as [|d l]; [reflexivity|].
    unfold p in Hhead; simpl in Hhead; rewrite orb_false_r in Hhead.
    simpl. rewrite N.eqb_sym, Hhead. reflexivity.
Qed.

(** X21.  [get_canvas_config] touches no remote service and, when it
    returns, returns a non-empty token and a base URL that does not end
    with a slash: it is the configured base URL less its trailing slashes,
    and nothing else is removed from it. *)
Theorem canvas_base_has_no_trailing_slash (R : Remote) (cfg : config)
    (s : rstate R) (base_url token : pystr) (s' : rstate R)
    (t : list event) :
  get_canvas_config cfg s = (Ret (base_url, token), s', t) ->
  ends_with (py "/") base_url = false
  /\ (exists k,
        or_empty (setting cfg "CANVAS_BASE_URL")
        = base_url ++ repeat 47%N k)
  /\ truthy token = true
  /\ s' = s /\ t = [].
Proof.
  unfold get_canvas_config.
  destruct (truthy_opt (setting cfg "CANVAS_BASE_URL")); simpl;
    [|discriminate].
  destruct (truthy_opt (setting cfg "CANVAS_API_TOKEN")) eqn:Ht; simpl;
    [|discriminate].
  intros [= <- <- <- <-].
  destruct (rstrip_chars_spec 47 (or_empty (setting cfg "CANVAS_BASE_URL")))
    as (k & Hk & Hend).
  split; [exact Hend|]. split; [now exists k|].
  split; [|now split].
  now destruct (setting cfg "CANVAS_API_TOKEN").
Qed.


(** ** The review step *)

(** X23.  The checkbox pass of the review step, given one checkbox state
    per item, overwrites every approval with the state of its checkbox and
    touches nothing else: the states become the approvals whatever the
    approvals were before, every other field of every item is kept, and
    fed the approvals the items already carry the pass changes nothing. *)
Theorem review_checkboxes_overwrite (checks : list bool)
    (items : list item) :
  length checks = length items ->
  map approved (review_checkboxes checks items) = checks
  /\ map (set_approved false) (review_checkboxes checks items)
     = map (set_approved false) items
  /\ review_checkboxes (map approved items) items = items.
Proof.
  intros Hlen. split; [|split].
  - revert checks Hlen; induction items as [|it rest IH]; intros [|c cs];
      simpl; try reflexivity; try discriminate.
    intros [= H]. now rewrite IH.
  - clear Hlen.
    revert checks; induction items as [|it rest IH]; intros [|c cs];
      simpl; try reflexivity. now rewrite IH.
  - clear Hlen. induction items as [|it rest IH]; simpl; [reflexivity|].
    rewrite IH. now destruct it.
Qed.

(** X24.  Without the endpoint or the key of the model deployment the
    rewrite button does nothing at all: no request is sent, the remote and
    the whole session (the rewrite flag included) stay as they were, and
    the run stops (or the button was disabled in the first place). *)
Theorem missing_ai_config_rewrites_nothing (R : Remote) (cfg : config)
    (global_instructions : pystr) (sess : session) (s : rstate R) :
  openai_configured cfg = false ->
  let run := run_rewrite_all R cfg global_instructions sess s in
  run_trace run = [] /\ run_state run = s /\ run_session run = sess
  /\ (run_outcome run = Stop \/ run_outcome run = Ret ButtonDisabled).
Proof.
  intros Hcfg run; subst run.
  unfold openai_configured in Hcfg.
  unfold run_rewrite_all, get_ai_client.
  rewrite <- negb_andb, Hcfg; cbn [negb].
  destruct (negb _); unfold stop; cbn; auto.
Qed.

(* ------------------------------------------------------------------ *)
(** * Further concrete runs *)

Lemma absent_char (c : N) (p : pystr) :
  forallb (fun d => negb (N.eqb d c)) p = true -> ~ In c p.
Proof.
  induction p as [|d p IH]; simpl; [tauto|].
  intros H [E|Hin]; apply andb_prop in H as [Hd Hp].
  - subst d. now rewrite N.eqb_refl in Hd.
  - now apply IH.
Qed.

Lemma demo_paginate_chain :
  serves_from Demo.canvas (canvas_headers Demo.token)
    (params_or_none (Some per_page))
    (Some (assignments_endpoint Demo.base Demo.course)) 0
    [[Demo.a1; Demo.a2]; [Demo.a3]] 2.
Proof.
  eapply (@from_goes_on Demo.canvas _ _ _ 0
            (Demo.listing (assignments_endpoint Demo.base Demo.course)) 1
            [[Demo.a3]] 2); try (vm_compute; reflexivity).
  eapply (@from_goes_on Demo.canvas _ _ _ 1
            (Demo.listing (py "https://canvas.test/more")) 2 [] 2);
    try (vm_compute; reflexivity).
  apply from_ends; vm_compute; reflexivity.
Qed.

Lemma next_url_extracts_target_witness :
  next_url (Demo.ok (Some Samples.link_two) tt)
  = Some (py "https://canvas.test/x?page=2").
Proof.
  apply (@next_url_extracts_target unit
           (Demo.ok (Some Samples.link_two) tt)
           [py "<https://canvas.test/x?page=1>; rel=" ++ dquote
            ++ py "current" ++ dquote]
           [] [] (py "https://canvas.test/x?page=2")
           (py "; rel=" ++ dquote ++ py "next" ++ dquote)).
  - vm_compute; reflexivity.
  - repeat apply Forall_cons; try apply Forall_nil;
      apply absent_char; vm_compute; reflexivity.
  - repeat apply Forall_cons; try apply Forall_nil; vm_compute; reflexivity.
  - vm_compute; reflexivity.
  - apply absent_char; vm_compute; reflexivity.
  - apply absent_char; vm_compute; reflexivity.
  - apply absent_char; vm_compute; reflexivity.
Defined.

Lemma next_url_without_brackets_witness :
  next_url (Demo.ok (Some Samples.link_bare) tt)
  = Some (py "https://canvas.test/x; rel=" ++ dquote ++ py "next").
Proof.
  apply (@next_url_without_brackets unit
           (Demo.ok (Some Samples.link_bare) tt) Samples.link_bare).
  - reflexivity.
  - apply absent_char; vm_compute; reflexivity.
  - apply absent_char; vm_compute; reflexivity.
  - apply absent_char; vm_compute; reflexivity.
  - vm_compute; reflexivity.
Defined.

Lemma paginate_canvas_concatenates_witness :
  let run := _paginate_canvas Demo.canvas 5 Demo.base Demo.token
               (assignments_endpoint Demo.base Demo.course)
               (Some per_page) 0 in
  out_of run = Ret (concat [[Demo.a1; Demo.a2]; [Demo.a3]])
  /\ state_of run = 2
  /\ length (trace_of run) = 2.
Proof.
  assert (Hfuel : length [[Demo.a1; Demo.a2]; [Demo.a3]] <= 5)
    by (simpl; lia).
  exact (@paginate_canvas_concatenates Demo.canvas 5 Demo.base Demo.token
           (assignments_endpoint Demo.base Demo.course) (Some per_page) 0
           [[Demo.a1; Demo.a2]; [Demo.a3]] 2 demo_paginate_chain Hfuel).
Defined.

Lemma single_page_harvest_witness :
  get_assignments Samples.one_page 3 Demo.base Demo.token Demo.course
    (Some 5%Z) 0
  = (Ret [Demo.a1; Demo.a2], 1,
     [mkEvent (Get (assignments_endpoint Demo.base Demo.course)
                   (canvas_headers Demo.token) per_page) None]).
Proof.
  refine (proj1 (@single_page_harvest Samples.one_page 2 Demo.base
                   Demo.token Demo.course (Some 5%Z) 0)
            (Demo.ok None [Demo.a1; Demo.a2]) 1 _).
  split; [reflexivity|]. split; [reflexivity|].
  split; [|vm_compute; reflexivity].
  repeat apply Forall_cons; try apply Forall_nil; vm_compute; reflexivity.
Defined.

Lemma capped_harvest_is_bounded_witness :
  out_of (get_assignments Demo.canvas 5 Demo.base Demo.token Demo.course
            (Some 1%Z) 0) = Ret [Demo.a1]
  /\ (Z.of_nat (length [Demo.a1]) <= 1)%Z.
Proof.
  assert (H : out_of (get_assignments Demo.canvas 5 Demo.base Demo.token
                        Demo.course (Some 1%Z) 0) = Ret [Demo.a1])
    by (vm_compute; reflexivity).
  split; [exact H|].
  apply (@capped_harvest_is_bounded Demo.canvas 5 Demo.base Demo.token
           Demo.course 1 0 [Demo.a1]); [lia | right; left; exact H].
Defined.

Lemma negative_cap_drops_the_tail_witness :
  get_assignments Demo.canvas 5 Demo.base Demo.token Demo.course
    (Some (-1)%Z) 0
  = (Ret [Demo.a1], 1,
     [mkEvent (Get (assignments_endpoint Demo.base Demo.course)
                   (canvas_headers Demo.token) per_page) None]).
Proof.
  apply (@negative_cap_drops_the_tail Demo.canvas 4 Demo.base Demo.token
           Demo.course (-1) 0
           (Demo.listing (assignments_endpoint Demo.base Demo.course)) 1);
    [lia | vm_compute; reflexivity | vm_compute; reflexivity].
Defined.

Lemma get_pages_fetches_every_detail_witness :
  let run := get_pages Demo.canvas 5 Demo.base Demo.token Demo.course
               None 0 in
  out_of run = Ret (concat [[Demo.a1; Demo.a2]; [Demo.a3]])
  /\ state_of run = 5
  /\ length (trace_of run) = 2 + 3
  /\ length (detail_requests (trace_of run)) = 3
  /\ Forall (fun ev => ev_error ev = None) (trace_of run).
Proof.
  assert (Hfuel : length [[Demo.a1; Demo.a2]; [Demo.a3]] <= 5)
    by (simpl; lia).
  exact (@get_pages_fetches_every_detail Demo.canvas 5 Demo.base Demo.token
           Demo.course 0 [[Demo.a1; Demo.a2]; [Demo.a3]] 5
           demo_pages_chain Hfuel).
Defined.

Lemma demo_pages_chain_from (n : nat) :
  serves_pages Demo.canvas Demo.base Demo.course (canvas_headers Demo.token)
    (Some (pages_endpoint Demo.base Demo.course)) n
    [[Demo.a1; Demo.a2]; [Demo.a3]] (5 + n).
Proof.
  eapply (@pages_go_on Demo.canvas _ _ _ _ n
            (Demo.listing (pages_endpoint Demo.base Demo.course)) (1 + n)
            [Demo.a1; Demo.a2] (3 + n) [[Demo.a3]] (5 + n));
    try (vm_compute; reflexivity).
  - eapply (@details_go_on Demo.canvas _ _ _ _ _ (py "alpha") (1 + n)
              (Demo.detail
                 (py "https://canvas.test/api/v1/courses/7/pages/alpha"))
              (2 + n) [Demo.a2] (3 + n)); try (vm_compute; reflexivity).
    eapply (@details_go_on Demo.canvas _ _ _ _ _ (py "beta") (2 + n)
              (Demo.detail
                 (py "https://canvas.test/api/v1/courses/7/pages/beta"))
              (3 + n) [] (3 + n)); try (vm_compute; reflexivity).
    apply details_end.
  - eapply (@pages_go_on Demo.canvas _ _ _ _ (3 + n)
              (Demo.listing (py "https://canvas.test/more")) (4 + n)
              [Demo.a3] (5 + n) [] (5 + n)); try (vm_compute; reflexivity).
    + eapply (@details_go_on Demo.canvas _ _ _ _ _ (py "gamma") (4 + n)
                (Demo.detail
                   (py "https://canvas.test/api/v1/courses/7/pages/gamma"))
                (5 + n) [] (5 + n)); try (vm_compute; reflexivity).
      apply details_end.
    + apply pages_end; vm_compute; reflexivity.
Qed.

Lemma demo_listing_chain_from (n : nat) (collection : string) :
  collection = "assignments"%string
  \/ collection = "discussion_topics"%string ->
  serves_listing Demo.canvas (canvas_headers Demo.token)
    (Some (Demo.base ++ py "/api/v1/courses/" ++ Demo.course ++ py "/"
           ++ py collection)) n
    [[Demo.a1; Demo.a2]; [Demo.a3]] (2 + n).
Proof.
  intros [-> | ->].
  - eapply (@listing_goes_on Demo.canvas _ _ n
              (Demo.listing (assignments_endpoint Demo.base Demo.course))
              (1 + n) [[Demo.a3]] (2 + n)); try (vm_compute; reflexivity).
    eapply (@listing_goes_on Demo.canvas _ _ (1 + n)
              (Demo.listing (py "https://canvas.test/more")) (2 + n) []
              (2 + n)); try (vm_compute; reflexivity).
    apply listing_ends; vm_compute; reflexivity.
  - eapply (@listing_goes_on Demo.canvas _ _ n
              (Demo.listing (discussions_endpoint Demo.base Demo.course))
              (1 + n) [[Demo.a3]] (2 + n)); try (vm_compute; reflexivity).
    eapply (@listing_goes_on Demo.canvas _ _ (1 + n)
              (Demo.listing (py "https://canvas.test/more")) (2 + n) []
              (2 + n)); try (vm_compute; reflexivity).
    apply listing_ends; vm_compute; reflexivity.
Qed.

Lemma fetch_builds_registry_in_order_witness :
  let run := fetch_course_content Demo.canvas 5 Demo.cfg Demo.course
               Demo.empty_session 0 in
  run_session run
  = mkSession (Samples.registry Page ++ Samples.registry Assignment
               ++ Samples.registry Discussion)
              [] (Some Demo.course) false
  /\ run_outcome run
     = Ret (Loaded (length (Samples.registry Page
                            ++ Samples.registry Assignment
                            ++ Samples.registry Discussion)) Demo.course)
  /\ run_state run = 10.
Proof.
  assert (Hfuel : length [[Demo.a1; Demo.a2]; [Demo.a3]] <= 5)
    by (simpl; lia).
  refine (@fetch_builds_registry_in_order Demo.canvas 5 Demo.cfg
            Demo.course Demo.empty_session 0
            (Demo.detail (py "https://canvas.test/api/v1/courses/7"))
            1 6 8 10
            [[Demo.a1; Demo.a2]; [Demo.a3]] [[Demo.a1; Demo.a2]; [Demo.a3]]
            [[Demo.a1; Demo.a2]; [Demo.a3]]
            (Samples.registry Page) (Samples.registry Assignment)
            (Samples.registry Discussion)
            _ _ _ _ _ _ _ Hfuel Hfuel Hfuel _ _ _).
  - vm_compute; reflexivity.
  - vm_compute; reflexivity.
  - vm_compute; reflexivity.
  - vm_compute; reflexivity.
  - exact (demo_pages_chain_from 1).
  - exact (demo_listing_chain_from 6 (or_introl eq_refl)).
  - exact (demo_listing_chain_from 8 (or_intror eq_refl)).
  - repeat apply Forall2_cons; try apply Forall2_nil; intros st;
      reflexivity.
  - repeat apply Forall2_cons; try apply Forall2_nil; intros st;
      reflexivity.
  - repeat apply Forall2_cons; try apply Forall2_nil; intros st;
      reflexivity.
Defined.

Lemma rewrite_requests_in_order_witness :
  let items := [Samples.alpha; Samples.hollow; Samples.beta] in
  map ev_call
    (loop_trace (rewrite_loop Demo.canvas Demo.cfg Demo.client (py "model")
                   (py "") items 0))
  = [transform_call Demo.cfg Demo.client (py "model") (py "") Samples.alpha;
     transform_call Demo.cfg Demo.client (py "model") (py "") Samples.beta].
Proof.
  exact (@rewrite_requests_in_order Demo.canvas Demo.cfg Demo.client
           (py "model") (py "") eq_refl
           [Samples.alpha; Samples.hollow; Samples.beta] 0).
Defined.

Lemma rewrite_without_model_sends_nothing_witness :
  let sess := Samples.loaded [Samples.alpha; Samples.beta] in
  let run := run_rewrite_all Demo.canvas Samples.cfg_no_model (py "")
               sess 0 in
  run_trace run = []
  /\ run_state run = 0
  /\ (run_outcome run = Stop \/ run_outcome run = Ret ButtonDisabled)
  /\ rewrite_done (run_session run) = rewrite_done sess.
Proof.
  exact (@rewrite_without_model_sends_nothing Demo.canvas
           Samples.cfg_no_model (py "")
           (Samples.loaded [Samples.alpha; Samples.beta]) 0
           eq_refl eq_refl).
Defined.

Lemma rewrite_item_returns_trimmed_witness :
  out_of (rewrite_item Demo.canvas Demo.cfg Demo.client Samples.alpha
            (py "model") (py "") 0)
  = Ret (py "<div>styled</div>")
  /\ strip (py "<div>styled</div>") = py "<div>styled</div>".
Proof.
  split; [vm_compute; reflexivity|].
  refine (proj1 (@rewrite_item_returns_trimmed Demo.canvas Demo.cfg
                   Demo.client Samples.alpha (py "model") (py "") 0
                   (py "<div>styled</div>") 1
                   [mkEvent (transform_call Demo.cfg Demo.client
                               (py "model") (py "") Samples.alpha) None]
                   _)).
  vm_compute; reflexivity.
Defined.

Lemma blank_answer_leaves_nothing_to_write_witness :
  nth_error
    (loop_items (rewrite_loop Samples.blank_model Demo.cfg Demo.client
                   (py "model") (py "") [Samples.alpha] 0)) 0
  = Some (set_rewritten_html [] Samples.alpha)
  /\ selected (set_approved true (set_rewritten_html [] Samples.alpha))
     = false.
Proof.
  assert (Hreply :
            reply_for Samples.blank_model Demo.cfg Demo.client (py "model")
              (py "") Samples.alpha
              (state_before Samples.blank_model Demo.cfg Demo.client
                 (py "model") (py "") [Samples.alpha] 0 0)
            = ChatReturns [Some (py "   "); None])
    by (vm_compute; reflexivity).
  destruct (@blank_answer_leaves_nothing_to_write Samples.blank_model
              Demo.cfg Demo.client (py "model") (py "") [Samples.alpha] 0
              0 Samples.alpha (Some (py "   ")) [None]
              eq_refl eq_refl eq_refl Hreply eq_refl)
    as (Hitem & _ & _ & Hsel).
  exact (conj Hitem (Hsel true)).
Defined.

Lemma all_written_means_all_accepted_witness :
  let sess := mkSession [Samples.alpha; Samples.beta; Samples.gamma]
                (py "model") (Some Demo.course) true in
  let run := write_approved_changes Demo.canvas Demo.cfg sess 0 in
  run_outcome run = Ret AllWritten
  /\ approved_items sess <> []
  /\ length (run_trace run) = length (approved_items sess)
  /\ Forall accepted (run_trace run).
Proof.
  intros sess run.
  assert (Hall : run_outcome run = Ret AllWritten)
    by (vm_compute; reflexivity).
  destruct (@all_written_means_all_accepted Demo.canvas Demo.cfg sess 0
              Hall) as (Hsel & Hlen & Hacc & _).
  exact (conj Hall (conj Hsel (conj Hlen Hacc))).
Defined.

Lemma canvas_base_has_no_trailing_slash_witness :
  get_canvas_config (R := Demo.canvas) Demo.cfg 0
  = (Ret (Demo.base, Demo.token), 0, [])
  /\ ends_with (py "/") Demo.base = false
  /\ exists k,
       or_empty (setting Demo.cfg "CANVAS_BASE_URL")
       = Demo.base ++ repeat 47%N k.
Proof.
  assert (Hrun : get_canvas_config (R := Demo.canvas) Demo.cfg 0
                 = (Ret (Demo.base, Demo.token), 0, []))
    by (vm_compute; reflexivity).
  destruct (@canvas_base_has_no_trailing_slash Demo.canvas Demo.cfg 0
              Demo.base Demo.token 0 [] Hrun) as (Hend & Hrest & _).
  exact (conj Hrun (conj Hend Hrest)).
Defined.


Lemma review_checkboxes_overwrite_witness :
  let items := [Samples.alpha; Samples.beta] in
  map approved items = [true; false]
  /\ map approved (review_checkboxes [false; true] items) = [false; true]
  /\ map (set_approved false) (review_checkboxes [false; true] items)
     = map (set_approved false) items
  /\ review_checkboxes (map approved items) items = items.
Proof.
  intros items.
  exact (conj eq_refl
           (@review_checkboxes_overwrite [false; true] items eq_refl)).
Defined.

Lemma missing_ai_config_rewrites_nothing_witness :
  let sess := Samples.loaded [Samples.alpha] in
  let run := run_rewrite_all Demo.canvas Samples.no_cfg (py "") sess 0 in
  openai_configured Samples.no_cfg = false
  /\ run_trace run = [] /\ run_state run = 0 /\ run_session run = sess
  /\ (run_outcome run = Stop \/ run_outcome run = Ret ButtonDisabled).
Proof.
  intros sess run.
  exact (conj eq_refl
           (@missing_ai_config_rewrites_nothing Demo.canvas Samples.no_cfg
              (py "") sess 0 eq_refl)).
Defined.
